(** * CallTrigger: the call-management component of the voice-agent dashboard

    A shallow embedding of [CallTrigger] (the React component that formats the
    driver's phone number, starts a test call, polls for its completion,
    assembles the displayed call result and offers a manual lookup), with the
    properties its specification states about it.

    Conventions of the embedding.
    - A JavaScript string is a [string] holding its UTF-8 bytes.  Every
      character class the component uses ([\D], [\w], [\s], the line
      terminators that [.] excludes) is decided on ASCII bytes, or on the byte
      sequence that encodes one of the few non-ASCII white-space characters.
    - A JavaScript object used as a dictionary ([keyInfo]) is a [gmap] from
      property names to values.
    - A [try]/[catch] is a function into [result]; the handler is the match
      on [Throw].
    - The bodies of the backend's answers are typed as the backend documents
      them: a call record has optional string fields and an optional analysis
      object, a processed transcript has an optional summary, sentiment and
      list of key points.  The [status] of a status answer is any JSON value,
      or missing: the component compares it with two strings and prints it.
    - A time value is a whole number of milliseconds, in [Z]; the code has
      doubles, which agree with [Z] up to [maxSafeInteger].
    - Network requests and [alert]s are recorded in a trace, in the order in
      which the component issues them.  The backend answers a request as a
      function of the trace so far.
    - The poll loop is given twice.  [tick], [resume] and [deliver] take it
      request by request, as the [async] callback of the interval runs: a
      tick counts the attempt and sends the status request, and the rest of
      the callback runs when the answer is delivered, with ticks and other
      answers in between and the counter shared.  [pollTick] is the same
      callback with its answers delivered before anything else happens
      ([settledTick_atomic]); what is stated of [pollTick] is stated of
      that schedule.
    - A click handler is taken with its requests answered before the next
      action; it works on the state of the render that made it. *)

From Stdlib Require Import ZArith Lia Bool Ascii String.
From stdpp Require Import base option list strings pretty gmap fin_maps.

Local Open Scope string_scope.
Local Open Scope list_scope.

(** ** JavaScript string primitives used by the component *)

Module JS.

(** [s.startsWith(p)] *)
Fixpoint startsWith (p s : string) : bool :=
  match p, s with
  | EmptyString, _ => true
  | String a p', String b s' => Ascii.eqb a b && startsWith p' s'
  | String _ _, EmptyString => false
  end.

(** [s.substring(n)] for an index inside the string *)
Fixpoint substring (n : nat) (s : string) : string :=
  match n, s with
  | O, _ => s
  | S _, EmptyString => EmptyString
  | S n', String _ s' => substring n' s'
  end.

(** Truthiness of a string: only the empty string is falsy. *)
Definition truthy (s : string) : bool :=
  match s with EmptyString => false | String _ _ => true end.

(** The class [\d]: the ten ASCII digits. *)
Definition isDigit (c : ascii) : bool :=
  let n := nat_of_ascii c in (48 <=? n)%nat && (n <=? 57)%nat.

(** [s.replace(/\D/g, '')]: every non-digit is replaced by nothing. *)
Fixpoint removeNonDigits (s : string) : string :=
  match s with
  | EmptyString => EmptyString
  | String c s' =>
      if isDigit c then String c (removeNonDigits s') else removeNonDigits s'
  end.

(** The class [\w]: ASCII letters, digits and the underscore. *)
Definition isWord (c : ascii) : bool :=
  let n := nat_of_ascii c in
  ((48 <=? n) && (n <=? 57) || (65 <=? n) && (n <=? 90)
   || (97 <=? n) && (n <=? 122) || (n =? 95))%nat.

(** [c.toUpperCase()] on one code unit matched by an ASCII class: the
    lower-case ASCII letters move to upper case, nothing else changes. *)
Definition toUpperCase (c : ascii) : ascii :=
  let n := nat_of_ascii c in
  if ((97 <=? n) && (n <=? 122))%nat then ascii_of_nat (n - 32) else c.

(** [s.replace(/_/g, ' ')] *)
Fixpoint underscoresToSpaces (s : string) : string :=
  match s with
  | EmptyString => EmptyString
  | String c s' =>
      String (if Ascii.eqb c "_" then " "%char else c) (underscoresToSpaces s')
  end.

(** [s.replace(/\b\w/g, l => l.toUpperCase())]: a word character is
    replaced when the character before it is not a word character (or when
    it opens the string); [prevWord] tells whether the previous character
    was one. *)
Fixpoint capitalizeWords (prevWord : bool) (s : string) : string :=
  match s with
  | EmptyString => EmptyString
  | String c s' =>
      String (if isWord c && negb prevWord then toUpperCase c else c)
             (capitalizeWords (isWord c) s')
  end.

(** [s.split('\n')] *)
Fixpoint splitLines (s : string) : list string :=
  match s with
  | EmptyString => [EmptyString]
  | String c s' =>
      if Ascii.eqb c "010" then EmptyString :: splitLines s'
      else match splitLines s' with
           | l :: ls => String c l :: ls
           | [] => [String c EmptyString]
           end
  end.

(** *** Characters

    White space and line terminators are classes of characters, some of
    them outside ASCII; [chars] cuts the UTF-8 bytes of a string into its
    characters (a leading byte with the continuation bytes after it), and
    [unchars] puts them together again. *)

Definition isContinuation (c : ascii) : bool :=
  let n := nat_of_ascii c in (128 <=? n)%nat && (n <? 192)%nat.

Definition startsWithContinuation (s : string) : bool :=
  match s with
  | EmptyString => false
  | String c _ => isContinuation c
  end.

Fixpoint chars (s : string) : list string :=
  match s with
  | EmptyString => []
  | String c s' =>
      match chars s' with
      | h :: t =>
          if startsWithContinuation h then String c h :: t
          else String c EmptyString :: h :: t
      | [] => [String c EmptyString]
      end
  end.

Definition unchars (cs : list string) : string :=
  fold_right String.append EmptyString cs.

Definition utf8 (bytes : list nat) : string :=
  string_of_list_ascii (map ascii_of_nat bytes).

(** LineTerminator: LF, CR, U+2028, U+2029. *)
Definition lineTerminators : list string :=
  [utf8 [10]; utf8 [13]; utf8 [226; 128; 168]; utf8 [226; 128; 169]].

(** WhiteSpace: TAB, VT, FF, SP, NBSP, U+1680, U+2000..U+200A, U+202F,
    U+205F, U+3000, U+FEFF. *)
Definition whiteSpaces : list string :=
  [utf8 [9]; utf8 [11]; utf8 [12]; utf8 [32]; utf8 [194; 160];
   utf8 [225; 154; 128]]
  ++ map (fun b => utf8 [226; 128; b]) (seq 128 11)
  ++ [utf8 [226; 128; 175]; utf8 [226; 129; 159]; utf8 [227; 128; 128];
      utf8 [239; 187; 191]].

Definition isLineTerminator (ch : string) : bool :=
  existsb (String.eqb ch) lineTerminators.

(** The class [\s], which is also what [trim] removes: white space and
    line terminators. *)
Definition isSpace (ch : string) : bool :=
  existsb (String.eqb ch) whiteSpaces || isLineTerminator ch.

Fixpoint dropWhile {A} (p : A -> bool) (l : list A) : list A :=
  match l with
  | [] => []
  | x :: l' => if p x then dropWhile p l' else l
  end.

Fixpoint takeWhile {A} (p : A -> bool) (l : list A) : list A :=
  match l with
  | [] => []
  | x :: l' => if p x then x :: takeWhile p l' else []
  end.

(** [s.trim()] *)
Definition trim (s : string) : string :=
  unchars (rev (dropWhile isSpace (rev (dropWhile isSpace (chars s))))).

End JS.

(** ** [formatPhoneNumber] *)

Definition formatPhoneNumber (phone : string) : string :=
  let digitsOnly := JS.removeNonDigits phone in
  if JS.startsWith "92" digitsOnly then
    "+" +:+ digitsOnly
  else if JS.startsWith "03" digitsOnly && (String.length digitsOnly =? 11)%nat then
    "+92" +:+ JS.substring 1 digitsOnly
  else if (String.length digitsOnly =? 10)%nat && JS.startsWith "3" digitsOnly then
    "+92" +:+ digitsOnly
  else if JS.truthy digitsOnly then "+" +:+ digitsOnly else EmptyString.

(** The normalisation algorithm as the specification words it: the digits of
    the input are kept, then five ordered rules decide the result. *)
Module PhoneSpec.

Definition digits_of (raw : string) : list ascii :=
  filter (fun c => Is_true (JS.isDigit c)) (list_ascii_of_string raw).

Definition starts_with (p : string) (ds : list ascii) : bool :=
  bool_decide (take (String.length p) ds = list_ascii_of_string p).

Definition prefixed (p : string) (ds : list ascii) : string :=
  string_of_list_ascii (list_ascii_of_string p ++ ds).

Inductive rule := AlreadyCountryCode | LeadingZeroMobile | BareMobile | AsIs | Empty.

Definition rule_of (ds : list ascii) : rule :=
  if starts_with "92" ds then AlreadyCountryCode
  else if starts_with "03" ds && bool_decide (length ds = 11%nat) then LeadingZeroMobile
  else if bool_decide (length ds = 10%nat) && starts_with "3" ds then BareMobile
  else if bool_decide (ds <> []) then AsIs
  else Empty.

Definition normalize (raw : string) : string :=
  let ds := digits_of raw in
  match rule_of ds with
  | AlreadyCountryCode => prefixed "+" ds
  | LeadingZeroMobile => prefixed "+92" (drop 1 ds)
  | BareMobile => prefixed "+92" ds
  | AsIs => prefixed "+" ds
  | Empty => EmptyString
  end.

End PhoneSpec.

(** ** JSON values and [JSON.parse]

    A number is kept as the decimal its literal denotes,
    [mantissa * 10 ^ exponent]; the rounding to a double that the engine
    performs is not represented.  An object lists its own properties in the
    order in which [Object.keys] enumerates them. *)

#[local] Set Warnings "-register-all".

Inductive JValue :=
| JNull
| JBool (b : bool)
| JNum (mantissa exponent : Z)
| JStr (s : string)
| JArr (items : list JValue)
| JObj (props : list (string * JValue)).

Module JSON.

Definition quote : ascii := ascii_of_nat 34.
Definition backslash : ascii := ascii_of_nat 92.

Definition isWs (c : ascii) : bool :=
  let n := nat_of_ascii c in
  ((n =? 32) || (n =? 9) || (n =? 10) || (n =? 13))%nat.

Fixpoint skipWs (s : string) : string :=
  match s with
  | String c s' => if isWs c then skipWs s' else s
  | EmptyString => s
  end.

(** [expect lit s]: the rest of [s] after the literal [lit]. *)
Fixpoint expect (lit s : string) : option string :=
  match lit, s with
  | EmptyString, _ => Some s
  | String a lit', String b s' => if Ascii.eqb a b then expect lit' s' else None
  | String _ _, EmptyString => None
  end.

(** *** Numbers *)

Definition digitVal (c : ascii) : Z := Z.of_nat (nat_of_ascii c) - 48.

(** The longest run of digits that opens [s], its value continued from
    [acc], how many digits it has, and what follows it. *)
Fixpoint digits (acc : Z) (count : nat) (s : string) : Z * nat * string :=
  match s with
  | String c s' =>
      if JS.isDigit c then digits (10 * acc + digitVal c) (S count) s'
      else (acc, count, s)
  | EmptyString => (acc, count, s)
  end.

Definition headIs (c : ascii) (s : string) : bool :=
  match s with
  | String c' _ => Ascii.eqb c c'
  | EmptyString => false
  end.

Definition parseNumber (s : string) : option (JValue * string) :=
  let (neg, s1) := if headIs "-" s then (true, JS.substring 1 s) else (false, s) in
  let '(int, n, s2) := digits 0 0 s1 in
  if (n =? 0)%nat || headIs "0" s1 && (1 <? n)%nat then None else
  let frac :=
    if headIs "." s2 then
      let '(m, k, s3) := digits int 0 (JS.substring 1 s2) in
      if (k =? 0)%nat then None else Some (m, k, s3)
    else Some (int, 0%nat, s2) in
  match frac with
  | None => None
  | Some (m, k, s3) =>
      let exp :=
        if headIs "e" s3 || headIs "E" s3 then
          let s4 := JS.substring 1 s3 in
          let (eneg, s5) :=
            if headIs "-" s4 then (true, JS.substring 1 s4)
            else if headIs "+" s4 then (false, JS.substring 1 s4)
            else (false, s4) in
          let '(e, j, s6) := digits 0 0 s5 in
          if (j =? 0)%nat then None
          else Some ((if eneg then - e else e)%Z, s6)
        else Some (0%Z, s3) in
      match exp with
      | None => None
      | Some (e, rest) =>
          Some (JNum (if neg then - m else m) (e - Z.of_nat k), rest)
      end
  end.

(** *** Strings *)

(** What a string literal is made of: a byte written as it is, or a UTF-16
    code unit written as a [\uXXXX] escape. *)
Inductive piece := Byte (c : ascii) | Unit16 (u : N).

Definition hexVal (c : ascii) : option N :=
  let n := N_of_ascii c in
  if ((48 <=? n) && (n <=? 57))%N then Some (n - 48)%N
  else if ((65 <=? n) && (n <=? 70))%N then Some (n - 55)%N
  else if ((97 <=? n) && (n <=? 102))%N then Some (n - 87)%N
  else None.

Definition hex4 (a b c d : ascii) : option N :=
  match hexVal a, hexVal b, hexVal c, hexVal d with
  | Some x, Some y, Some z, Some w => Some (((x * 16 + y) * 16 + z) * 16 + w)%N
  | _, _, _, _ => None
  end.

Definition simpleEscape (e : ascii) : option ascii :=
  let n := nat_of_ascii e in
  if (n =? 34)%nat || (n =? 92)%nat || (n =? 47)%nat then Some e
  else if Ascii.eqb e "b" then Some (ascii_of_nat 8)
  else if Ascii.eqb e "f" then Some (ascii_of_nat 12)
  else if Ascii.eqb e "n" then Some (ascii_of_nat 10)
  else if Ascii.eqb e "r" then Some (ascii_of_nat 13)
  else if Ascii.eqb e "t" then Some (ascii_of_nat 9)
  else None.

Definition consPiece (p : piece) (r : option (list piece * string)) :=
  match r with
  | Some (ps, rest) => Some (p :: ps, rest)
  | None => None
  end.

(** The pieces of a string literal whose opening quote has been read, and
    what follows its closing quote. *)
Fixpoint parsePieces (s : string) : option (list piece * string) :=
  match s with
  | EmptyString => None
  | String c r =>
      if Ascii.eqb c quote then Some ([], r)
      else if Ascii.eqb c backslash then
        match r with
        | EmptyString => None
        | String e r1 =>
            if Ascii.eqb e "u" then
              match r1 with
              | String h1 (String h2 (String h3 (String h4 r2))) =>
                  match hex4 h1 h2 h3 h4 with
                  | Some u => consPiece (Unit16 u) (parsePieces r2)
                  | None => None
                  end
              | _ => None
              end
            else
              match simpleEscape e with
              | Some c' => consPiece (Byte c') (parsePieces r1)
              | None => None
              end
        end
      else if (nat_of_ascii c <? 32)%nat then None
      else consPiece (Byte c) (parsePieces r)
  end.

Definition utf8Encode (cp : N) : list ascii :=
  let b (n : N) := ascii_of_N n in
  if (cp <? 128)%N then [b cp]
  else if (cp <? 2048)%N then [b (192 + cp / 64); b (128 + cp mod 64)]%N
  else if (cp <? 65536)%N then
    [b (224 + cp / 4096); b (128 + (cp / 64) mod 64); b (128 + cp mod 64)]%N
  else
    [b (240 + cp / 262144); b (128 + (cp / 4096) mod 64);
     b (128 + (cp / 64) mod 64); b (128 + cp mod 64)]%N.

Definition isHighSurrogate (u : N) : bool := ((55296 <=? u) && (u <? 56320))%N.
Definition isLowSurrogate (u : N) : bool := ((56320 <=? u) && (u <? 57344))%N.

(** The bytes of the pieces; a surrogate pair is one character. *)
Fixpoint bytesOfPieces (ps : list piece) : list ascii :=
  match ps with
  | [] => []
  | Byte c :: ps' => c :: bytesOfPieces ps'
  | Unit16 hi :: ps' =>
      match ps' with
      | Unit16 lo :: ps'' =>
          if isHighSurrogate hi && isLowSurrogate lo then
            utf8Encode (65536 + (hi - 55296) * 1024 + (lo - 56320))%N
            ++ bytesOfPieces ps''
          else utf8Encode hi ++ bytesOfPieces ps'
      | _ => utf8Encode hi ++ bytesOfPieces ps'
      end
  end.

Definition parseString (s : string) : option (string * string) :=
  match parsePieces s with
  | Some (ps, rest) => Some (string_of_list_ascii (bytesOfPieces ps), rest)
  | None => None
  end.

(** *** Objects

    A property whose name is an array index is enumerated before the
    others, in ascending order; the others follow in the order of their
    creation.  A name that occurs twice keeps its place and takes the later
    value. *)

Definition arrayIndex (k : string) : option Z :=
  let '(v, n, rest) := digits 0 0 k in
  if (n =? 0)%nat || negb (String.eqb rest EmptyString)
     || headIs "0" k && (1 <? n)%nat || (4294967295 <=? v)%Z
  then None else Some v.

Fixpoint setNamed (k : string) (v : JValue) (props : list (string * JValue))
  : list (string * JValue) :=
  match props with
  | [] => [(k, v)]
  | (k', v') :: props' =>
      if String.eqb k k' then (k, v) :: props'
      else (k', v') :: setNamed k v props'
  end.

Fixpoint setIndexed (i : Z) (k : string) (v : JValue)
  (props : list (string * JValue)) : list (string * JValue) :=
  match props with
  | [] => [(k, v)]
  | (k', v') :: props' =>
      match arrayIndex k' with
      | Some j =>
          if (i =? j)%Z then (k, v) :: props'
          else if (i <? j)%Z then (k, v) :: props
          else (k', v') :: setIndexed i k v props'
      | None => (k, v) :: props
      end
  end.

Definition setProperty (k : string) (v : JValue)
  (props : list (string * JValue)) : list (string * JValue) :=
  match arrayIndex k with
  | Some i => setIndexed i k v props
  | None => setNamed k v props
  end.

(** *** Values

    [parseValue fuel s] reads one value at the head of [s]; [parseElements]
    reads the elements of an array whose bracket has been read, and
    [parseMembers] the members of an object.  Of two calls nested in one
    another at least one has read a character, so twice the length of the
    text is fuel enough; a text that exhausts it is rejected. *)

Fixpoint parseValue (fuel : nat) (s : string) : option (JValue * string) :=
  match fuel with
  | O => None
  | S fuel' =>
      match skipWs s with
      | EmptyString => None
      | String c r as s' =>
          if Ascii.eqb c "[" then
            match skipWs r with
            | String c' r' as r0 =>
                if Ascii.eqb c' "]" then Some (JArr [], r')
                else
                  match parseElements fuel' r0 with
                  | Some (items, rest) => Some (JArr items, rest)
                  | None => None
                  end
            | EmptyString => None
            end
          else if Ascii.eqb c "{" then
            match skipWs r with
            | String c' r' as r0 =>
                if Ascii.eqb c' "}" then Some (JObj [], r')
                else
                  match parseMembers fuel' [] r0 with
                  | Some (props, rest) => Some (JObj props, rest)
                  | None => None
                  end
            | EmptyString => None
            end
          else if Ascii.eqb c quote then
            match parseString r with
            | Some (str, rest) => Some (JStr str, rest)
            | None => None
            end
          else if Ascii.eqb c "t" then
            option_map (pair (JBool true)) (expect "true" s')
          else if Ascii.eqb c "f" then
            option_map (pair (JBool false)) (expect "false" s')
          else if Ascii.eqb c "n" then
            option_map (pair JNull) (expect "null" s')
          else parseNumber s'
      end
  end
with parseElements (fuel : nat) (s : string) : option (list JValue * string) :=
  match fuel with
  | O => None
  | S fuel' =>
      match parseValue fuel' s with
      | Some (v, rest) =>
          match skipWs rest with
          | String c r =>
              if Ascii.eqb c "]" then Some ([v], r)
              else if Ascii.eqb c "," then
                match parseElements fuel' r with
                | Some (vs, rest') => Some (v :: vs, rest')
                | None => None
                end
              else None
          | EmptyString => None
          end
      | None => None
      end
  end
with parseMembers (fuel : nat) (acc : list (string * JValue)) (s : string)
  : option (list (string * JValue) * string) :=
  match fuel with
  | O => None
  | S fuel' =>
      match skipWs s with
      | String q r =>
          if Ascii.eqb q quote then
            match parseString r with
            | Some (k, rest) =>
                match skipWs rest with
                | String c r1 =>
                    if Ascii.eqb c ":" then
                      match parseValue fuel' r1 with
                      | Some (v, rest1) =>
                          let acc' := setProperty k v acc in
                          match skipWs rest1 with
                          | String c' r2 =>
                              if Ascii.eqb c' "}" then Some (acc', r2)
                              else if Ascii.eqb c' "," then
                                parseMembers fuel' acc' r2
                              else None
                          | EmptyString => None
                          end
                      | None => None
                      end
                    else None
                | EmptyString => None
                end
            | None => None
            end
          else None
      | EmptyString => None
      end
  end.

(** [JSON.parse(text)]; [None] stands for the [SyntaxError] it throws. *)
Definition parse (text : string) : option JValue :=
  match parseValue (2 * String.length text + 2) text with
  | Some (v, rest) =>
      match skipWs rest with
      | EmptyString => Some v
      | String _ _ => None
      end
  | None => None
  end.

End JSON.

(** ** The component's data *)

(** [driverInfo], the state behind the three inputs of the form. *)
Record DriverInfo := {
  name : string;
  phone : string;
  loadNumber : string
}.

(** The body of [GET /api/calls/{id}/transcript]: a field that the body does
    not carry is [None]. *)
Record ProcessedTranscript := {
  summary : option string;
  sentiment : option string;
  key_points : option (list string)
}.

(** The body of [GET /api/calls/{id}]; [call_analysis] is a JSON object, given
    by its properties. *)
Record CallData := {
  status : option string;
  started_at : option string;
  ended_at : option string;
  call_analysis : option (list (string * JValue));
  raw_transcript : option string
}.

(** What [setCallResults] receives.  [rawCallData] and [processedTranscript]
    are present in the result of a full fetch only, [access_token] in the
    result that [startTestCall] shows. *)
Record CallResult := {
  callId : string;
  resultStatus : string;
  duration : string;
  timestamp : option string;
  keyInformation : gmap string JValue;
  transcript : list JValue;
  rawCallData : option CallData;
  processedTranscript : option ProcessedTranscript;
  access_token : option string
}.

(** A [try] block either completes with a value or throws. *)
Inductive result (A : Type) :=
| Return (a : A)
| Throw.
Arguments Return {A} a.
Arguments Throw {A}.

(** [x || fallback] for a string that may be missing *)
Definition orDefault (x : option string) (fallback : string) : string :=
  match x with
  | Some s => if JS.truthy s then s else fallback
  | None => fallback
  end.

(** ** [calculateDuration] *)

(** [Number.MAX_SAFE_INTEGER]: up to here every whole number is a double, and
    the difference, the division rounded down and the remainder that
    [calculateDuration] takes are exact in doubles.  Two valid dates can be
    further apart (a time value goes up to 8.64e15 on either side of 0);
    their difference is then rounded to a neighbouring double. *)
Definition maxSafeInteger : Z := 9007199254740991.

Section Duration.

(** [new Date(s).getTime()]; [None] is the invalid date.  The time value is a
    whole number of milliseconds, a double in the code and a [Z] here; the
    arithmetic below is that of the code while the two dates are at most
    [maxSafeInteger] apart. *)
Variable Date_parse : string -> option Z.

Definition padStart2 (s : string) : string :=
  if (String.length s <? 2)%nat then "0" +:+ s else s.

Definition calculateDuration (startTime endTime : option string) : string :=
  match startTime, endTime with
  | Some startTime, Some endTime =>
      if negb (JS.truthy startTime) || negb (JS.truthy endTime) then "Unknown"
      else
        match Date_parse startTime, Date_parse endTime with
        | Some start, Some end_ =>
            let durationMs := (end_ - start)%Z in
            let minutes := (durationMs / 60000)%Z in
            let seconds := (Z.rem durationMs 60000 / 1000)%Z in
            pretty minutes +:+ ":" +:+ padStart2 (pretty seconds)
        | _, _ => "NaN:NaN"
        end
  | _, _ => "Unknown"
  end.

End Duration.

(** ** [extractKeyInformation] *)

(** [key.replace(/_/g, ' ').replace(/\b\w/g, l => l.toUpperCase())] *)
Definition transformKey (key : string) : string :=
  JS.capitalizeWords false (JS.underscoresToSpaces key).

(** [typeof v === 'string' || typeof v === 'number'] *)
Definition isStringOrNumber (v : JValue) : bool :=
  match v with
  | JStr _ | JNum _ _ => true
  | _ => false
  end.

(** [obj[key]] on the properties of an object *)
Fixpoint getProperty (key : string) (props : list (string * JValue)) : option JValue :=
  match props with
  | [] => None
  | (k, v) :: props' => if String.eqb key k then Some v else getProperty key props'
  end.

(** [key_points.join(', ')] *)
Fixpoint join (sep : string) (items : list string) : string :=
  match items with
  | [] => EmptyString
  | [x] => x
  | x :: items' => x +:+ sep +:+ join sep items'
  end.

(** The three entries written when a processed transcript is there. *)
Definition fromProcessedTranscript (pt : option ProcessedTranscript)
  (keyInfo : gmap string JValue) : gmap string JValue :=
  match pt with
  | Some pt =>
      let keyInfo :=
        <["Call Summary" := JStr (orDefault (summary pt) "No summary available")]> keyInfo in
      let keyInfo :=
        <["Sentiment" := JStr (orDefault (sentiment pt) "Unknown")]> keyInfo in
      <["Key Points" := JStr (orDefault (join ", " <$> key_points pt) "None")]> keyInfo
  | None => keyInfo
  end.

(** The body of the [forEach] over [Object.keys(callAnalysis)]. *)
Definition copyField (callAnalysis : list (string * JValue))
  (keyInfo : gmap string JValue) (key : string) : gmap string JValue :=
  match getProperty key callAnalysis with
  | Some v => if isStringOrNumber v then <[transformKey key := v]> keyInfo else keyInfo
  | None => keyInfo
  end.

Definition fromCallAnalysis (callAnalysis : option (list (string * JValue)))
  (keyInfo : gmap string JValue) : gmap string JValue :=
  match callAnalysis with
  | Some callAnalysis =>
      fold_left (copyField callAnalysis) (map fst callAnalysis) keyInfo
  | None => keyInfo
  end.

Definition extractKeyInformation (driverInfo : DriverInfo)
  (callAnalysis : option (list (string * JValue)))
  (processedTranscript : option ProcessedTranscript) : gmap string JValue :=
  let keyInfo : gmap string JValue := ∅ in
  let keyInfo := fromProcessedTranscript processedTranscript keyInfo in
  let keyInfo := fromCallAnalysis callAnalysis keyInfo in
  let keyInfo := <["Driver Name" := JStr (name driverInfo)]> keyInfo in
  let keyInfo := <["Load Number" := JStr (loadNumber driverInfo)]> keyInfo in
  let keyInfo := <["Phone Number" := JStr (phone driverInfo)]> keyInfo in
  if (0 <? size keyInfo)%nat then keyInfo
  else
    <["Call Status" := JStr "Completed"]>
      (<["Load Number" := JStr (loadNumber driverInfo)]>
         (<["Driver Name" := JStr (name driverInfo)]> ∅)).

(** ** [formatTranscript] *)

(** A transcript entry, [{ speaker, message }]. *)
Definition entry (speaker message : string) : JValue :=
  JObj [("speaker", JStr speaker); ("message", JStr message)].

(** The prefix of [s] that matches [pat] when ASCII case is ignored (the [i]
    flag), and what follows it. *)
Fixpoint matchIgnoreCase (pat s : string) : option (string * string) :=
  match pat, s with
  | EmptyString, _ => Some (EmptyString, s)
  | String p pat', String c s' =>
      if Ascii.eqb (JS.toUpperCase p) (JS.toUpperCase c) then
        match matchIgnoreCase pat' s' with
        | Some (m, rest) => Some (String c m, rest)
        | None => None
        end
      else None
  | String _ _, EmptyString => None
  end.

(** [(.+)] at the head of [cs]: as many characters as there are before the
    first line terminator, and at least one. *)
Definition dotPlus (cs : list string) : option string :=
  match JS.takeWhile (fun ch => negb (JS.isLineTerminator ch)) cs with
  | [] => None
  | m => Some (JS.unchars m)
  end.

(** [\s*(.+)]: [\s*] has taken the spaces [taken] (the last one first) and
    gives them back one at a time for as long as [(.+)] finds nothing. *)
Fixpoint giveBack (taken rest : list string) : option string :=
  match dotPlus rest with
  | Some m => Some m
  | None =>
      match taken with
      | [] => None
      | w :: taken' => giveBack taken' (w :: rest)
      end
  end.

Definition spacesThenText (s : string) : option string :=
  let cs := JS.chars s in
  giveBack (rev (JS.takeWhile JS.isSpace cs)) (JS.dropWhile JS.isSpace cs).

Definition speakerLabels : list string :=
  ["Agent"; "Driver"; "Assistant"; "User"; "Human"].

Fixpoint matchLabels (labels : list string) (line : string) : option (string * string) :=
  match labels with
  | [] => None
  | label :: labels' =>
      match matchIgnoreCase label line with
      | Some (speaker, String c rest) =>
          if Ascii.eqb c ":" then
            match spacesThenText rest with
            | Some message => Some (speaker, message)
            | None => matchLabels labels' line
            end
          else matchLabels labels' line
      | _ => matchLabels labels' line
      end
  end.

(** [line.match(/^(Agent|Driver|Assistant|User|Human):\s*(.+)/i)], as the
    pair of its two groups. *)
Definition speakerMatch (line : string) : option (string * string) :=
  matchLabels speakerLabels line.

(** The body of [lines.forEach]: what one line pushes on [transcript]. *)
Definition formatLine (line : string) : list JValue :=
  let line := JS.trim line in
  if JS.truthy line then
    match speakerMatch line with
    | Some (speaker, message) => [entry speaker message]
    | None => [entry "System" line]
    end
  else [].

Definition formatPlainText (rawTranscript : string) : list JValue :=
  let lines := JS.splitLines rawTranscript in
  let transcript := flat_map formatLine lines in
  if (0 <? length transcript)%nat then transcript
  else [entry "System" rawTranscript].

Section Transcript.

(** [JSON.parse]; [None] is the [SyntaxError]. *)
Variable JSON_parse : string -> option JValue.

(** The [try] block of [formatTranscript]. *)
Definition formatTranscript_try (rawTranscript : string) : result (list JValue) :=
  if JS.startsWith "[" rawTranscript || JS.startsWith "{" rawTranscript then
    match JSON_parse rawTranscript with
    | None => Throw
    | Some (JArr parsed) => Return parsed
    | Some _ => Return (formatPlainText rawTranscript)
    end
  else Return (formatPlainText rawTranscript).

Definition formatTranscript (rawTranscript : option string) : list JValue :=
  match rawTranscript with
  | None =>
      [entry "System" "Transcript not available yet. It may take a few minutes to process."]
  | Some rawTranscript =>
      if negb (JS.truthy rawTranscript) then
        [entry "System" "Transcript not available yet. It may take a few minutes to process."]
      else
        match formatTranscript_try rawTranscript with
        | Return transcript => transcript
        | Throw =>
            [entry "System" (orDefault (Some rawTranscript) "Transcript processing error")]
        end
  end.

End Transcript.

(** ** The backend and the trace of a session *)

(** The body of [POST /api/call/start]. *)
Record StartBody := {
  driver_name : string;
  phone_number : string;
  load_number : string;
  agent_prompt : string;
  agent_logic : string
}.

Inductive Request :=
| StartCall (body : StartBody)
| GetStatus (id : string)
| GetCallDetail (id : string)
| GetTranscript (id : string)
| SyncCall (id : string).

(** What the user can observe of a session, in the order it happens. *)
Inductive Event :=
| Requested (r : Request)
| Alerted (message : string).

(** The answer to [POST /api/call/start]. *)
Record StartResult := {
  success : bool;
  call_id : string;
  token : string;
  agent_id : string;
  error : option string
}.

(** The answer to [POST /api/call/{id}/sync]. *)
Record SyncResult := {
  sync_ok : bool;
  sync_success : bool;
  detail : option string;
  message : option string
}.

(** A request is answered with a body, or the [await] on it throws: the
    request fails, the body is not JSON, or it is [null] where the handler
    reads a field of it. *)
Inductive Reply (A : Type) :=
| Body (a : A)
| Rejected (reason : string).
Arguments Body {A} a.
Arguments Rejected {A} reason.

(** The world outside the component.  An answer may depend on everything that
    has happened in the session so far.  [getStatus] answers with the [status]
    field of the body, any JSON value, or [None] when the body has no such
    field; [getCallDetail] with the body, [None] when the body is [null];
    [getTranscript] with the processed transcript, [None] when the request
    fails, is not [ok], or carries [null].  [String_of] is the engine's
    conversion of a value to a string, used for the values whose text depends
    on the printing of numbers. *)
Record Backend := {
  JSON_parse : string -> option JValue;
  Date_parse : string -> option Z;
  String_of : JValue -> string;
  now : list Event -> string;
  startCall : list Event -> StartBody -> Reply StartResult;
  getStatus : list Event -> string -> Reply (option JValue);
  getCallDetail : list Event -> string -> Reply (option CallData);
  getTranscript : list Event -> string -> option ProcessedTranscript;
  syncCall : list Event -> string -> Reply SyncResult
}.

(** ** The state of the component and of its timers *)

(** A pending [setTimeout(() => pollForCallCompletion(id), 5000)]; the
    callback sees the [driverInfo] of the render that scheduled it. *)
Record Timeout := {
  timeoutCallId : string;
  timeoutDelay : Z;
  timeoutDriverInfo : DriverInfo;
  fired : bool
}.

(** One call of [pollForCallCompletion]: its [setInterval] timer and the
    variable [attempts] that the callback closes over. *)
Record PollLoop := {
  pollCallId : string;
  period : Z;
  pollDriverInfo : DriverInfo;
  attempts : nat;
  cleared : bool
}.

Record World := {
  driverInfo : DriverInfo;
  agentPrompt : string;
  agentLogic : string;
  manualCallId : string;
  isCallInProgress : bool;
  currentCallId : option string;
  isFetchingResults : bool;
  isSyncing : bool;
  callResults : option CallResult;
  timeouts : list Timeout;
  polls : list PollLoop;
  trace : list Event
}.

Definition emit (e : Event) (w : World) : World :=
  {| driverInfo := driverInfo w; agentPrompt := agentPrompt w;
     agentLogic := agentLogic w; manualCallId := manualCallId w;
     isCallInProgress := isCallInProgress w; currentCallId := currentCallId w;
     isFetchingResults := isFetchingResults w; isSyncing := isSyncing w;
     callResults := callResults w; timeouts := timeouts w; polls := polls w;
     trace := trace w ++ [e] |}.

Definition alert (message : string) : World -> World := emit (Alerted message).

Definition setCallResults (r : option CallResult) (w : World) : World :=
  {| driverInfo := driverInfo w; agentPrompt := agentPrompt w;
     agentLogic := agentLogic w; manualCallId := manualCallId w;
     isCallInProgress := isCallInProgress w; currentCallId := currentCallId w;
     isFetchingResults := isFetchingResults w; isSyncing := isSyncing w;
     callResults := r; timeouts := timeouts w; polls := polls w;
     trace := trace w |}.

Definition setCurrentCallId (id : option string) (w : World) : World :=
  {| driverInfo := driverInfo w; agentPrompt := agentPrompt w;
     agentLogic := agentLogic w; manualCallId := manualCallId w;
     isCallInProgress := isCallInProgress w; currentCallId := id;
     isFetchingResults := isFetchingResults w; isSyncing := isSyncing w;
     callResults := callResults w; timeouts := timeouts w; polls := polls w;
     trace := trace w |}.

Definition setIsCallInProgress (b : bool) (w : World) : World :=
  {| driverInfo := driverInfo w; agentPrompt := agentPrompt w;
     agentLogic := agentLogic w; manualCallId := manualCallId w;
     isCallInProgress := b; currentCallId := currentCallId w;
     isFetchingResults := isFetchingResults w; isSyncing := isSyncing w;
     callResults := callResults w; timeouts := timeouts w; polls := polls w;
     trace := trace w |}.

Definition setIsFetchingResults (b : bool) (w : World) : World :=
  {| driverInfo := driverInfo w; agentPrompt := agentPrompt w;
     agentLogic := agentLogic w; manualCallId := manualCallId w;
     isCallInProgress := isCallInProgress w; currentCallId := currentCallId w;
     isFetchingResults := b; isSyncing := isSyncing w;
     callResults := callResults w; timeouts := timeouts w; polls := polls w;
     trace := trace w |}.

Definition setIsSyncing (b : bool) (w : World) : World :=
  {| driverInfo := driverInfo w; agentPrompt := agentPrompt w;
     agentLogic := agentLogic w; manualCallId := manualCallId w;
     isCallInProgress := isCallInProgress w; currentCallId := currentCallId w;
     isFetchingResults := isFetchingResults w; isSyncing := b;
     callResults := callResults w; timeouts := timeouts w; polls := polls w;
     trace := trace w |}.

Definition setDriverInfo (d : DriverInfo) (w : World) : World :=
  {| driverInfo := d; agentPrompt := agentPrompt w;
     agentLogic := agentLogic w; manualCallId := manualCallId w;
     isCallInProgress := isCallInProgress w; currentCallId := currentCallId w;
     isFetchingResults := isFetchingResults w; isSyncing := isSyncing w;
     callResults := callResults w; timeouts := timeouts w; polls := polls w;
     trace := trace w |}.

Definition setManualCallId (id : string) (w : World) : World :=
  {| driverInfo := driverInfo w; agentPrompt := agentPrompt w;
     agentLogic := agentLogic w; manualCallId := id;
     isCallInProgress := isCallInProgress w; currentCallId := currentCallId w;
     isFetchingResults := isFetchingResults w; isSyncing := isSyncing w;
     callResults := callResults w; timeouts := timeouts w; polls := polls w;
     trace := trace w |}.

Definition setAgentConfig (prompt logic : string) (w : World) : World :=
  {| driverInfo := driverInfo w; agentPrompt := prompt;
     agentLogic := logic; manualCallId := manualCallId w;
     isCallInProgress := isCallInProgress w; currentCallId := currentCallId w;
     isFetchingResults := isFetchingResults w; isSyncing := isSyncing w;
     callResults := callResults w; timeouts := timeouts w; polls := polls w;
     trace := trace w |}.

Definition setTimeouts (ts : list Timeout) (w : World) : World :=
  {| driverInfo := driverInfo w; agentPrompt := agentPrompt w;
     agentLogic := agentLogic w; manualCallId := manualCallId w;
     isCallInProgress := isCallInProgress w; currentCallId := currentCallId w;
     isFetchingResults := isFetchingResults w; isSyncing := isSyncing w;
     callResults := callResults w; timeouts := ts; polls := polls w;
     trace := trace w |}.

Definition setPolls (ps : list PollLoop) (w : World) : World :=
  {| driverInfo := driverInfo w; agentPrompt := agentPrompt w;
     agentLogic := agentLogic w; manualCallId := manualCallId w;
     isCallInProgress := isCallInProgress w; currentCallId := currentCallId w;
     isFetchingResults := isFetchingResults w; isSyncing := isSyncing w;
     callResults := callResults w; timeouts := timeouts w; polls := ps;
     trace := trace w |}.

(** The component as it mounts: the initial [useState] values, a parent that
    has no agent configured yet, no timer. *)
Definition initialWorld : World :=
  {| driverInfo := {| name := EmptyString; phone := EmptyString; loadNumber := EmptyString |};
     agentPrompt := EmptyString; agentLogic := EmptyString;
     manualCallId := EmptyString;
     isCallInProgress := false; currentCallId := None;
     isFetchingResults := false; isSyncing := false;
     callResults := None; timeouts := []; polls := []; trace := [] |}.

(** ** The handlers of the component

    Each handler is run to its end before the next event is handled: the
    requests it awaits are answered in the order it makes them. *)

Definition nl : string := String (ascii_of_nat 10) EmptyString.

Definition maxAttempts : nat := 60.

(** [status === 'completed' || status === 'ended']: strict equality, so a
    status that is not a string is not terminal. *)
Definition isTerminal (status : option JValue) : bool :=
  match status with
  | Some (JStr s) => String.eqb s "completed" || String.eqb s "ended"
  | _ => false
  end.

Inductive Field := NameField | PhoneField | LoadNumberField.

Definition handleInputChange (field : Field) (value : string) (w : World) : World :=
  let prev := driverInfo w in
  match field with
  | PhoneField =>
      let formattedPhone := formatPhoneNumber value in
      setDriverInfo {| name := name prev; phone := formattedPhone;
                       loadNumber := loadNumber prev |} w
  | NameField =>
      setDriverInfo {| name := value; phone := phone prev;
                       loadNumber := loadNumber prev |} w
  | LoadNumberField =>
      setDriverInfo {| name := name prev; phone := phone prev;
                       loadNumber := value |} w
  end.

Section Handlers.

Variable B : Backend.

(** [${status}] in a template literal: what a value that may be [undefined]
    is printed as. *)
Definition templateText (status : option JValue) : string :=
  match status with
  | None => "undefined"
  | Some JNull => "null"
  | Some (JBool true) => "true"
  | Some (JBool false) => "false"
  | Some (JStr s) => s
  | Some v => String_of B v
  end.

(** What the [catch] of [fetchCallResults] shows. *)
Definition degradedResult (callId : string) (timestamp : string) : CallResult :=
  {| callId := callId;
     resultStatus := "completed";
     duration := "Unknown";
     timestamp := Some timestamp;
     keyInformation :=
       <["Error" := JStr "Unable to fetch detailed results"]>
         (<["Call Status" := JStr "Completed"]> ∅);
     transcript := [entry "System" "Transcript not available"];
     rawCallData := None;
     processedTranscript := None;
     access_token := None |}.

(** The object [formattedResults]. *)
Definition formattedResults (d : DriverInfo) (callId : string)
  (callData : CallData) (pt : option ProcessedTranscript) : CallResult :=
  {| callId := callId;
     resultStatus := orDefault (status callData) "completed";
     duration :=
       calculateDuration (Date_parse B) (started_at callData) (ended_at callData);
     timestamp :=
       match ended_at callData with
       | Some e => if JS.truthy e then Some e else started_at callData
       | None => started_at callData
       end;
     keyInformation := extractKeyInformation d (call_analysis callData) pt;
     transcript := formatTranscript (JSON_parse B) (raw_transcript callData);
     rawCallData := Some callData;
     processedTranscript := pt;
     access_token := None |}.

(** [fetchCallResults(callId)], in a render whose [driverInfo] is [d]. *)
Definition fetchCallResults (d : DriverInfo) (callId : string) (w : World) : World :=
  let callReply := getCallDetail B (trace w) callId in
  let w := emit (Requested (GetCallDetail callId)) w in
  match callReply with
  | Rejected _ =>
      setCallResults (Some (degradedResult callId (now B (trace w)))) w
  | Body callData =>
      let pt := getTranscript B (trace w) callId in
      let w := emit (Requested (GetTranscript callId)) w in
      match callData with
      | Some callData =>
          setCallResults (Some (formattedResults d callId callData pt)) w
      | None =>
          setCallResults (Some (degradedResult callId (now B (trace w)))) w
      end
  end.

Definition clearInterval (i : nat) (w : World) : World :=
  match polls w !! i with
  | Some l =>
      setPolls (<[i := {| pollCallId := pollCallId l; period := period l;
                          pollDriverInfo := pollDriverInfo l;
                          attempts := attempts l; cleared := true |}]> (polls w)) w
  | None => w
  end.

Definition setAttempts (i : nat) (n : nat) (w : World) : World :=
  match polls w !! i with
  | Some l =>
      setPolls (<[i := {| pollCallId := pollCallId l; period := period l;
                          pollDriverInfo := pollDriverInfo l;
                          attempts := n; cleared := cleared l |}]> (polls w)) w
  | None => w
  end.

(** One run of the callback given to [setInterval] by the [i]-th call of
    [pollForCallCompletion], from its start to its end with every answer it
    awaits delivered before anything else happens.  When answers take longer
    than the period, runs of the callback overlap; [tick] and [resume] below
    take the callback request by request. *)
Definition pollTick (i : nat) (w : World) : World :=
  match polls w !! i with
  | None => w
  | Some l =>
      let callId := pollCallId l in
      let attempts := S (attempts l) in
      let w := setAttempts i attempts w in
      let statusReply := getStatus B (trace w) callId in
      let w := emit (Requested (GetStatus callId)) w in
      match statusReply with
      | Body status =>
          if isTerminal status then
            let w := clearInterval i w in
            fetchCallResults (pollDriverInfo l) callId w
          else if (maxAttempts <=? attempts)%nat then
            let w := clearInterval i w in
            let w := alert "Call is taking longer than expected. Please check the call status manually." w in
            fetchCallResults (pollDriverInfo l) callId w
          else w
      | Rejected _ =>
          if (maxAttempts <=? attempts)%nat then
            let w := clearInterval i w in
            alert "Unable to get call status. Please try again later." w
          else w
      end
  end.

(** [pollForCallCompletion(callId)]: the interval timer is set, with
    [attempts] at zero. *)
Definition pollForCallCompletion (d : DriverInfo) (callId : string) (w : World) : World :=
  setPolls (polls w ++ [{| pollCallId := callId; period := 5000;
                           pollDriverInfo := d; attempts := 0;
                           cleared := false |}]) w.

(** The callback of the [setTimeout] in [startTestCall]. *)
Definition timeoutFires (i : nat) (w : World) : World :=
  match timeouts w !! i with
  | None => w
  | Some t =>
      let w := setTimeouts (<[i := {| timeoutCallId := timeoutCallId t;
                                      timeoutDelay := timeoutDelay t;
                                      timeoutDriverInfo := timeoutDriverInfo t;
                                      fired := true |}]> (timeouts w)) w in
      pollForCallCompletion (timeoutDriverInfo t) (timeoutCallId t) w
  end.

(** The object [basicResults]. *)
Definition basicResults (d : DriverInfo) (r : StartResult) (timestamp : string) : CallResult :=
  {| callId := call_id r;
     resultStatus := "web_call_ready";
     duration := "N/A";
     timestamp := Some timestamp;
     keyInformation :=
       <["Agent ID" := JStr (agent_id r)]>
         (<["Access Token" := JStr (token r)]>
            (<["Load Number" := JStr (loadNumber d)]>
               (<["Driver Name" := JStr (name d)]>
                  (<["Call Status" := JStr "Ready to Connect"]>
                     (<["Call Type" := JStr "Web Call"]> ∅)))));
     transcript :=
       [entry "System" "Web call created successfully. Use the access token to connect to the call interface."];
     rawCallData := None;
     processedTranscript := None;
     access_token := Some (token r) |}.

Definition startTestCall (w : World) : World :=
  let d := driverInfo w in
  if negb (JS.truthy (name d)) || negb (JS.truthy (phone d))
     || negb (JS.truthy (loadNumber d)) then
    alert "Please fill in all driver information fields" w
  else if negb (JS.truthy (agentPrompt w)) || negb (JS.truthy (agentLogic w)) then
    alert "Please configure the agent first" w
  else
    let w := setIsCallInProgress true w in
    let w := setCallResults None w in
    let w := setCurrentCallId None w in
    let body := {| driver_name := name d; phone_number := phone d;
                   load_number := loadNumber d;
                   agent_prompt := agentPrompt w; agent_logic := agentLogic w |} in
    let reply := startCall B (trace w) body in
    let w := emit (Requested (StartCall body)) w in
    let w :=
      match reply with
      | Body r =>
          if success r then
            let w := setCurrentCallId (Some (call_id r)) w in
            let w :=
              alert ("Web call initiated successfully!" +:+ nl +:+ nl
                     +:+ "Call ID: " +:+ call_id r +:+ nl
                     +:+ "Access Token: " +:+ token r +:+ nl +:+ nl
                     +:+ "You can use this access token to connect to the web call.") w in
            let w := setCallResults (Some (basicResults d r (now B (trace w)))) w in
            setTimeouts (timeouts w ++ [{| timeoutCallId := call_id r;
                                           timeoutDelay := 5000;
                                           timeoutDriverInfo := d;
                                           fired := false |}]) w
          else
            alert ("Call failed: " +:+ orDefault (error r) "Failed to start call") w
      | Rejected reason => alert ("Call failed: " +:+ reason) w
      end in
    setIsCallInProgress false w.

(** [manualCallId.trim() || currentCallId], [None] when it is falsy. *)
Definition callIdToFetch (manual : string) (current : option string) : option string :=
  if JS.truthy (JS.trim manual) then Some (JS.trim manual)
  else
    match current with
    | Some id => if JS.truthy id then Some id else None
    | None => None
    end.

(** [manualFetchResults()], in a render whose state is [manual], [current]
    and [d]. *)
Definition manualFetchResults (manual : string) (current : option string)
  (d : DriverInfo) (w : World) : World :=
  match callIdToFetch manual current with
  | None => alert "Please enter a call ID or start a new call first." w
  | Some id =>
      let w := setIsFetchingResults true w in
      let statusReply := getStatus B (trace w) id in
      let w := emit (Requested (GetStatus id)) w in
      let w :=
        match statusReply with
        | Body status =>
            if isTerminal status then
              let w := fetchCallResults d id w in
              let w := alert "Call results fetched successfully!" w in
              if JS.truthy (JS.trim manual) then setCurrentCallId (Some id) w else w
            else
              alert ("Call is still active (Status: " +:+ templateText status
                     +:+ "). Please wait for the call to complete before fetching results.") w
        | Rejected _ =>
            alert ("Failed to check call status for " +:+ id
                   +:+ ". Please verify the call ID is correct.") w
        end in
      setIsFetchingResults false w
  end.

Definition syncCallFromRetell (w : World) : World :=
  let callIdToSync := JS.trim (manualCallId w) in
  if negb (JS.truthy callIdToSync) then
    alert "Please enter a call ID to sync from Retell AI." w
  else
    let manual := manualCallId w in
    let current := currentCallId w in
    let d := driverInfo w in
    let w := setIsSyncing true w in
    let reply := syncCall B (trace w) callIdToSync in
    let w := emit (Requested (SyncCall callIdToSync)) w in
    let w :=
      match reply with
      | Body r =>
          if sync_ok r && sync_success r then
            let w := alert ("Call " +:+ callIdToSync
                            +:+ " synced successfully from Retell AI to database!") w in
            let w := setCurrentCallId (Some callIdToSync) w in
            manualFetchResults manual current d w
          else
            alert ("Failed to sync call: "
                   +:+ orDefault (detail r) (orDefault (message r) "Unknown error")) w
      | Rejected reason => alert ("Failed to sync call: " +:+ reason) w
      end in
    setIsSyncing false w.

(** *** Sessions

    What can happen to a mounted component: the user types, the parent
    configures the agent, a button is clicked, a timer is due. *)
Inductive Action :=
| TypeIn (field : Field) (value : string)
| TypeManualCallId (value : string)
| Configure (prompt logic : string)
| ClickStartTestCall
| ClickFetchResults
| ClickSync
| TimeoutFires (i : nat)
| IntervalFires (i : nat).

(** A disabled button takes no click; a timer is due only while it is
    pending (a timeout) or not cleared (an interval). *)
Definition enabled (w : World) (a : Action) : bool :=
  match a with
  | TypeIn _ _ | TypeManualCallId _ | Configure _ _ => true
  | ClickStartTestCall => negb (isCallInProgress w)
  | ClickFetchResults => negb (isFetchingResults w)
  | ClickSync => negb (isSyncing w) && JS.truthy (JS.trim (manualCallId w))
  | TimeoutFires i =>
      match timeouts w !! i with
      | Some t => negb (fired t)
      | None => false
      end
  | IntervalFires i =>
      match polls w !! i with
      | Some l => negb (cleared l)
      | None => false
      end
  end.

Definition handle (a : Action) (w : World) : World :=
  match a with
  | TypeIn field value => handleInputChange field value w
  | TypeManualCallId value => setManualCallId value w
  | Configure prompt logic => setAgentConfig prompt logic w
  | ClickStartTestCall => startTestCall w
  | ClickFetchResults =>
      manualFetchResults (manualCallId w) (currentCallId w) (driverInfo w) w
  | ClickSync => syncCallFromRetell w
  | TimeoutFires i => timeoutFires i w
  | IntervalFires i => pollTick i w
  end.

(** A session: the actions are handled one after the other; [None] when one
    of them is not enabled at its turn. *)
Fixpoint run (actions : list Action) (w : World) : option World :=
  match actions with
  | [] => Some w
  | a :: actions' => if enabled w a then run actions' (handle a w) else None
  end.

End Handlers.

(** ** Observing a session *)

(** The state after [k] ticks of the [i]-th poll loop. *)
Definition ticks (B : Backend) (i k : nat) (w : World) : World :=
  Nat.iter k (pollTick B i) w.

(** What has happened between [w0] and a later state [w]. *)
Definition since (w0 w : World) : list Event :=
  drop (length (trace w0)) (trace w).

Fixpoint countEvents (p : Event -> bool) (evs : list Event) : nat :=
  match evs with
  | [] => 0
  | e :: evs' => (if p e then 1 else 0) + countEvents p evs'
  end.

Definition isStatusCheck (e : Event) : bool :=
  match e with
  | Requested (GetStatus _) => true
  | _ => false
  end.

(** [fetchCallResults] opens with the request for the call detail, and makes
    no other: its runs are counted by these requests. *)
Definition isDetailRequest (e : Event) : bool :=
  match e with
  | Requested (GetCallDetail _) => true
  | _ => false
  end.

Definition isTranscriptRequest (e : Event) : bool :=
  match e with
  | Requested (GetTranscript _) => true
  | _ => false
  end.

Definition isTerminalReply (r : Reply (option JValue)) : bool :=
  match r with
  | Body status => isTerminal status
  | Rejected _ => false
  end.

Definition isAnswered {A} (r : Reply A) : bool :=
  match r with
  | Body _ => true
  | Rejected _ => false
  end.

(** Whether the [i]-th poll loop can tick. *)
Definition active (w : World) (i : nat) : bool := enabled w (IntervalFires i).

(** The [i]-th poll loop has been set and its timer cleared. *)
Definition stopped (w : World) (i : nat) : Prop :=
  exists l, polls w !! i = Some l /\ cleared l = true.

(** What [fetchCallResults] adds to the trace: the request for the detail,
    then the request for the transcript if the first was answered. *)
Definition fetchEvents (B : Backend) (w : World) (id : string) : list Event :=
  Requested (GetCallDetail id)
  :: (if isAnswered (getCallDetail B (trace w) id)
      then [Requested (GetTranscript id)] else []).

(** The three ways a tick can go, by the answer to its status check and the
    number of the attempt. *)
Inductive TickOutcome := Continues | StopsAndFetches | StopsWithoutFetch.

Definition outcome (reply : Reply (option JValue)) (attempt : nat) : TickOutcome :=
  match reply with
  | Body status =>
      if isTerminal status || (maxAttempts <=? attempt)%nat
      then StopsAndFetches else Continues
  | Rejected _ =>
      if (maxAttempts <=? attempt)%nat then StopsWithoutFetch else Continues
  end.

(** The call a request is about. *)
Definition requestId (r : Request) : option string :=
  match r with
  | StartCall _ => None
  | GetStatus id | GetCallDetail id | GetTranscript id | SyncCall id => Some id
  end.

(** An event is no request about another call than [id]. *)
Definition concerns (id : string) (e : Event) : Prop :=
  match e with
  | Requested r =>
      match requestId r with
      | Some id' => String.eqb id' id = true
      | None => False
      end
  | Alerted _ => True
  end.

(** The notice of [manualFetchResults] for a call that has not ended. *)
Definition stillActive (B : Backend) (status : option JValue) : string :=
  "Call is still active (Status: " +:+ templateText B status
  +:+ "). Please wait for the call to complete before fetching results.".

(** The current call id after [a] is handled in [w], in words: a start
    attempt that gets as far as the request sets it to the id of the call
    started, and resets it to none when the start fails; a manual fetch with
    a manual id that is not blank sets it to that id, trimmed, when the call
    has ended; so does a sync that succeeds; everything else leaves it as it
    is. *)
Definition currentCallIdAfter (B : Backend) (a : Action) (w : World) : option string :=
  let manual := JS.trim (manualCallId w) in
  match a with
  | ClickStartTestCall =>
      let d := driverInfo w in
      if JS.truthy (name d) && JS.truthy (phone d) && JS.truthy (loadNumber d)
         && JS.truthy (agentPrompt w) && JS.truthy (agentLogic w) then
        match startCall B (trace w)
                {| driver_name := name d; phone_number := phone d;
                   load_number := loadNumber d;
                   agent_prompt := agentPrompt w; agent_logic := agentLogic w |} with
        | Body r => if success r then Some (call_id r) else None
        | Rejected _ => None
        end
      else currentCallId w
  | ClickFetchResults =>
      if JS.truthy manual then
        match getStatus B (trace w) manual with
        | Body status => if isTerminal status then Some manual else currentCallId w
        | Rejected _ => currentCallId w
        end
      else currentCallId w
  | ClickSync =>
      if JS.truthy manual then
        match syncCall B (trace w) manual with
        | Body r => if sync_ok r && sync_success r then Some manual else currentCallId w
        | Rejected _ => currentCallId w
        end
      else currentCallId w
  | _ => currentCallId w
  end.

(** ** The poll loop, request by request

    The callback of the interval timer is an [async] function: it counts the
    attempt and sends the status request at once, and the rest of it runs
    when the answer is there.  Ticks keep firing in between; they share the
    variable [attempts] and the timer of their loop.  [tick] is what a firing
    does at once, [resume] what the callback, or the [fetchCallResults] it has
    called, does when the answer it awaits is delivered.  The answer to a
    request is fixed when the request is sent and kept with the request until
    it is delivered. *)

Inductive Pending :=
| StatusPending (loop : nat) (reply : Reply (option JValue))
| DetailPending (d : DriverInfo) (id : string) (reply : Reply (option CallData))
| TranscriptPending (d : DriverInfo) (id : string) (callData : option CallData)
    (pt : option ProcessedTranscript).

Record AsyncWorld := {
  world : World;
  pending : list Pending
}.

Section Async.

Variable B : Backend.

(** [fetchCallResults] up to its first [await]. *)
Definition fetchStart (d : DriverInfo) (callId : string) (w : World)
  (ps : list Pending) : AsyncWorld :=
  let callReply := getCallDetail B (trace w) callId in
  let w := emit (Requested (GetCallDetail callId)) w in
  {| world := w; pending := ps ++ [DetailPending d callId callReply] |}.

(** The callback of the [i]-th poll loop up to its first [await]. *)
Definition tick (i : nat) (aw : AsyncWorld) : AsyncWorld :=
  let w := world aw in
  match polls w !! i with
  | None => aw
  | Some l =>
      let callId := pollCallId l in
      let w := setAttempts i (S (attempts l)) w in
      let statusReply := getStatus B (trace w) callId in
      let w := emit (Requested (GetStatus callId)) w in
      {| world := w; pending := pending aw ++ [StatusPending i statusReply] |}
  end.

(** What runs when the awaited answer [p] is delivered; [ps] are the other
    answers still awaited.  The callback reads [attempts] as it is then. *)
Definition resume (p : Pending) (w : World) (ps : list Pending) : AsyncWorld :=
  match p with
  | StatusPending i statusReply =>
      match polls w !! i with
      | None => {| world := w; pending := ps |}
      | Some l =>
          let callId := pollCallId l in
          match statusReply with
          | Body status =>
              if isTerminal status then
                let w := clearInterval i w in
                fetchStart (pollDriverInfo l) callId w ps
              else if (maxAttempts <=? attempts l)%nat then
                let w := clearInterval i w in
                let w := alert "Call is taking longer than expected. Please check the call status manually." w in
                fetchStart (pollDriverInfo l) callId w ps
              else {| world := w; pending := ps |}
          | Rejected _ =>
              if (maxAttempts <=? attempts l)%nat then
                let w := clearInterval i w in
                {| world := alert "Unable to get call status. Please try again later." w;
                   pending := ps |}
              else {| world := w; pending := ps |}
          end
      end
  | DetailPending d callId callReply =>
      match callReply with
      | Rejected _ =>
          {| world := setCallResults (Some (degradedResult callId (now B (trace w)))) w;
             pending := ps |}
      | Body callData =>
          let pt := getTranscript B (trace w) callId in
          let w := emit (Requested (GetTranscript callId)) w in
          {| world := w; pending := ps ++ [TranscriptPending d callId callData pt] |}
      end
  | TranscriptPending d callId callData pt =>
      match callData with
      | Some callData =>
          {| world := setCallResults (Some (formattedResults B d callId callData pt)) w;
             pending := ps |}
      | None =>
          {| world := setCallResults (Some (degradedResult callId (now B (trace w)))) w;
             pending := ps |}
      end
  end.

(** The [k]-th of the awaited answers is delivered. *)
Definition deliver (k : nat) (aw : AsyncWorld) : AsyncWorld :=
  match pending aw !! k with
  | Some p => resume p (world aw) (delete k (pending aw))
  | None => aw
  end.

(** What can happen, request by request: a poll loop fires, an awaited answer
    is delivered, or anything else happens that a session is made of. *)
Inductive AsyncAction :=
| Tick (i : nat)
| Deliver (k : nat)
| Other (a : Action).

Definition asyncEnabled (aw : AsyncWorld) (a : AsyncAction) : bool :=
  match a with
  | Tick i => enabled (world aw) (IntervalFires i)
  | Deliver k =>
      match pending aw !! k with
      | Some _ => true
      | None => false
      end
  | Other (IntervalFires _) => false
  | Other a => enabled (world aw) a
  end.

Definition asyncHandle (a : AsyncAction) (aw : AsyncWorld) : AsyncWorld :=
  match a with
  | Tick i => tick i aw
  | Deliver k => deliver k aw
  | Other a => {| world := handle B a (world aw); pending := pending aw |}
  end.

Fixpoint asyncRun (actions : list AsyncAction) (aw : AsyncWorld) : option AsyncWorld :=
  match actions with
  | [] => Some aw
  | a :: actions' =>
      if asyncEnabled aw a then asyncRun actions' (asyncHandle a aw) else None
  end.

(** The oldest awaited answer is delivered, then the next, until none is
    awaited or [fuel] of them have been delivered. *)
Fixpoint settle (fuel : nat) (aw : AsyncWorld) : AsyncWorld :=
  match fuel with
  | O => aw
  | S fuel' =>
      match pending aw with
      | [] => aw
      | _ :: _ => settle fuel' (deliver 0 aw)
      end
  end.

(** A tick whose answers all arrive before anything else happens: the status,
    then the call detail and the transcript if they are asked for. *)
Definition settledTick (i : nat) (aw : AsyncWorld) : AsyncWorld :=
  settle 3 (tick i aw).

Definition settledTicks (i k : nat) (aw : AsyncWorld) : AsyncWorld :=
  Nat.iter k (settledTick i) aw.

End Async.

(** How many status checks of the [i]-th poll loop are not answered yet. *)
Fixpoint outstanding (i : nat) (ps : list Pending) : nat :=
  match ps with
  | [] => 0
  | StatusPending j _ :: ps' => (if (i =? j)%nat then 1 else 0) + outstanding i ps'
  | _ :: ps' => outstanding i ps'
  end.

(** Every poll loop has the period of 5 seconds, and one that is not cleared
    has made fewer attempts than [maxAttempts] and its unanswered status
    checks together. *)
Definition asyncBounded (aw : AsyncWorld) : Prop :=
  forall i l,
    polls (world aw) !! i = Some l ->
    period l = 5000%Z
    /\ (cleared l = false -> attempts l < maxAttempts + outstanding i (pending aw)).

(** The phone number the form holds after [actions], from [p]: what was
    typed last in the phone field, normalised, and [p] if nothing was typed
    there. *)
Fixpoint typedPhone (actions : list AsyncAction) (p : string) : string :=
  match actions with
  | [] => p
  | Other (TypeIn PhoneField value) :: actions' =>
      typedPhone actions' (formatPhoneNumber value)
  | _ :: actions' => typedPhone actions' p
  end.

(** A world in which no answer is awaited. *)
Definition settled (w : World) : AsyncWorld := {| world := w; pending := [] |}.

(** ** Sample sessions

    Concrete inputs and backends on which the statements below are run. *)

Module Sample.

(** [s] between double quotes. *)
Definition quoted (s : string) : string :=
  String JSON.quote (s +:+ String JSON.quote EmptyString).

(** The text [[{"speaker":"Agent","message":"hi"}]]. *)
Definition agentHi : string :=
  "[{" +:+ quoted "speaker" +:+ ":" +:+ quoted "Agent" +:+ ","
  +:+ quoted "message" +:+ ":" +:+ quoted "hi" +:+ "}]".

Definition ali : DriverInfo :=
  {| name := "Ali"; phone := "+923001234567"; loadNumber := "L-42" |}.

Definition negativeTranscript : ProcessedTranscript :=
  {| summary := Some "Driver is late"; sentiment := Some "negative";
     key_points := Some ["late"; "traffic"] |}.

Definition positiveAnalysis : list (string * JValue) :=
  [("sentiment", JStr "positive"); ("call_successful", JBool true)].

(** A call record without analysis and without transcript. *)
Definition plainCall : CallData :=
  {| status := Some "completed"; started_at := None; ended_at := None;
     call_analysis := None; raw_transcript := None |}.

Fixpoint startsSoFar (history : list Event) : nat :=
  match history with
  | Requested (StartCall _) :: history' => S (startsSoFar history')
  | _ :: history' => startsSoFar history'
  | [] => 0
  end.

Fixpoint checksSoFar (history : list Event) : nat :=
  match history with
  | Requested (GetStatus _) :: history' => S (checksSoFar history')
  | _ :: history' => checksSoFar history'
  | [] => 0
  end.

(** A backend that starts [call_1], then [call_2] for every later start,
    and answers the other requests as [statusOf] and [detailOf] say. *)
Definition backend
  (statusOf : list Event -> string -> Reply (option JValue))
  (detailOf : list Event -> string -> Reply (option CallData)) : Backend :=
  {| JSON_parse := JSON.parse;
     Date_parse := fun _ => None;
     String_of := fun _ => "[object Object]";
     now := fun _ => "2024-01-01T10:00:00.000Z";
     startCall := fun history _ =>
       Body {| success := true;
               call_id := if (startsSoFar history =? 0)%nat then "call_1" else "call_2";
               token := "tok"; agent_id := "agent_1"; error := None |};
     getStatus := statusOf;
     getCallDetail := detailOf;
     getTranscript := fun _ _ => None;
     syncCall := fun _ _ => Rejected "Failed to fetch" |}.

Definition detailFound : list Event -> string -> Reply (option CallData) :=
  fun _ _ => Body (Some plainCall).

Definition detailFails : list Event -> string -> Reply (option CallData) :=
  fun _ _ => Rejected "Failed to fetch".

(** [active] for the first 59 status checks, [completed] from the 60th. *)
Definition completesOnTick60 : list Event -> string -> Reply (option JValue) :=
  fun history _ =>
    if (checksSoFar history <? 59)%nat then Body (Some (JStr "active"))
    else Body (Some (JStr "completed")).

Definition neverTerminal : list Event -> string -> Reply (option JValue) :=
  fun _ _ => Body (Some (JStr "active")).

(** [active] for the first 59 status checks; the 60th check fails. *)
Definition lastCheckFails : list Event -> string -> Reply (option JValue) :=
  fun history _ =>
    if (checksSoFar history <? 59)%nat then Body (Some (JStr "active"))
    else Rejected "Failed to fetch".

Definition alwaysCompleted : list Event -> string -> Reply (option JValue) :=
  fun _ _ => Body (Some (JStr "completed")).

(** The form filled in and the agent configured. *)
Definition ready : World :=
  setAgentConfig "You are a dispatcher." "Ask for the driver's status."
    (setDriverInfo ali initialWorld).

End Sample.

(** ** What the panel renders

    The manual-lookup panel announces the call it will fetch.  These are the
    conditions of its JSX, on the state of the component. *)

(** Truthiness of [currentCallId]: [null] and the empty string are falsy. *)
Definition currentTruthy (current : option string) : bool :=
  match current with
  | Some id => JS.truthy id
  | None => false
  end.

(** The id after [Will fetch:], when the line is rendered:
    [(manualCallId.trim() || currentCallId) && ...]. *)
Definition willFetch (w : World) : option string :=
  let manual := JS.trim (manualCallId w) in
  if JS.truthy manual then Some manual
  else
    match currentCallId w with
    | Some id => if JS.truthy id then Some id else None
    | None => None
    end.

(** The suffix of that line: [(manual override)] or [(current call)]. *)
Inductive CallSource := ManualOverride | CurrentCall.

Definition callSource (w : World) : option CallSource :=
  let manual := JS.trim (manualCallId w) in
  match currentCallId w with
  | Some current =>
      if JS.truthy manual && JS.truthy current && negb (String.eqb manual current)
      then Some ManualOverride
      else if negb (JS.truthy manual) && JS.truthy current then Some CurrentCall
      else None
  | None => None
  end.

(** [!manualCallId.trim() && !currentCallId]: the hint to enter a call id. *)
Definition showsNoCallIdHint (w : World) : bool :=
  negb (JS.truthy (JS.trim (manualCallId w)))
  && negb (currentTruthy (currentCallId w)).

(** ** Shapes of values *)

(** A phone number as the form stores it: nothing, or a plus sign and at
    least one digit after it, digits only. *)
Definition canonicalPhone (p : string) : Prop :=
  p = EmptyString
  \/ exists digits,
       p = "+" +:+ digits /\ digits <> EmptyString
       /\ Forall (fun c => JS.isDigit c = true) (list_ascii_of_string digits).

(** [s] with its ASCII letters in upper case. *)
Fixpoint upperCase (s : string) : string :=
  match s with
  | EmptyString => EmptyString
  | String c s' => String (JS.toUpperCase c) (upperCase s')
  end.

(** An entry that the free-form reading of a transcript makes: a message that
    is not empty, said by [System] or by one of the five speakers, written in
    any case. *)
Definition spokenEntry (v : JValue) : Prop :=
  exists speaker message,
    v = entry speaker message
    /\ message <> EmptyString
    /\ (speaker = "System"
        \/ exists label, In label speakerLabels /\ upperCase speaker = upperCase label).

Definition noUnderscore (s : string) : Prop :=
  ~ In "_"%char (list_ascii_of_string s).

(** ** Invariants of a session *)

(** Every poll loop has the period of 5 seconds and has made at most
    [maxAttempts] attempts; one that has made them all is cleared. *)
Definition pollsBounded (w : World) : Prop :=
  Forall (fun l => period l = 5000%Z
                   /\ (cleared l = false -> attempts l < maxAttempts)
                   /\ attempts l <= maxAttempts) (polls w).

(** How many of the timeouts have fired. *)
Definition firedCount (ts : list Timeout) : nat :=
  length (List.filter fired ts).

(** No handler is in progress: the three buttons are enabled as far as the
    busy flags go. *)
Definition idle (w : World) : Prop :=
  isCallInProgress w = false /\ isFetchingResults w = false /\ isSyncing w = false.

(** What the user has typed and the parent has configured. *)
Definition sameForm (w w' : World) : Prop :=
  driverInfo w' = driverInfo w /\ agentPrompt w' = agentPrompt w
  /\ agentLogic w' = agentLogic w /\ manualCallId w' = manualCallId w.

(** * Properties *)

(** ** Phone normalisation *)

Section PhoneFacts.

Lemma removeNonDigits_list (s : string) :
  list_ascii_of_string (JS.removeNonDigits s) = PhoneSpec.digits_of s.
Proof.
  unfold PhoneSpec.digits_of.
  induction s as [|c s IH]; simpl; [reflexivity|].
  rewrite filter_cons. destruct (JS.isDigit c) eqn:E.
  - rewrite decide_True by exact I. simpl. now rewrite IH.
  - rewrite decide_False by exact id. exact IH.
Qed.

Lemma prefix_list (p s : string) :
  JS.startsWith p s = PhoneSpec.starts_with p (list_ascii_of_string s).
Proof.
  unfold PhoneSpec.starts_with.
  revert s; induction p as [|a p IH]; intros s; simpl.
  - reflexivity.
  - destruct s as [|b s]; simpl.
    + reflexivity.
    + rewrite IH. destruct (Ascii.eqb_spec a b) as [->|Hne]; simpl.
      * apply bool_decide_ext. split; congruence.
      * symmetry. apply bool_decide_eq_false. congruence.
Qed.

Lemma length_list (s : string) :
  String.length s = length (list_ascii_of_string s).
Proof. induction s; simpl; congruence. Qed.

Lemma append_list (p s : string) :
  string_of_list_ascii (list_ascii_of_string p ++ list_ascii_of_string s) = p +:+ s.
Proof.
  induction p as [|a p IH]; simpl.
  - apply string_of_list_ascii_of_string.
  - now rewrite IH.
Qed.

Lemma substring1_list (s : string) :
  list_ascii_of_string (JS.substring 1 s) = drop 1 (list_ascii_of_string s).
Proof. destruct s; reflexivity. Qed.

Lemma truthy_list (s : string) :
  JS.truthy s = bool_decide (list_ascii_of_string s <> []).
Proof. destruct s; reflexivity. Qed.

Lemma eqb_length (n m : nat) : (n =? m)%nat = bool_decide (n = m).
Proof.
  destruct (Nat.eqb_spec n m) as [->|Hne].
  - symmetry. now apply bool_decide_eq_true.
  - symmetry. now apply bool_decide_eq_false.
Qed.

Lemma formatPhoneNumber_refines (raw : string) :
  formatPhoneNumber raw = PhoneSpec.normalize raw.
Proof.
  unfold formatPhoneNumber, PhoneSpec.normalize, PhoneSpec.rule_of, PhoneSpec.prefixed.
  rewrite <- removeNonDigits_list.
  set (d := JS.removeNonDigits raw).
  rewrite !prefix_list, !eqb_length, <- !length_list, truthy_list.
  destruct (PhoneSpec.starts_with "92" _); [now rewrite append_list|].
  destruct (PhoneSpec.starts_with "03" _ && _).
  { now rewrite <- substring1_list, append_list. }
  destruct (_ && PhoneSpec.starts_with "3" _); [now rewrite append_list|].
  destruct (bool_decide _); [now rewrite append_list|reflexivity].
Qed.

(** Once the non-digits are gone, there is none left to remove. *)
Lemma removeNonDigits_idem (s : string) :
  JS.removeNonDigits (JS.removeNonDigits s) = JS.removeNonDigits s.
Proof.
  induction s as [|c s IH]; simpl; [reflexivity|].
  destruct (JS.isDigit c) eqn:E; simpl; [rewrite E, IH|]; auto.
Qed.

Lemma removeNonDigits_tail (s : string) :
  JS.removeNonDigits (JS.substring 1 (JS.removeNonDigits s))
  = JS.substring 1 (JS.removeNonDigits s).
Proof.
  induction s as [|c s IH]; simpl; [reflexivity|].
  destruct (JS.isDigit c); simpl; [apply removeNonDigits_idem | exact IH].
Qed.

Lemma removeNonDigits_plus (d : string) :
  JS.removeNonDigits ("+" +:+ d) = JS.removeNonDigits d.
Proof. reflexivity. Qed.

Lemma removeNonDigits_plus92 (d : string) :
  JS.removeNonDigits ("+92" +:+ d) = "92" +:+ JS.removeNonDigits d.
Proof. reflexivity. Qed.

Lemma formatPhoneNumber_idem (s : string) :
  formatPhoneNumber (formatPhoneNumber s) = formatPhoneNumber s.
Proof.
  remember (formatPhoneNumber s) as out eqn:Hout.
  unfold formatPhoneNumber in Hout. cbv zeta in Hout.
  set (d := JS.removeNonDigits s) in Hout.
  assert (Hd : JS.removeNonDigits d = d) by apply removeNonDigits_idem.
  assert (Ht : JS.removeNonDigits (JS.substring 1 d) = JS.substring 1 d)
    by apply removeNonDigits_tail.
  unfold formatPhoneNumber. cbv zeta.
  destruct (JS.startsWith "92" d) eqn:E1.
  { subst out. now rewrite removeNonDigits_plus, Hd, E1. }
  destruct (JS.startsWith "03" d && (String.length d =? 11)%nat) eqn:E2.
  { subst out. rewrite removeNonDigits_plus92, Ht. reflexivity. }
  destruct ((String.length d =? 10)%nat && JS.startsWith "3" d) eqn:E3.
  { subst out. rewrite removeNonDigits_plus92, Hd. reflexivity. }
  destruct (JS.truthy d) eqn:E4; subst out.
  - now rewrite removeNonDigits_plus, Hd, E1, E2, E3, E4.
  - reflexivity.
Qed.

End PhoneFacts.

(** ** Transcript formatting *)

Section TranscriptFacts.

Variable parse : string -> option JValue.

Lemma formatPlainText_nonempty (raw : string) : formatPlainText raw <> [].
Proof.
  unfold formatPlainText.
  destruct (flat_map formatLine (JS.splitLines raw)) as [|e es]; simpl;
    discriminate.
Qed.

Lemma bracket_truthy (raw : string) :
  JS.startsWith "[" raw || JS.startsWith "{" raw = true -> JS.truthy raw = true.
Proof. destruct raw; [discriminate | reflexivity]. Qed.

Lemma formatTranscript_array (raw : string) (items : list JValue) :
  JS.startsWith "[" raw || JS.startsWith "{" raw = true ->
  parse raw = Some (JArr items) ->
  formatTranscript parse (Some raw) = items.
Proof.
  intros Hb Hp. unfold formatTranscript, formatTranscript_try.
  now rewrite (bracket_truthy _ Hb), Hb, Hp.
Qed.

Lemma formatTranscript_throw (raw : string) :
  JS.startsWith "[" raw || JS.startsWith "{" raw = true ->
  parse raw = None ->
  formatTranscript_try parse raw = Throw
  /\ formatTranscript parse (Some raw) = [entry "System" raw].
Proof.
  intros Hb Hp. unfold formatTranscript, formatTranscript_try.
  rewrite (bracket_truthy _ Hb), Hb, Hp. split; [reflexivity|].
  simpl. unfold orDefault. now rewrite (bracket_truthy _ Hb).
Qed.

Lemma formatTranscript_empty_iff (raw : string) :
  raw <> EmptyString ->
  formatTranscript parse (Some raw) = []
  <-> JS.startsWith "[" raw || JS.startsWith "{" raw = true
      /\ parse raw = Some (JArr []).
Proof.
  intros Hne.
  assert (Ht : JS.truthy raw = true) by (destruct raw; [congruence | reflexivity]).
  unfold formatTranscript, formatTranscript_try. rewrite Ht. cbn [negb].
  pose proof (formatPlainText_nonempty raw) as Hplain.
  destruct (JS.startsWith "[" raw || JS.startsWith "{" raw).
  - destruct (parse raw) as [v|].
    + destruct v; try (split; [congruence | intros [_ ?]; discriminate]).
      split; [intros ->; auto | intros [_ ?]; congruence].
    + split; [discriminate | intros [_ ?]; discriminate].
  - split; [congruence | intros [? _]; discriminate].
Qed.

End TranscriptFacts.

(** ** Key information *)

Section KeyInformationFacts.

Implicit Types (m : gmap string JValue) (d : DriverInfo).

Lemma size_insert_pos m (k : string) (v : JValue) :
  (0 <? size (<[k := v]> m))%nat = true.
Proof.
  apply Nat.ltb_lt.
  destruct (size (<[k := v]> m)) eqn:E; [|lia].
  apply map_size_empty_iff in E. now apply insert_non_empty in E.
Qed.

(** The fallback map of [extractKeyInformation] is never chosen: the three
    driver entries have just been written. *)
Lemma extractKeyInformation_unfold d callAnalysis pt :
  extractKeyInformation d callAnalysis pt
  = <["Phone Number" := JStr (phone d)]>
      (<["Load Number" := JStr (loadNumber d)]>
         (<["Driver Name" := JStr (name d)]>
            (fromCallAnalysis callAnalysis (fromProcessedTranscript pt ∅)))).
Proof. unfold extractKeyInformation. cbv zeta. now rewrite size_insert_pos. Qed.

Lemma extractKeyInformation_driver d callAnalysis pt :
  extractKeyInformation d callAnalysis pt !! "Driver Name" = Some (JStr (name d))
  /\ extractKeyInformation d callAnalysis pt !! "Load Number" = Some (JStr (loadNumber d))
  /\ extractKeyInformation d callAnalysis pt !! "Phone Number" = Some (JStr (phone d)).
Proof.
  rewrite extractKeyInformation_unfold. repeat split.
  - rewrite !lookup_insert_ne by discriminate. apply lookup_insert_eq.
  - rewrite lookup_insert_ne by discriminate. apply lookup_insert_eq.
  - apply lookup_insert_eq.
Qed.

Lemma extractKeyInformation_other d callAnalysis pt (K : string) :
  K <> "Driver Name" -> K <> "Load Number" -> K <> "Phone Number" ->
  extractKeyInformation d callAnalysis pt !! K
  = fromCallAnalysis callAnalysis (fromProcessedTranscript pt ∅) !! K.
Proof.
  intros H1 H2 H3. rewrite extractKeyInformation_unfold.
  now rewrite !lookup_insert_ne by congruence.
Qed.

(** A key that no later field writes keeps its value through the rest of
    the [forEach]. *)
Lemma copyField_keeps callAnalysis (K : string) (v : JValue) (keys : list string) m :
  m !! K = Some v ->
  Forall (fun key => forall v', getProperty key callAnalysis = Some v' ->
                                isStringOrNumber v' = true ->
                                transformKey key <> K) keys ->
  fold_left (copyField callAnalysis) keys m !! K = Some v.
Proof.
  intros Hm Hkeys. revert m Hm.
  induction Hkeys as [|key keys Hkey _ IH]; intros m Hm; simpl; [exact Hm|].
  apply IH. unfold copyField.
  destruct (getProperty key callAnalysis) as [v'|] eqn:E; [|exact Hm].
  destruct (isStringOrNumber v') eqn:E'; [|exact Hm].
  rewrite lookup_insert_ne; [exact Hm | now apply Hkey with v'].
Qed.

Lemma copyField_last callAnalysis (K key : string) (v : JValue)
  (before after : list string) m :
  getProperty key callAnalysis = Some v ->
  isStringOrNumber v = true ->
  transformKey key = K ->
  Forall (fun key' => forall v', getProperty key' callAnalysis = Some v' ->
                                 isStringOrNumber v' = true ->
                                 transformKey key' <> K) after ->
  fold_left (copyField callAnalysis) (before ++ key :: after) m !! K = Some v.
Proof.
  intros Hv Hp HK Hafter. rewrite fold_left_app. simpl.
  apply copyField_keeps; [|exact Hafter].
  unfold copyField. rewrite Hv, Hp, HK. apply lookup_insert_eq.
Qed.

(** Where an entry comes from after the [forEach]: it was there before, or
    a field of the analysis that holds a string or a number wrote it. *)
Lemma copyField_origin callAnalysis (K : string) (v : JValue) (keys : list string) m :
  fold_left (copyField callAnalysis) keys m !! K = Some v ->
  m !! K = Some v
  \/ exists key, In key keys /\ getProperty key callAnalysis = Some v
                 /\ isStringOrNumber v = true /\ transformKey key = K.
Proof.
  revert m. induction keys as [|key keys IH]; intros m H; simpl in H; [now left|].
  destruct (IH _ H) as [Hm|(key' & Hin & Hrest)];
    [|right; exists key'; split; [now right | exact Hrest]].
  unfold copyField in Hm.
  destruct (getProperty key callAnalysis) as [v'|] eqn:E; [|now left].
  destruct (isStringOrNumber v') eqn:E'; [|now left].
  destruct (decide (transformKey key = K)) as [HK|HK].
  - rewrite <- HK, lookup_insert_eq in Hm. inversion Hm; subst v'.
    right. exists key. repeat split; [now left | assumption..].
  - rewrite lookup_insert_ne in Hm by exact HK. now left.
Qed.

(** The [forEach] removes no entry. *)
Lemma copyField_stays callAnalysis (K : string) (keys : list string) m :
  is_Some (m !! K) -> is_Some (fold_left (copyField callAnalysis) keys m !! K).
Proof.
  revert m. induction keys as [|key keys IH]; intros m Hm; simpl; [exact Hm|].
  apply IH. unfold copyField.
  destruct (getProperty key callAnalysis) as [v'|]; [|exact Hm].
  destruct (isStringOrNumber v'); [|exact Hm].
  destruct (decide (transformKey key = K)) as [<-|HK].
  - rewrite lookup_insert_eq. now eexists.
  - now rewrite lookup_insert_ne.
Qed.

Lemma copyField_written callAnalysis (K key : string) (v : JValue)
  (keys : list string) m :
  In key keys -> getProperty key callAnalysis = Some v ->
  isStringOrNumber v = true -> transformKey key = K ->
  is_Some (fold_left (copyField callAnalysis) keys m !! K).
Proof.
  intros Hin Hv Hp HK. revert m.
  induction keys as [|key' keys IH]; intros m; [destruct Hin|].
  destruct Hin as [->|Hin]; simpl; [|now apply IH].
  apply copyField_stays. unfold copyField. rewrite Hv, Hp, HK, lookup_insert_eq.
  now eexists.
Qed.

Lemma fromProcessedTranscript_other pt (K : string) :
  K <> "Call Summary" -> K <> "Sentiment" -> K <> "Key Points" ->
  fromProcessedTranscript pt ∅ !! K = None.
Proof.
  intros H1 H2 H3. destruct pt as [pt|]; simpl; [|reflexivity].
  now rewrite !lookup_insert_ne by congruence.
Qed.

End KeyInformationFacts.

(** ** The poll loop *)

Section PollFacts.

Variable B : Backend.

Lemma countEvents_app (p : Event -> bool) (xs ys : list Event) :
  countEvents p (xs ++ ys) = countEvents p xs + countEvents p ys.
Proof. induction xs as [|x xs IH]; simpl; [reflexivity | rewrite IH; lia]. Qed.

Lemma since_app (w0 w : World) (evs : list Event) :
  trace w = trace w0 ++ evs -> since w0 w = evs.
Proof. intros H. unfold since. rewrite H. apply drop_app_length. Qed.

Lemma fetchCallResults_trace d id w :
  trace (fetchCallResults B d id w) = trace w ++ fetchEvents B w id.
Proof.
  unfold fetchCallResults, fetchEvents.
  destruct (getCallDetail B (trace w) id) as [[cd|]|]; simpl;
    rewrite <- ?app_assoc; reflexivity.
Qed.

Lemma fetchCallResults_timers d id w :
  polls (fetchCallResults B d id w) = polls w
  /\ timeouts (fetchCallResults B d id w) = timeouts w.
Proof.
  unfold fetchCallResults.
  destruct (getCallDetail B (trace w) id) as [[cd|]|]; simpl; auto.
Qed.

Lemma fetchEvents_count w id :
  countEvents isDetailRequest (fetchEvents B w id) = 1
  /\ countEvents isStatusCheck (fetchEvents B w id) = 0.
Proof.
  unfold fetchEvents. destruct (isAnswered _); simpl; auto.
Qed.

Lemma pollTick_spec (i : nat) (w : World) (l : PollLoop) :
  polls w !! i = Some l ->
  let id := pollCallId l in
  let reply := getStatus B (trace w) id in
  let w' := pollTick B i w in
  exists evs,
    trace w' = trace w ++ Requested (GetStatus id) :: evs
    /\ countEvents isStatusCheck evs = 0
    /\ match outcome reply (S (attempts l)) with
       | Continues =>
           countEvents isDetailRequest evs = 0
           /\ polls w' !! i = Some {| pollCallId := id; period := period l;
                                      pollDriverInfo := pollDriverInfo l;
                                      attempts := S (attempts l);
                                      cleared := cleared l |}
       | StopsAndFetches =>
           countEvents isDetailRequest evs = 1
           /\ stopped w' i
       | StopsWithoutFetch =>
           countEvents isDetailRequest evs = 0
           /\ stopped w' i
       end.
Proof.
  intros Hl id reply w'.
  assert (Hlt : i < length (polls w)) by (eapply lookup_lt_Some; eauto).
  subst w'. unfold pollTick. rewrite Hl. fold id.
  assert (Ht : trace (setAttempts i (S (attempts l)) w) = trace w).
  { unfold setAttempts. now rewrite Hl. }
  rewrite Ht. fold reply.
  set (w1 := emit _ (setAttempts i (S (attempts l)) w)).
  assert (Hp1 : polls w1 !! i = Some {| pollCallId := id; period := period l;
                                        pollDriverInfo := pollDriverInfo l;
                                        attempts := S (attempts l);
                                        cleared := cleared l |}).
  { subst w1. unfold setAttempts. rewrite Hl. simpl.
    now apply list_lookup_insert_eq. }
  assert (Ht1 : trace w1 = trace w ++ [Requested (GetStatus id)]).
  { subst w1. simpl. now rewrite Ht. }
  assert (Hc : forall w2, polls w2 = polls (clearInterval i w1) -> stopped w2 i).
  { intros w2 E. unfold stopped. rewrite E. unfold clearInterval.
    rewrite Hp1. simpl. rewrite list_lookup_insert_eq; [eauto|].
    eapply lookup_lt_Some; eauto. }
  assert (Htc : trace (clearInterval i w1) = trace w1).
  { unfold clearInterval. now rewrite Hp1. }
  unfold outcome. destruct reply as [st|reason].
  - destruct (isTerminal st); cbn [orb].
    + exists (fetchEvents B (clearInterval i w1) id).
      split; [|split; [|split]].
      * now rewrite fetchCallResults_trace, Htc, Ht1, <- app_assoc.
      * apply fetchEvents_count.
      * apply fetchEvents_count.
      * apply Hc. apply fetchCallResults_timers.
    + destruct (maxAttempts <=? S (attempts l))%nat.
      * set (msg := "Call is taking longer than expected. Please check the call status manually.").
        set (w2 := alert msg (clearInterval i w1)).
        exists (Alerted msg :: fetchEvents B w2 id).
        split; [|split; [|split]].
        -- rewrite fetchCallResults_trace. subst w2. unfold alert at 1.
           cbn [emit trace]. now rewrite Htc, Ht1, <- !app_assoc.
        -- change (countEvents isStatusCheck (fetchEvents B w2 id) = 0).
           apply fetchEvents_count.
        -- change (countEvents isDetailRequest (fetchEvents B w2 id) = 1).
           apply fetchEvents_count.
        -- apply Hc. transitivity (polls w2); [apply fetchCallResults_timers|].
           reflexivity.
      * exists []. rewrite Ht1. repeat split; assumption.
  - destruct (maxAttempts <=? S (attempts l))%nat.
    + exists [Alerted "Unable to get call status. Please try again later."].
      split; [|split; [|split]]; try reflexivity.
      * unfold alert. cbn [emit trace]. now rewrite Htc, Ht1, <- app_assoc.
      * now apply Hc.
    + exists []. rewrite Ht1. repeat split; assumption.
Qed.

Lemma ticks_succ (i k : nat) (w : World) :
  ticks B i (S k) w = ticks B i k (pollTick B i w).
Proof. unfold ticks. apply Nat.iter_succ_r. Qed.

Lemma outcome_inv (reply : Reply (option JValue)) (attempt : nat) :
  match outcome reply attempt with
  | Continues => isTerminalReply reply = false /\ attempt < maxAttempts
  | StopsAndFetches =>
      isAnswered reply = true
      /\ (isTerminalReply reply = true \/ maxAttempts <= attempt)
  | StopsWithoutFetch => isAnswered reply = false /\ maxAttempts <= attempt
  end.
Proof.
  unfold outcome, isTerminalReply, isAnswered. destruct reply as [st|reason].
  - destruct (isTerminal st); cbn [orb]; [auto|].
    destruct (Nat.leb_spec maxAttempts attempt); auto.
  - destruct (Nat.leb_spec maxAttempts attempt); auto.
Qed.

(** A loop that has [m] attempts left stops within [m] ticks. *)
Lemma poll_loop_from (i : nat) (m : nat) :
  forall (w : World) (l : PollLoop),
    polls w !! i = Some l -> cleared l = false ->
    attempts l + m = maxAttempts -> 1 <= m ->
    exists n evs,
      1 <= n <= m
      /\ (forall k, k < n -> active (ticks B i k w) i = true)
      /\ (forall k, k < n - 1 ->
            isTerminalReply (getStatus B (trace (ticks B i k w)) (pollCallId l)) = false)
      /\ stopped (ticks B i n w) i
      /\ trace (ticks B i n w) = trace w ++ evs
      /\ countEvents isStatusCheck evs = n
      /\ (isTerminalReply (getStatus B (trace (ticks B i (n - 1) w)) (pollCallId l)) = true
          \/ attempts l + n = maxAttempts)
      /\ countEvents isDetailRequest evs
         = if isAnswered (getStatus B (trace (ticks B i (n - 1) w)) (pollCallId l))
           then 1 else 0.
Proof.
  induction m as [|m IH]; intros w l Hl Hc Hm Hpos; [lia|].
  assert (Hact : active w i = true).
  { unfold active, enabled. now rewrite Hl, Hc. }
  destruct (pollTick_spec i w l Hl) as (evs0 & Htr & Hs0 & Hout).
  pose proof (outcome_inv (getStatus B (trace w) (pollCallId l)) (S (attempts l))) as Hinv.
  assert (Hstop : forall answered : bool,
            stopped (pollTick B i w) i ->
            countEvents isDetailRequest evs0 = (if answered then 1 else 0) ->
            isAnswered (getStatus B (trace w) (pollCallId l)) = answered ->
            isTerminalReply (getStatus B (trace w) (pollCallId l)) = true
            \/ maxAttempts <= S (attempts l) ->
            exists n evs,
              1 <= n <= S m
              /\ (forall k, k < n -> active (ticks B i k w) i = true)
              /\ (forall k, k < n - 1 ->
                    isTerminalReply (getStatus B (trace (ticks B i k w)) (pollCallId l)) = false)
              /\ stopped (ticks B i n w) i
              /\ trace (ticks B i n w) = trace w ++ evs
              /\ countEvents isStatusCheck evs = n
              /\ (isTerminalReply (getStatus B (trace (ticks B i (n - 1) w)) (pollCallId l)) = true
                  \/ attempts l + n = maxAttempts)
              /\ countEvents isDetailRequest evs
                 = if isAnswered (getStatus B (trace (ticks B i (n - 1) w)) (pollCallId l))
                   then 1 else 0).
  { intros answered Hoff Hd Hans Hend.
    exists 1, (Requested (GetStatus (pollCallId l)) :: evs0).
    repeat split; try lia; try assumption.
    - intros k Hk. replace k with 0 by lia. exact Hact.
    - simpl. now rewrite Hs0.
    - simpl. destruct Hend as [Hend|Hend]; [now left | right; lia].
    - simpl. now rewrite Hans. }
  destruct (outcome _ _).
  - destruct Hout as [Hd Hl1]. destruct Hinv as [Hnt Hmax].
    destruct (IH (pollTick B i w) _ Hl1 Hc)
      as (n & evs & Hn & Hon & Hnon & Hoff & Htr' & Hs & Hend & Hdet);
      [simpl; lia | lia |].
    simpl pollCallId in *. simpl attempts in *.
    exists (S n), (Requested (GetStatus (pollCallId l)) :: evs0 ++ evs).
    replace (S n - 1) with n by lia.
    assert (Hshift : forall k, ticks B i k (pollTick B i w) = ticks B i (S k) w)
      by (intros; symmetry; apply ticks_succ).
    assert (Hlast : ticks B i (n - 1) (pollTick B i w) = ticks B i n w).
    { rewrite Hshift. f_equal. lia. }
    rewrite Hlast in Hend, Hdet.
    repeat split; try lia.
    + intros [|k] Hk; [exact Hact|]. rewrite <- Hshift. apply Hon. lia.
    + intros [|k] Hk; [exact Hnt|]. rewrite <- Hshift. apply Hnon. lia.
    + rewrite <- Hshift. exact Hoff.
    + rewrite <- Hshift, Htr', Htr, <- app_assoc. reflexivity.
    + simpl. rewrite countEvents_app, Hs0, Hs. reflexivity.
    + destruct Hend as [Hend|Hend]; [now left | right; lia].
    + simpl. rewrite countEvents_app, Hd, Hdet. reflexivity.
  - destruct Hout as [Hd Hoff]. destruct Hinv as [Hans Hend].
    now apply (Hstop true).
  - destruct Hout as [Hd Hoff]. destruct Hinv as [Hans Hend].
    apply (Hstop false); auto.
Qed.

End PollFacts.

(** ** Timers through a session *)

Section TimerFacts.

Variable B : Backend.

Lemma stopped_inactive (w : World) (i : nat) : stopped w i -> active w i = false.
Proof. intros (l & Hl & Hc). unfold active, enabled. now rewrite Hl, Hc. Qed.

(** No handler clears or replaces a timer that an earlier call set:
    [startTestCall] only adds a timeout. *)
Lemma startTestCall_timers (w : World) :
  polls (startTestCall B w) = polls w
  /\ exists new, timeouts (startTestCall B w) = timeouts w ++ new.
Proof.
  unfold startTestCall.
  destruct (negb _ || negb _ || negb _); [split; [reflexivity | exists []; now rewrite app_nil_r]|].
  destruct (negb _ || negb _); [split; [reflexivity | exists []; now rewrite app_nil_r]|].
  cbv zeta.
  destruct (startCall B _ _) as [r|reason]; [destruct (success r)|]; simpl;
    (split; [reflexivity|]); eauto; exists []; now rewrite app_nil_r.
Qed.

Lemma manualFetchResults_timers manual current d (w : World) :
  polls (manualFetchResults B manual current d w) = polls w
  /\ timeouts (manualFetchResults B manual current d w) = timeouts w.
Proof.
  unfold manualFetchResults.
  destruct (callIdToFetch manual current) as [id|]; [|split; reflexivity].
  cbv zeta.
  destruct (getStatus B _ id) as [st|reason]; [destruct (isTerminal st)|];
    try (split; reflexivity).
  match goal with |- context [fetchCallResults B d id ?w0] =>
    destruct (fetchCallResults_timers B d id w0) as [Hp Ht] end.
  destruct (JS.truthy (JS.trim manual)); simpl; rewrite ?Hp, ?Ht; split; reflexivity.
Qed.

Lemma syncCallFromRetell_timers (w : World) :
  polls (syncCallFromRetell B w) = polls w
  /\ timeouts (syncCallFromRetell B w) = timeouts w.
Proof.
  unfold syncCallFromRetell.
  destruct (negb _); [split; reflexivity|]. cbv zeta.
  destruct (syncCall B _ _) as [r|reason]; [destruct (sync_ok r && sync_success r)|];
    try (split; reflexivity).
  match goal with |- context [manualFetchResults B ?m ?c ?d ?w0] =>
    destruct (manualFetchResults_timers m c d w0) as [Hp Ht] end.
  simpl. rewrite Hp, Ht. split; reflexivity.
Qed.

Lemma insert_keeps_cleared (ps : list PollLoop) (j i : nat) (l l' : PollLoop) :
  ps !! i = Some l -> cleared l = true ->
  (i = j -> cleared l' = true) ->
  exists l'', <[j := l']> ps !! i = Some l'' /\ cleared l'' = true.
Proof.
  intros Hl Hc Hj. destruct (decide (i = j)) as [->|Hne].
  - exists l'. split; [|auto]. apply list_lookup_insert_eq.
    eapply lookup_lt_Some; eauto.
  - exists l. split; [|auto]. rewrite list_lookup_insert_ne; auto.
Qed.

Lemma pollTick_keeps_stopped (j i : nat) (w : World) :
  stopped w i -> stopped (pollTick B j w) i.
Proof.
  intros (l & Hl & Hc). unfold pollTick.
  destruct (polls w !! j) as [lj|] eqn:Hj; [|exists l; auto].
  set (w1 := emit _ (setAttempts j (S (attempts lj)) w)).
  assert (H1 : stopped w1 i).
  { subst w1. unfold stopped, setAttempts. rewrite Hj. simpl.
    eapply insert_keeps_cleared; eauto. intros ->. simpl. congruence. }
  assert (H2 : stopped (clearInterval j w1) i).
  { destruct H1 as (l1 & Hl1 & Hc1). unfold stopped, clearInterval.
    destruct (polls w1 !! j) as [l2|]; [|eauto]. simpl.
    eapply insert_keeps_cleared; eauto. }
  assert (Hf : forall d id w2, stopped w2 i -> stopped (fetchCallResults B d id w2) i).
  { intros d id w2 Hs. unfold stopped.
    now rewrite (proj1 (fetchCallResults_timers B d id w2)). }
  destruct (getStatus B _ _) as [st|reason].
  - destruct (isTerminal st); [now apply Hf|].
    destruct (maxAttempts <=? _)%nat; [apply Hf; exact H2 | exact H1].
  - destruct (maxAttempts <=? _)%nat; [exact H2 | exact H1].
Qed.

Lemma handle_keeps_stopped (a : Action) (i : nat) (w : World) :
  stopped w i -> stopped (handle B a w) i.
Proof.
  intros Hs. destruct a as [f v|v|p g| | | |j|j]; simpl.
  - destruct f; exact Hs.
  - exact Hs.
  - exact Hs.
  - unfold stopped. now rewrite (proj1 (startTestCall_timers w)).
  - unfold stopped. now rewrite (proj1 (manualFetchResults_timers _ _ _ w)).
  - unfold stopped. now rewrite (proj1 (syncCallFromRetell_timers w)).
  - unfold timeoutFires. destruct (timeouts w !! j); [|exact Hs].
    destruct Hs as (l & Hl & Hc). exists l. split; [|exact Hc].
    simpl. apply lookup_app_l_Some. exact Hl.
  - now apply pollTick_keeps_stopped.
Qed.

(** Once stopped, a poll loop never ticks again, whatever happens next in
    the session. *)
Lemma run_keeps_stopped (actions : list Action) :
  forall (i : nat) (w w' : World),
    stopped w i -> run B actions w = Some w' -> stopped w' i.
Proof.
  induction actions as [|a actions IH]; intros i w w' Hs Hrun; simpl in Hrun.
  - now inversion Hrun; subst.
  - destruct (enabled w a); [|discriminate].
    eapply IH; [|exact Hrun]. now apply handle_keeps_stopped.
Qed.

End TimerFacts.

(** ** Manual lookup *)

Section ManualFetchFacts.

Variable B : Backend.

Lemma fetchEvents_about (w : World) (id : string) :
  Forall (concerns id) (fetchEvents B w id).
Proof.
  unfold fetchEvents. destruct (isAnswered _); repeat constructor;
    simpl; apply String.eqb_refl.
Qed.

Lemma manualFetchResults_events manual current d (w : World) (id : string) :
  callIdToFetch manual current = Some id ->
  exists evs,
    trace (manualFetchResults B manual current d w)
    = trace w ++ Requested (GetStatus id) :: evs
    /\ Forall (concerns id) evs
    /\ forall st, getStatus B (trace w) id = Body st -> isTerminal st = false ->
         evs = [Alerted (stillActive B st)]
         /\ callResults (manualFetchResults B manual current d w) = callResults w.
Proof.
  intros Hid. unfold manualFetchResults. rewrite Hid. cbv zeta.
  change (trace (setIsFetchingResults true w)) with (trace w).
  destruct (getStatus B (trace w) id) as [st|reason].
  - destruct (isTerminal st) eqn:Hst.
    + set (w1 := emit _ (setIsFetchingResults true w)).
      exists (fetchEvents B w1 id ++ [Alerted "Call results fetched successfully!"]).
      split; [|split].
      * destruct (JS.truthy (JS.trim manual)); simpl;
          rewrite fetchCallResults_trace; subst w1; simpl;
          now rewrite <- !app_assoc.
      * apply Forall_app. split; [apply fetchEvents_about | repeat constructor].
      * intros st' E. inversion E; subst. congruence.
    + exists [Alerted (stillActive B st)]. split; [|split].
      * simpl. now rewrite <- app_assoc.
      * repeat constructor.
      * intros st' E _. inversion E; subst. split; reflexivity.
  - eexists. split; [|split].
    + simpl. rewrite <- app_assoc. reflexivity.
    + repeat constructor.
    + intros st' E. discriminate.
Qed.

End ManualFetchFacts.

(** ** The poll loop, request by request *)

Section AsyncFacts.

Variable B : Backend.

Lemma settle_cons (fuel : nat) (aw : AsyncWorld) (p : Pending) (ps : list Pending) :
  pending aw = p :: ps ->
  settle B (S fuel) aw = settle B fuel (resume B p (world aw) ps).
Proof. intros E. simpl. unfold deliver. now rewrite E. Qed.

Lemma settle_nil (fuel : nat) (aw : AsyncWorld) :
  pending aw = [] -> settle B fuel aw = aw.
Proof. intros E. destruct fuel; simpl; [reflexivity | now rewrite E]. Qed.

Lemma settle_fetch (d : DriverInfo) (id : string) (w : World) :
  settle B 2 (fetchStart B d id w []) = settled (fetchCallResults B d id w).
Proof.
  unfold fetchStart, fetchCallResults, settled. cbn [app].
  erewrite (settle_cons 1) by reflexivity. cbn [world]. unfold resume.
  destruct (getCallDetail B (trace w) id) as [callData|reason]; [|reflexivity].
  cbn [app]. erewrite (settle_cons 0) by reflexivity. cbn [world settle].
  destruct callData; reflexivity.
Qed.

(** When the answers to a tick's requests arrive before anything else
    happens, the tick and the deliveries together are the callback run to its
    end. *)
Lemma settledTick_atomic (i : nat) (w : World) :
  settledTick B i (settled w) = settled (pollTick B i w).
Proof.
  unfold settledTick, tick, pollTick, settled. cbn [world pending].
  destruct (polls w !! i) as [l|] eqn:Hl; [|reflexivity].
  assert (Hlt : i < length (polls w)) by (eapply lookup_lt_Some; eauto).
  cbv zeta. cbn [app].
  set (w1 := emit _ (setAttempts i (S (attempts l)) w)).
  assert (Hp1 : polls w1 !! i = Some {| pollCallId := pollCallId l; period := period l;
                                        pollDriverInfo := pollDriverInfo l;
                                        attempts := S (attempts l);
                                        cleared := cleared l |}).
  { subst w1. unfold setAttempts. rewrite Hl. simpl.
    now apply list_lookup_insert_eq. }
  erewrite (settle_cons 2) by reflexivity. cbn [world]. unfold resume.
  rewrite Hp1. cbn [pollCallId pollDriverInfo attempts].
  destruct (getStatus B _ _) as [st|reason].
  - destruct (isTerminal st); [apply settle_fetch|].
    destruct (maxAttempts <=? S (attempts l))%nat; [apply settle_fetch | reflexivity].
  - destruct (maxAttempts <=? S (attempts l))%nat; reflexivity.
Qed.

Lemma settledTicks_atomic (i k : nat) (w : World) :
  settledTicks B i k (settled w) = settled (ticks B i k w).
Proof.
  induction k as [|k IH]; [reflexivity|].
  unfold settledTicks, ticks in *. simpl. rewrite IH. apply settledTick_atomic.
Qed.

Lemma setAttempts_polls (i n : nat) (w : World) (l : PollLoop) :
  polls w !! i = Some l ->
  polls (setAttempts i n w)
  = <[i := {| pollCallId := pollCallId l; period := period l;
              pollDriverInfo := pollDriverInfo l; attempts := n;
              cleared := cleared l |}]> (polls w).
Proof. intros Hl. unfold setAttempts. now rewrite Hl. Qed.

Lemma clearInterval_polls (i : nat) (w : World) (l : PollLoop) :
  polls w !! i = Some l ->
  polls (clearInterval i w)
  = <[i := {| pollCallId := pollCallId l; period := period l;
              pollDriverInfo := pollDriverInfo l; attempts := attempts l;
              cleared := true |}]> (polls w).
Proof. intros Hl. unfold clearInterval. now rewrite Hl. Qed.

(** What a delivery does to the poll loops: nothing, or it clears the loop
    whose status check is answered; it leaves the loop as it is only if that
    loop has attempts left. *)
Lemma resume_polls (p : Pending) (w : World) (ps : list Pending) :
  (polls (world (resume B p w ps)) = polls w
   /\ forall i r l, p = StatusPending i r -> polls w !! i = Some l ->
                    attempts l < maxAttempts)
  \/ exists i r l,
       p = StatusPending i r /\ polls w !! i = Some l
       /\ polls (world (resume B p w ps))
          = <[i := {| pollCallId := pollCallId l; period := period l;
                      pollDriverInfo := pollDriverInfo l; attempts := attempts l;
                      cleared := true |}]> (polls w).
Proof.
  destruct p as [i r|d id r|d id cd pt]; unfold resume.
  - destruct (polls w !! i) as [l|] eqn:Hl.
    + assert (Hstop : forall P : list PollLoop,
                P = polls (clearInterval i w) ->
                exists i0 r0 l0,
                  StatusPending i r = StatusPending i0 r0 /\ polls w !! i0 = Some l0
                  /\ P = <[i0 := {| pollCallId := pollCallId l0; period := period l0;
                                    pollDriverInfo := pollDriverInfo l0;
                                    attempts := attempts l0; cleared := true |}]> (polls w)).
      { intros P E. exists i, r, l. repeat split; [exact Hl|].
        rewrite E. now apply clearInterval_polls. }
      assert (Hgo : (maxAttempts <=? attempts l)%nat = false ->
                forall i0 r0 l0, StatusPending i r = StatusPending i0 r0 ->
                                 polls w !! i0 = Some l0 -> attempts l0 < maxAttempts).
      { intros Hle i0 r0 l0 E Hl0. inversion E; subst.
        rewrite Hl in Hl0. inversion Hl0; subst. now apply Nat.leb_gt. }
      destruct r as [st|reason].
      * destruct (isTerminal st); [right; apply Hstop; reflexivity|].
        destruct (maxAttempts <=? attempts l)%nat eqn:Hle;
          [right; apply Hstop; reflexivity | left; split; [reflexivity | now apply Hgo]].
      * destruct (maxAttempts <=? attempts l)%nat eqn:Hle;
          [right; apply Hstop; reflexivity | left; split; [reflexivity | now apply Hgo]].
    + left. split; [reflexivity|]. intros i0 r0 l0 E Hl0. inversion E; subst. congruence.
  - left. split; [destruct r; reflexivity | discriminate].
  - left. split; [destruct cd; reflexivity | discriminate].
Qed.

Lemma outstanding_app (i : nat) (ps qs : list Pending) :
  outstanding i (ps ++ qs) = outstanding i ps + outstanding i qs.
Proof.
  induction ps as [|[j r|d id r|d id cd pt] ps IH]; simpl; rewrite ?IH; lia.
Qed.

Lemma outstanding_delete (i k : nat) (ps : list Pending) (p : Pending) :
  ps !! k = Some p ->
  outstanding i ps = outstanding i (delete k ps) + outstanding i [p].
Proof.
  revert k. induction ps as [|q ps IH]; intros [|k] Hk; simpl in *; try discriminate.
  - inversion Hk; subst. destruct p; simpl; lia.
  - rewrite (IH k Hk). destruct q, p; simpl; lia.
Qed.

(** A delivery sends no status check. *)
Lemma resume_outstanding (i : nat) (p : Pending) (w : World) (ps : list Pending) :
  outstanding i (pending (resume B p w ps)) = outstanding i ps.
Proof.
  destruct p as [j r|d id r|d id cd pt]; unfold resume, fetchStart.
  - destruct (polls w !! j) as [l|]; [|reflexivity].
    destruct r as [st|reason].
    + destruct (isTerminal st); [|destruct (maxAttempts <=? attempts l)%nat];
        cbn [pending]; rewrite ?outstanding_app; simpl; lia.
    + destruct (maxAttempts <=? attempts l)%nat; reflexivity.
  - destruct r; cbn [pending]; rewrite ?outstanding_app; simpl; lia.
  - destruct cd; reflexivity.
Qed.

(** Apart from the ticks, a session changes the poll loops only by setting a
    new one when a timeout fires. *)
Lemma handle_polls_other (a : Action) (w : World) :
  (forall j, a <> IntervalFires j) ->
  polls (handle B a w) = polls w
  \/ exists l, polls (handle B a w) = polls w ++ [l]
               /\ period l = 5000%Z /\ attempts l = 0.
Proof.
  intros Ha. destruct a as [f v|v|p g| | | |j|j]; simpl.
  - left. destruct f; reflexivity.
  - now left.
  - now left.
  - left. apply startTestCall_timers.
  - left. apply manualFetchResults_timers.
  - left. apply syncCallFromRetell_timers.
  - unfold timeoutFires. destruct (timeouts w !! j); [right | now left].
    eexists. simpl. split; [reflexivity|]. split; reflexivity.
  - now destruct (Ha j).
Qed.

Lemma asyncHandle_keeps_stopped (a : AsyncAction) (i : nat) (aw : AsyncWorld) :
  stopped (world aw) i -> stopped (world (asyncHandle B a aw)) i.
Proof.
  intros (l & Hl & Hc). destruct a as [j|k|a]; simpl.
  - unfold tick. destruct (polls (world aw) !! j) as [lj|] eqn:Hj; [|exists l; auto].
    unfold stopped. cbn [world]. simpl polls. rewrite (setAttempts_polls _ _ _ _ Hj).
    eapply insert_keeps_cleared; eauto. intros ->. simpl. congruence.
  - unfold deliver. destruct (pending aw !! k) as [p|]; [|exists l; auto].
    destruct (resume_polls p (world aw) (delete k (pending aw)))
      as [[E _]|(j & r & lj & _ & Hj & E)]; unfold stopped; rewrite E.
    + exists l; auto.
    + eapply insert_keeps_cleared; eauto.
  - apply handle_keeps_stopped. exists l; auto.
Qed.

(** Once stopped, a poll loop never ticks again, whatever happens next and in
    whatever order the answers arrive. *)
Lemma asyncRun_keeps_stopped (actions : list AsyncAction) :
  forall (i : nat) (aw aw' : AsyncWorld),
    stopped (world aw) i -> asyncRun B actions aw = Some aw' -> stopped (world aw') i.
Proof.
  induction actions as [|a actions IH]; intros i aw aw' Hs Hrun; simpl in Hrun.
  - now inversion Hrun; subst.
  - destruct (asyncEnabled aw a); [|discriminate].
    eapply IH; [|exact Hrun]. now apply asyncHandle_keeps_stopped.
Qed.

End AsyncFacts.

(** ** The embedding at work

    The examples of the specification, run on the definitions above. *)

Example formatTranscript_null :
  formatTranscript JSON.parse None
  = [entry "System" "Transcript not available yet. It may take a few minutes to process."].
Proof. reflexivity. Qed.

Example formatTranscript_speakers :
  formatTranscript JSON.parse
    (Some ("Agent: hello" +:+ nl +:+ "Driver: hi there" +:+ nl))
  = [entry "Agent" "hello"; entry "Driver" "hi there"].
Proof. vm_compute. reflexivity. Qed.

Example formatTranscript_no_speaker :
  formatTranscript JSON.parse (Some "no speaker prefix here")
  = [entry "System" "no speaker prefix here"].
Proof. vm_compute. reflexivity. Qed.

Example formatTranscript_keeps_case :
  formatTranscript JSON.parse (Some ("aGENT:x" +:+ nl +:+ "User:" +:+ nl +:+ "human:   y z  "))
  = [entry "aGENT" "x"; entry "System" "User:"; entry "human" "y z"].
Proof. vm_compute. reflexivity. Qed.

Example formatTranscript_object :
  formatTranscript JSON.parse (Some "{}") = [entry "System" "{}"].
Proof. vm_compute. reflexivity. Qed.

Example calculateDuration_125s :
  calculateDuration (fun s => if String.eqb s "T" then Some 1000%Z else Some 126000%Z)
    (Some "T") (Some "T+125s") = "2:05".
Proof. vm_compute. reflexivity. Qed.

Example transformKey_snake :
  transformKey "call_summary_x2" = "Call Summary X2".
Proof. reflexivity. Qed.

Example parse_nested :
  JSON.parse ("{" +:+ Sample.quoted "b" +:+ ":1," +:+ Sample.quoted "2" +:+ ":-2.50e3,"
              +:+ Sample.quoted "1" +:+ ":[true,null]," +:+ Sample.quoted "b" +:+ ":{}}")
  = Some (JObj [("1", JArr [JBool true; JNull]); ("2", JNum (-250) 1); ("b", JObj [])]).
Proof. vm_compute. reflexivity. Qed.

Example parse_rejects :
  JSON.parse "[1,]" = None /\ JSON.parse "[01]" = None /\ JSON.parse "[not json" = None.
Proof. repeat split; vm_compute; reflexivity. Qed.

(** * The claims of the specification *)

(** C5. Phone normalisation is the five-step algorithm of the specification:
    for every input, [formatPhoneNumber] returns what [PhoneSpec.normalize]
    (strip the non-digits, then the rules "92", "03" with 11 digits, "3" with
    10 digits, non-empty, empty, in this order) returns; in particular
    [03001234567], [923001234567] and [3001234567] all give [+923001234567],
    the empty input gives the empty string and [12345] gives [+12345]. *)
Theorem formatPhoneNumber_spec :
  (forall raw : string, formatPhoneNumber raw = PhoneSpec.normalize raw)
  /\ formatPhoneNumber "03001234567" = "+923001234567"
  /\ formatPhoneNumber "923001234567" = "+923001234567"
  /\ formatPhoneNumber "3001234567" = "+923001234567"
  /\ formatPhoneNumber EmptyString = EmptyString
  /\ formatPhoneNumber "12345" = "+12345".
Proof.
  split; [exact formatPhoneNumber_refines|].
  repeat split; reflexivity.
Qed.

(** C10. Phone normalisation is idempotent: normalising a normalised number
    changes nothing. *)
Theorem formatPhoneNumber_idempotent (s : string) :
  formatPhoneNumber (formatPhoneNumber s) = formatPhoneNumber s.
Proof. apply formatPhoneNumber_idem. Qed.

(** C6, as the code has it.  A raw transcript that itself opens with a
    bracket or a brace (no trimming takes place) and parses as a JSON array is
    returned as the parsed array: the same items in the same order, with no
    validation of the items. *)
Theorem formatTranscript_parsed_array
  (parse : string -> option JValue) (raw : string) (items : list JValue) :
  JS.startsWith "[" raw || JS.startsWith "{" raw = true ->
  parse raw = Some (JArr items) ->
  formatTranscript parse (Some raw) = items.
Proof. apply formatTranscript_array. Qed.

Lemma formatTranscript_parsed_array_witness :
  formatTranscript JSON.parse (Some Sample.agentHi) = [entry "Agent" "hi"].
Proof.
  apply (formatTranscript_parsed_array JSON.parse Sample.agentHi [entry "Agent" "hi"]).
  - reflexivity.
  - vm_compute. reflexivity.
Defined.

(** C6 fails when white space comes before the bracket: the trimmed text
    opens with a bracket and the text parses as a JSON array, but the result
    is not the parsed array; the text is rendered as one line of free-form
    text. *)
Lemma leading_whitespace_not_parsed :
  let raw := " " +:+ Sample.agentHi in
  JS.startsWith "[" (JS.trim raw) = true
  /\ JSON.parse raw = Some (JArr [entry "Agent" "hi"])
  /\ JSON.parse (JS.trim raw) = Some (JArr [entry "Agent" "hi"])
  /\ formatTranscript JSON.parse (Some raw) = [entry "System" Sample.agentHi]
  /\ formatTranscript JSON.parse (Some raw) <> [entry "Agent" "hi"].
Proof.
  cbv zeta. repeat split; try (vm_compute; reflexivity).
  vm_compute. discriminate.
Qed.

(** C7. When the structured parse of a raw transcript fails, the exception
    stays inside [formatTranscript]: the [try] block throws, and the function
    returns the one-entry sequence that renders the raw input under the
    speaker [System]. *)
Theorem formatTranscript_parse_failure
  (parse : string -> option JValue) (raw : string) :
  JS.startsWith "[" raw || JS.startsWith "{" raw = true ->
  parse raw = None ->
  formatTranscript_try parse raw = Throw
  /\ formatTranscript parse (Some raw) = [entry "System" raw].
Proof. apply formatTranscript_throw. Qed.

Lemma formatTranscript_parse_failure_witness :
  formatTranscript_try JSON.parse "[not json" = Throw
  /\ formatTranscript JSON.parse (Some "[not json") = [entry "System" "[not json"].
Proof.
  apply (formatTranscript_parse_failure JSON.parse "[not json").
  - reflexivity.
  - vm_compute. reflexivity.
Defined.

(** C9. For a raw transcript that is not empty, [formatTranscript] returns
    the empty sequence when the text opens with a bracket or a brace and
    parses as the empty JSON array, and only then: in every other case the
    result has at least one entry. *)
Theorem formatTranscript_empty_exactly
  (parse : string -> option JValue) (raw : string) :
  raw <> EmptyString ->
  let emptyArray :=
    JS.startsWith "[" raw || JS.startsWith "{" raw = true
    /\ parse raw = Some (JArr []) in
  (emptyArray -> formatTranscript parse (Some raw) = [])
  /\ (~ emptyArray -> 1 <= length (formatTranscript parse (Some raw))).
Proof.
  intros Hne emptyArray. pose proof (formatTranscript_empty_iff parse raw Hne) as H.
  split; [apply H|]. intros Hn.
  destruct (formatTranscript parse (Some raw)); [|simpl; lia].
  exfalso. apply Hn, H. reflexivity.
Qed.

Lemma formatTranscript_empty_exactly_witness :
  formatTranscript JSON.parse (Some "[]") = []
  /\ 1 <= length (formatTranscript JSON.parse (Some "[not json")).
Proof.
  split.
  - apply (proj1 (formatTranscript_empty_exactly JSON.parse "[]" ltac:(discriminate))).
    split; vm_compute; reflexivity.
  - apply (proj2 (formatTranscript_empty_exactly JSON.parse "[not json" ltac:(discriminate))).
    intros [_ H]. vm_compute in H. discriminate.
Defined.

(** C2, as the code has it.  The key information of a result assembled from
    a fetched call detail is what [extractKeyInformation] makes of the form,
    the analysis and the processed transcript.  That always has the entries
    [Driver Name], [Load Number] and [Phone Number], with the values of the
    form, and it has a [Call Status] entry exactly when the analysis supplies
    one: a field that holds a string or a number and whose title-cased name
    is [Call Status]; the entry then holds the value of such a field.  So
    there is none when there is neither analysis nor processed transcript.
    The key information of the degraded result, shown when the detail cannot
    be fetched, has the entries [Call Status] and [Error] and no other, so
    neither [Driver Name] nor [Load Number].  The result shown right after a
    call is started has all of [Driver Name], [Load Number] and
    [Call Status]. *)
Theorem keyInformation_entries (B : Backend) (d : DriverInfo) (id : string) (w : World) :
  (forall callAnalysis pt,
     extractKeyInformation d callAnalysis pt !! "Driver Name" = Some (JStr (name d))
     /\ extractKeyInformation d callAnalysis pt !! "Load Number" = Some (JStr (loadNumber d))
     /\ extractKeyInformation d callAnalysis pt !! "Phone Number" = Some (JStr (phone d)))
  /\ (forall callAnalysis pt v,
        extractKeyInformation d callAnalysis pt !! "Call Status" = Some v ->
        exists fields key,
          callAnalysis = Some fields /\ In key (map fst fields)
          /\ getProperty key fields = Some v /\ isStringOrNumber v = true
          /\ transformKey key = "Call Status")
  /\ (forall fields pt key v,
        In key (map fst fields) -> getProperty key fields = Some v ->
        isStringOrNumber v = true -> transformKey key = "Call Status" ->
        is_Some (extractKeyInformation d (Some fields) pt !! "Call Status"))
  /\ extractKeyInformation d None None !! "Call Status" = None
  /\ (exists r, callResults (fetchCallResults B d id w) = Some r
      /\ match getCallDetail B (trace w) id with
         | Body (Some callData) =>
             keyInformation r
             = extractKeyInformation d (call_analysis callData)
                 (getTranscript B (trace (emit (Requested (GetCallDetail id)) w)) id)
         | _ =>
             forall K : string,
               keyInformation r !! K
               = if String.eqb K "Call Status" then Some (JStr "Completed")
                 else if String.eqb K "Error"
                      then Some (JStr "Unable to fetch detailed results")
                      else None
         end)
  /\ (forall (s : StartResult) (t : string),
        keyInformation (basicResults d s t) !! "Driver Name" = Some (JStr (name d))
        /\ keyInformation (basicResults d s t) !! "Load Number" = Some (JStr (loadNumber d))
        /\ keyInformation (basicResults d s t) !! "Call Status" = Some (JStr "Ready to Connect")).
Proof.
  assert (Hdegraded : forall t (K : string),
            keyInformation (degradedResult id t) !! K
            = if String.eqb K "Call Status" then Some (JStr "Completed")
              else if String.eqb K "Error"
                   then Some (JStr "Unable to fetch detailed results")
                   else None).
  { intros t K. cbn [keyInformation degradedResult].
    destruct (String.eqb_spec K "Call Status") as [->|H1].
    - rewrite lookup_insert_ne by discriminate. apply lookup_insert_eq.
    - destruct (String.eqb_spec K "Error") as [->|H2]; [apply lookup_insert_eq|].
      now rewrite !lookup_insert_ne by congruence. }
  split; [intros; apply extractKeyInformation_driver|].
  split.
  { intros callAnalysis pt v H.
    rewrite extractKeyInformation_other in H by discriminate.
    destruct callAnalysis as [fields|]; simpl in H.
    - apply copyField_origin in H as [H|(key & Hin & Hv & Hp & HK)].
      + rewrite fromProcessedTranscript_other in H by discriminate. discriminate.
      + exists fields, key. repeat split; assumption.
    - rewrite fromProcessedTranscript_other in H by discriminate. discriminate. }
  split.
  { intros fields pt key v Hin Hv Hp HK.
    rewrite extractKeyInformation_other by discriminate. simpl.
    now apply copyField_written with key v. }
  split; [rewrite extractKeyInformation_other by discriminate; reflexivity|].
  split.
  - unfold fetchCallResults.
    destruct (getCallDetail B (trace w) id) as [[callData|]|reason]; cbv zeta;
      eexists; (split; [reflexivity|]).
    + reflexivity.
    + apply Hdegraded.
    + apply Hdegraded.
  - intros s t. repeat split; reflexivity.
Qed.

Lemma keyInformation_entries_witness :
  is_Some (extractKeyInformation Sample.ali
             (Some [("call_status", JStr "voicemail")]) None !! "Call Status")
  /\ forall v,
       extractKeyInformation Sample.ali (Some [("call_outcome", JStr "voicemail")])
         None !! "Call Status" = Some v -> False.
Proof.
  destruct (keyInformation_entries
              (Sample.backend Sample.alwaysCompleted Sample.detailFound)
              Sample.ali "call_1" Sample.ready) as (_ & Honly & Hif & _).
  split.
  - apply (Hif [("call_status", JStr "voicemail")] None "call_status" (JStr "voicemail"));
      [now left | reflexivity | reflexivity | vm_compute; reflexivity].
  - intros v H. apply Honly in H as (fields & key & Hf & Hin & _ & _ & HK).
    inversion Hf; subst fields. destruct Hin as [<-|[]]. vm_compute in HK. discriminate.
Defined.

(** C2 fails on both kinds of result: a call fetched without analysis and
    without transcript has no call-status entry, and the degraded result has
    neither the driver's name nor the load number. *)
Lemma keyInformation_lacks_entries :
  (exists r,
     callResults (fetchCallResults (Sample.backend Sample.alwaysCompleted Sample.detailFound)
                    Sample.ali "call_1" Sample.ready) = Some r
     /\ keyInformation r !! "Call Status" = None)
  /\ (exists r,
        callResults (fetchCallResults (Sample.backend Sample.alwaysCompleted Sample.detailFails)
                       Sample.ali "call_1" Sample.ready) = Some r
        /\ keyInformation r !! "Driver Name" = None
        /\ keyInformation r !! "Load Number" = None).
Proof.
  split; eexists; (split; [reflexivity|]); repeat split; reflexivity.
Qed.

(** C3, as the code has it.  A later write to the same literal key replaces
    the earlier value.  When [key] is the last field of the analysis, in the
    order of [Object.keys], that holds a string or a number and whose
    title-cased name is [K], the entry [K] of the key information holds the
    value of that field, whatever the processed transcript or an earlier
    field had put there; the three driver entries, written last, replace
    whatever was there under their names. *)
Theorem later_write_overwrites (d : DriverInfo)
  (callAnalysis : list (string * JValue)) (pt : option ProcessedTranscript)
  (before after : list string) (key K : string) (v : JValue) :
  map fst callAnalysis = before ++ key :: after ->
  getProperty key callAnalysis = Some v ->
  isStringOrNumber v = true ->
  transformKey key = K ->
  Forall (fun key' => forall v', getProperty key' callAnalysis = Some v' ->
                                 isStringOrNumber v' = true ->
                                 transformKey key' <> K) after ->
  K <> "Driver Name" -> K <> "Load Number" -> K <> "Phone Number" ->
  extractKeyInformation d (Some callAnalysis) pt !! K = Some v
  /\ extractKeyInformation d (Some callAnalysis) pt !! "Driver Name" = Some (JStr (name d))
  /\ extractKeyInformation d (Some callAnalysis) pt !! "Load Number" = Some (JStr (loadNumber d))
  /\ extractKeyInformation d (Some callAnalysis) pt !! "Phone Number" = Some (JStr (phone d)).
Proof.
  intros Hkeys Hv Hp HK Hafter H1 H2 H3.
  split; [|apply extractKeyInformation_driver].
  rewrite extractKeyInformation_other by assumption.
  unfold fromCallAnalysis. rewrite Hkeys. now apply copyField_last.
Qed.

Lemma later_write_overwrites_witness :
  extractKeyInformation Sample.ali (Some Sample.positiveAnalysis)
    (Some Sample.negativeTranscript) !! "Sentiment" = Some (JStr "positive").
Proof.
  apply (later_write_overwrites Sample.ali Sample.positiveAnalysis
           (Some Sample.negativeTranscript) [] ["call_successful"]
           "sentiment" "Sentiment" (JStr "positive")).
  - reflexivity.
  - reflexivity.
  - reflexivity.
  - reflexivity.
  - repeat constructor. intros v' Hv' Hn. vm_compute in Hv'.
    inversion Hv'; subst. discriminate.
  - discriminate.
  - discriminate.
  - discriminate.
Defined.

(** C3 fails on its own example: the processed transcript sets [Sentiment]
    to [negative], the analysis field [sentiment] title-cases to the same
    key, and the entry ends up holding the later value, [positive]. *)
Lemma sentiment_overwritten :
  fromProcessedTranscript (Some Sample.negativeTranscript) ∅ !! "Sentiment"
  = Some (JStr "negative")
  /\ transformKey "sentiment" = "Sentiment"
  /\ extractKeyInformation Sample.ali (Some Sample.positiveAnalysis)
       (Some Sample.negativeTranscript) !! "Sentiment" = Some (JStr "positive")
  /\ extractKeyInformation Sample.ali (Some Sample.positiveAnalysis)
       (Some Sample.negativeTranscript) !! "Sentiment" <> Some (JStr "negative").
Proof.
  repeat split; try reflexivity. vm_compute. discriminate.
Qed.

(** C1, as the code has it.  [pollForCallCompletion] sets an interval timer
    of 5000 ms whose callback checks the call status once per tick.  Take the
    ticks whose answers arrive before the next tick fires ([settledTicks]).
    For every backend the loop then makes [n] checks, with [1 <= n <= 60]: it
    ticks while no answer is terminal, and stops at the first tick whose
    status is [completed] or [ended], or at the 60th tick.  It then runs
    [fetchCallResults] exactly once if the last status check was answered
    (with a terminal status, or with any status at the 60th attempt), and not
    at all if the 60th check itself failed.  Once stopped the loop never ticks
    again, whatever happens next in the session and in whatever order the
    answers arrive. *)
Theorem pollForCallCompletion_stops
  (B : Backend) (d : DriverInfo) (id : string) (w : World) :
  let i := length (polls w) in
  let aw0 := settled (pollForCallCompletion d id w) in
  polls (world aw0) !! i
  = Some {| pollCallId := id; period := 5000; pollDriverInfo := d;
            attempts := 0; cleared := false |}
  /\ exists n,
      1 <= n <= 60
      /\ (forall k, k < n -> asyncEnabled (settledTicks B i k aw0) (Tick i) = true)
      /\ (forall k, k < n - 1 ->
            isTerminalReply
              (getStatus B (trace (world (settledTicks B i k aw0))) id) = false)
      /\ (isTerminalReply
            (getStatus B (trace (world (settledTicks B i (n - 1) aw0))) id) = true
          \/ n = 60)
      /\ asyncEnabled (settledTicks B i n aw0) (Tick i) = false
      /\ pending (settledTicks B i n aw0) = []
      /\ (forall actions aw', asyncRun B actions (settledTicks B i n aw0) = Some aw' ->
            asyncEnabled aw' (Tick i) = false)
      /\ countEvents isStatusCheck
           (since (world aw0) (world (settledTicks B i n aw0))) = n
      /\ countEvents isDetailRequest
           (since (world aw0) (world (settledTicks B i n aw0)))
         = if isAnswered
                (getStatus B (trace (world (settledTicks B i (n - 1) aw0))) id)
           then 1 else 0.
Proof.
  intros i aw0. subst aw0.
  set (w0 := pollForCallCompletion d id w).
  assert (Hl : polls w0 !! i = Some {| pollCallId := id; period := 5000;
                                       pollDriverInfo := d; attempts := 0;
                                       cleared := false |}).
  { subst i w0. simpl. apply list_lookup_middle. reflexivity. }
  split; [exact Hl|].
  destruct (poll_loop_from B i 60 w0 _ Hl eq_refl eq_refl ltac:(lia))
    as (n & evs & Hn & Hon & Hnon & Hoff & Htr & Hs & Hend & Hdet).
  simpl pollCallId in *. simpl attempts in *.
  exists n.
  assert (Hw : forall k, world (settledTicks B i k (settled w0)) = ticks B i k w0).
  { intros k. now rewrite settledTicks_atomic. }
  rewrite !Hw. change (world (settled w0)) with w0. rewrite (since_app _ _ _ Htr).
  repeat split; try lia; try assumption.
  - intros k Hk. simpl. rewrite Hw. now apply Hon.
  - intros k Hk. rewrite Hw. now apply Hnon.
  - simpl. rewrite Hw. now apply stopped_inactive.
  - now rewrite settledTicks_atomic.
  - intros actions aw' Hrun. simpl. apply stopped_inactive.
    eapply asyncRun_keeps_stopped; [|exact Hrun]. now rewrite Hw.
Qed.

Lemma pollForCallCompletion_stops_witness :
  exists n,
    1 <= n <= 60
    /\ asyncEnabled
         (settledTicks (Sample.backend Sample.completesOnTick60 Sample.detailFound) 0 n
            (settled (pollForCallCompletion Sample.ali "call_1" Sample.ready)))
         (Tick 0) = false.
Proof.
  destruct (pollForCallCompletion_stops
              (Sample.backend Sample.completesOnTick60 Sample.detailFound)
              Sample.ali "call_1" Sample.ready)
    as (_ & n & Hn & _ & _ & _ & Hoff & _).
  exists n. split; [exact Hn | exact Hoff].
Defined.

(** The two poll-loop scenarios of the specification, with every answer
    there before the next tick.  A backend that says [active] 59 times and
    [completed] at the 60th check: the loop ticks 60 times, fetches once and
    is stopped.  A backend that never reports a terminal status: the same,
    with the notice that the call is taking longer than expected before the
    fetch. *)
Lemma poll_scenarios :
  let w0 := pollForCallCompletion Sample.ali "call_1" Sample.ready in
  let slow := Sample.backend Sample.completesOnTick60 Sample.detailFound in
  let never := Sample.backend Sample.neverTerminal Sample.detailFound in
  (active (ticks slow 0 59 w0) 0 = true
   /\ active (ticks slow 0 60 w0) 0 = false
   /\ since w0 (ticks slow 0 60 w0)
      = repeat (Requested (GetStatus "call_1")) 60
        ++ [Requested (GetCallDetail "call_1"); Requested (GetTranscript "call_1")])
  /\ (active (ticks never 0 59 w0) 0 = true
      /\ active (ticks never 0 60 w0) 0 = false
      /\ since w0 (ticks never 0 60 w0)
         = repeat (Requested (GetStatus "call_1")) 60
           ++ [Alerted "Call is taking longer than expected. Please check the call status manually.";
               Requested (GetCallDetail "call_1"); Requested (GetTranscript "call_1")]).
Proof. cbv zeta. repeat split; vm_compute; reflexivity. Qed.

(** C1 fails in two ways.  With every answer there before the next tick,
    and the 60th status check failing: all 60 attempts pass without a terminal
    status, the loop stops after the 60th, and no [fetchCallResults] is run,
    only the notice that the status cannot be got.  And with answers slower
    than the ticks: two ticks fire before the first answer, both answers say
    [completed], and [fetchCallResults] is run twice; 61 ticks fire before the
    first answer, and the status is checked 61 times. *)
Lemma poll_last_check_fails_no_fetch :
  (let B := Sample.backend Sample.lastCheckFails Sample.detailFound in
   let aw0 := settled (pollForCallCompletion Sample.ali "call_1" Sample.ready) in
   forallb (fun k => negb (isTerminalReply
                             (getStatus B (trace (world (settledTicks B 0 k aw0))) "call_1")))
           (seq 0 60) = true
   /\ asyncEnabled (settledTicks B 0 59 aw0) (Tick 0) = true
   /\ asyncEnabled (settledTicks B 0 60 aw0) (Tick 0) = false
   /\ pending (settledTicks B 0 60 aw0) = []
   /\ countEvents isStatusCheck (since (world aw0) (world (settledTicks B 0 60 aw0))) = 60
   /\ countEvents isDetailRequest (since (world aw0) (world (settledTicks B 0 60 aw0))) = 0
   /\ last (since (world aw0) (world (settledTicks B 0 60 aw0)))
      = Some (Alerted "Unable to get call status. Please try again later."))
  /\ (let B := Sample.backend Sample.alwaysCompleted Sample.detailFound in
      let aw0 := settled (pollForCallCompletion Sample.ali "call_1" Sample.ready) in
      match asyncRun B (Tick 0 :: Tick 0 :: repeat (Deliver 0) 6) aw0 with
      | Some aw =>
          pending aw = []
          /\ countEvents isStatusCheck (since (world aw0) (world aw)) = 2
          /\ countEvents isDetailRequest (since (world aw0) (world aw)) = 2
      | None => False
      end)
  /\ (let B := Sample.backend Sample.neverTerminal Sample.detailFound in
      let aw0 := settled (pollForCallCompletion Sample.ali "call_1" Sample.ready) in
      match asyncRun B (repeat (Tick 0) 61) aw0 with
      | Some aw => countEvents isStatusCheck (since (world aw0) (world aw)) = 61
      | None => False
      end).
Proof.
  cbv zeta.
  repeat match goal with |- _ /\ _ => split end;
    vm_compute; repeat match goal with |- _ /\ _ => split end; reflexivity.
Qed.


(** C4, as the code has it.  [startTestCall] neither clears nor replaces a
    timer: the poll loops are after it what they were before, an active one
    still active, and the timeouts that were pending still are; a successful
    start only adds one timeout.  A session can therefore run several poll
    loops at once. *)
Theorem startTestCall_keeps_timers (B : Backend) (w : World) :
  polls (startTestCall B w) = polls w
  /\ (forall i, active (startTestCall B w) i = active w i)
  /\ exists new, timeouts (startTestCall B w) = timeouts w ++ new.
Proof.
  destruct (startTestCall_timers B w) as [Hp Ht].
  split; [exact Hp|]. split; [|exact Ht].
  intros i. unfold active, enabled. now rewrite Hp.
Qed.

(** C4 fails in a session that starts two calls: after the second call is
    started and its poll loop set, the loop of the first call is still
    active, both loops can tick, and a tick of the first loop fires and
    checks the status of the first call. *)
Lemma two_poll_loops_overlap :
  let B := Sample.backend Sample.neverTerminal Sample.detailFound in
  match run B [ClickStartTestCall; TimeoutFires 0; ClickStartTestCall; TimeoutFires 1]
          Sample.ready with
  | Some w =>
      currentCallId w = Some "call_2"
      /\ map pollCallId (polls w) = ["call_1"; "call_2"]
      /\ active w 0 = true /\ active w 1 = true
      /\ match run B [IntervalFires 0] w with
         | Some w' => since w w' = [Requested (GetStatus "call_1")]
         | None => False
         end
  | None => False
  end.
Proof. vm_compute. repeat split; reflexivity. Qed.

Section CurrentCallFacts.

Variable B : Backend.

Lemma fetchCallResults_current d id (w : World) :
  currentCallId (fetchCallResults B d id w) = currentCallId w.
Proof.
  unfold fetchCallResults.
  destruct (getCallDetail B (trace w) id) as [[cd|]|]; reflexivity.
Qed.

Lemma clearInterval_current (i : nat) (w : World) :
  currentCallId (clearInterval i w) = currentCallId w.
Proof. unfold clearInterval. destruct (polls w !! i); reflexivity. Qed.

Lemma setAttempts_current (i n : nat) (w : World) :
  currentCallId (setAttempts i n w) = currentCallId w.
Proof. unfold setAttempts. destruct (polls w !! i); reflexivity. Qed.

Lemma pollTick_current (i : nat) (w : World) :
  currentCallId (pollTick B i w) = currentCallId w.
Proof.
  unfold pollTick. destruct (polls w !! i) as [l|]; [|reflexivity]. cbv zeta.
  destruct (getStatus B _ _) as [st|reason].
  - destruct (isTerminal st).
    + rewrite fetchCallResults_current, clearInterval_current. cbn [currentCallId emit].
      apply setAttempts_current.
    + destruct (maxAttempts <=? S (attempts l))%nat.
      * rewrite fetchCallResults_current. cbn [currentCallId alert emit].
        rewrite clearInterval_current. cbn [currentCallId emit].
        apply setAttempts_current.
      * cbn [currentCallId emit]. apply setAttempts_current.
  - destruct (maxAttempts <=? S (attempts l))%nat.
    + cbn [currentCallId alert emit]. rewrite clearInterval_current.
      cbn [currentCallId emit]. apply setAttempts_current.
    + cbn [currentCallId emit]. apply setAttempts_current.
Qed.

Lemma timeoutFires_current (i : nat) (w : World) :
  currentCallId (timeoutFires i w) = currentCallId w.
Proof. unfold timeoutFires. destruct (timeouts w !! i); reflexivity. Qed.

Lemma tick_current (i : nat) (aw : AsyncWorld) :
  currentCallId (world (tick B i aw)) = currentCallId (world aw).
Proof.
  unfold tick. destruct (polls (world aw) !! i) as [l|]; [|reflexivity].
  cbn [world currentCallId emit]. apply setAttempts_current.
Qed.

Lemma resume_current (p : Pending) (w : World) (ps : list Pending) :
  currentCallId (world (resume B p w ps)) = currentCallId w.
Proof.
  destruct p as [i r|d id r|d id cd pt]; unfold resume, fetchStart.
  - destruct (polls w !! i) as [l|]; [|reflexivity].
    destruct r as [st|reason].
    + destruct (isTerminal st); [apply clearInterval_current|].
      destruct (maxAttempts <=? attempts l)%nat; [|reflexivity].
      cbn [world currentCallId emit alert]. apply clearInterval_current.
    + destruct (maxAttempts <=? attempts l)%nat; [|reflexivity].
      cbn [world currentCallId emit alert]. apply clearInterval_current.
  - destruct r as [cd|reason]; reflexivity.
  - destruct cd; reflexivity.
Qed.

Lemma manualFetchResults_current manual current d (w : World) :
  currentCallId (manualFetchResults B manual current d w)
  = if JS.truthy (JS.trim manual) then
      match getStatus B (trace w) (JS.trim manual) with
      | Body status => if isTerminal status then Some (JS.trim manual) else currentCallId w
      | Rejected _ => currentCallId w
      end
    else currentCallId w.
Proof.
  unfold manualFetchResults, callIdToFetch.
  destruct (JS.truthy (JS.trim manual)) eqn:Hm.
  - cbv zeta. change (trace (setIsFetchingResults true w)) with (trace w).
    destruct (getStatus B (trace w) (JS.trim manual)) as [st|reason]; [|reflexivity].
    destruct (isTerminal st); reflexivity.
  - assert (Hkeep : forall id,
              currentCallId
                (let w0 := setIsFetchingResults true w in
                 let statusReply := getStatus B (trace w0) id in
                 let w1 := emit (Requested (GetStatus id)) w0 in
                 let w2 :=
                   match statusReply with
                   | Body status =>
                       if isTerminal status then
                         let w3 := fetchCallResults B d id w1 in
                         let w4 := alert "Call results fetched successfully!" w3 in
                         if false then setCurrentCallId (Some id) w4 else w4
                       else
                         alert ("Call is still active (Status: " +:+ templateText B status
                                +:+ "). Please wait for the call to complete before fetching results.") w1
                   | Rejected _ =>
                       alert ("Failed to check call status for " +:+ id
                              +:+ ". Please verify the call ID is correct.") w1
                   end in
                 setIsFetchingResults false w2) = currentCallId w).
    { intros id. cbv zeta. destruct (getStatus B _ id) as [st|reason]; [|reflexivity].
      destruct (isTerminal st); [|reflexivity].
      cbn [currentCallId setIsFetchingResults alert emit].
      now rewrite fetchCallResults_current. }
    destruct current as [c|]; [|reflexivity].
    destruct (JS.truthy c); [apply Hkeep | reflexivity].
Qed.

Lemma handleInputChange_current f v (w : World) :
  currentCallId (handleInputChange f v w) = currentCallId w.
Proof. destruct f; reflexivity. Qed.

Lemma handle_current (a : Action) (w : World) :
  currentCallId (handle B a w) = currentCallIdAfter B a w.
Proof.
  destruct a as [f v|v|p g| | | |j|j]; cbn [handle currentCallIdAfter].
  - apply handleInputChange_current.
  - reflexivity.
  - reflexivity.
  - unfold startTestCall.
    destruct (JS.truthy (name (driverInfo w))), (JS.truthy (phone (driverInfo w))),
      (JS.truthy (loadNumber (driverInfo w))); try reflexivity.
    destruct (JS.truthy (agentPrompt w)), (JS.truthy (agentLogic w)); try reflexivity.
    cbn [negb orb andb]. cbv zeta.
    cbn [trace agentPrompt agentLogic setCurrentCallId setCallResults
         setIsCallInProgress].
    match goal with |- context [startCall B ?t ?b] =>
      destruct (startCall B t b) as [r|reason] end; [|reflexivity].
    destruct (success r); reflexivity.
  - apply manualFetchResults_current.
  - unfold syncCallFromRetell.
    destruct (JS.truthy (JS.trim (manualCallId w))) eqn:Hm; [|reflexivity].
    cbn [negb]. cbv zeta.
    change (trace (setIsSyncing true w)) with (trace w).
    destruct (syncCall B (trace w) (JS.trim (manualCallId w))) as [r|reason];
      [|reflexivity].
    destruct (sync_ok r && sync_success r); [|reflexivity].
    cbn [currentCallId setIsSyncing]. rewrite manualFetchResults_current, Hm.
    destruct (getStatus B _ _) as [st|reason]; [destruct (isTerminal st)|]; reflexivity.
  - apply timeoutFires_current.
  - apply pollTick_current.
Qed.

End CurrentCallFacts.

(** C8, as the code has it.  A manual fetch works on the trimmed manual id
    when that is not empty, and otherwise on the component's current call
    id.  Its first request is the status check for that id, and every
    request it makes is about that id.  When the status check is answered
    with a status that is neither [completed] nor [ended], the fetch makes no
    request for the call detail and none for the transcript, tells the user
    that the call is still active, with the status as a template prints it,
    and leaves the displayed result and the current call id as they were.
    The current call id is what [currentCallIdAfter] says: set by a start to
    the id of the call started, reset to none by a start that fails,
    replaced by the manual id by a manual fetch of a call that has ended and
    by a sync that succeeds, and touched by nothing else, neither by a timer
    nor by an answer that arrives. *)
Theorem manualFetchResults_id_and_active (B : Backend) (w : World) (id : string) :
  (if JS.truthy (JS.trim (manualCallId w)) then JS.trim (manualCallId w)
   else match currentCallId w with Some c => c | None => EmptyString end) = id ->
  id <> EmptyString ->
  let w' := handle B ClickFetchResults w in
  (exists evs, since w w' = Requested (GetStatus id) :: evs /\ Forall (concerns id) evs)
  /\ (forall status,
        getStatus B (trace w) id = Body status -> isTerminal status = false ->
        since w w' = [Requested (GetStatus id); Alerted (stillActive B status)]
        /\ countEvents isDetailRequest (since w w') = 0
        /\ countEvents isTranscriptRequest (since w w') = 0
        /\ callResults w' = callResults w
        /\ currentCallId w' = currentCallId w)
  /\ (forall (a : AsyncAction) (aw : AsyncWorld),
        currentCallId (world (asyncHandle B a aw))
        = match a with
          | Other a => currentCallIdAfter B a (world aw)
          | Tick _ | Deliver _ => currentCallId (world aw)
          end).
Proof.
  intros Hid Hne w'.
  assert (Hc : callIdToFetch (manualCallId w) (currentCallId w) = Some id).
  { unfold callIdToFetch. destruct (JS.truthy (JS.trim (manualCallId w))); [now subst|].
    destruct (currentCallId w) as [c|]; [|congruence]. subst c.
    destruct id; [congruence | reflexivity]. }
  destruct (manualFetchResults_events B (manualCallId w) (currentCallId w)
              (driverInfo w) w id Hc) as (evs & Htr & Habout & Hactive).
  subst w'. cbn [handle]. rewrite (since_app _ _ _ Htr). split; [eauto|]. split.
  - intros status Hs Hnt. destruct (Hactive status Hs Hnt) as [-> Hres].
    repeat split; auto.
    rewrite manualFetchResults_current.
    destruct (JS.truthy (JS.trim (manualCallId w))); [|reflexivity].
    rewrite Hid, Hs, Hnt. reflexivity.
  - intros a aw. destruct a as [i|k|a]; cbn [asyncHandle world].
    + apply tick_current.
    + unfold deliver. destruct (pending aw !! k); [apply resume_current | reflexivity].
    + apply handle_current.
Qed.

Lemma manualFetchResults_id_and_active_witness :
  let B := Sample.backend Sample.neverTerminal Sample.detailFound in
  let w := setManualCallId "  call_9 " (setCurrentCallId (Some "call_1") Sample.ready) in
  since w (handle B ClickFetchResults w)
  = [Requested (GetStatus "call_9"); Alerted (stillActive B (Some (JStr "active")))]
  /\ currentCallId (handle B ClickFetchResults w) = Some "call_1".
Proof.
  cbv zeta.
  destruct (manualFetchResults_id_and_active
              (Sample.backend Sample.neverTerminal Sample.detailFound)
              (setManualCallId "  call_9 " (setCurrentCallId (Some "call_1") Sample.ready))
              "call_9")
    as (_ & Hactive & _).
  - vm_compute. reflexivity.
  - discriminate.
  - destruct (Hactive (Some (JStr "active"))) as (Hs & _ & _ & _ & Hcur);
      [reflexivity | reflexivity |].
    split; [exact Hs | exact Hcur].
Defined.

(** C8 fails on "the last-started call id".  One call, [call_1], is started;
    the user fetches [call_9] by hand, which makes it the current call id;
    with the manual field blank again, the next fetch checks [call_9], not
    the call that was started. *)
Lemma blank_manual_uses_fetched_id :
  let B := Sample.backend Sample.alwaysCompleted Sample.detailFound in
  match run B [ClickStartTestCall] Sample.ready with
  | Some w1 =>
      currentCallId w1 = Some "call_1"
      /\ match run B [TypeManualCallId "call_9"; ClickFetchResults;
                      TypeManualCallId EmptyString] w1 with
         | Some w2 =>
             manualCallId w2 = EmptyString
             /\ Sample.startsSoFar (trace w2) = 1
             /\ match run B [ClickFetchResults] w2 with
                | Some w3 =>
                    since w2 w3
                    = [Requested (GetStatus "call_9");
                       Requested (GetCallDetail "call_9");
                       Requested (GetTranscript "call_9");
                       Alerted "Call results fetched successfully!"]
                | None => False
                end
         | None => False
         end
  | None => False
  end.
Proof. vm_compute. repeat split; reflexivity. Qed.

(** * Further properties of the component *)

(** ** The stored phone number *)

Section PhoneShape.

Lemma removeNonDigits_digits (s : string) :
  Forall (fun c => JS.isDigit c = true) (list_ascii_of_string (JS.removeNonDigits s)).
Proof.
  induction s as [|c s IH]; simpl; [constructor|].
  destruct (JS.isDigit c) eqn:E; simpl; [constructor|]; assumption.
Qed.

Lemma substring1_digits (s : string) :
  Forall (fun c => JS.isDigit c = true) (list_ascii_of_string s) ->
  Forall (fun c => JS.isDigit c = true) (list_ascii_of_string (JS.substring 1 s)).
Proof. destruct s; simpl; [auto|]. now inversion 1. Qed.

Lemma formatPhoneNumber_shape (phone : string) :
  canonicalPhone (formatPhoneNumber phone).
Proof.
  unfold formatPhoneNumber, canonicalPhone. cbv zeta.
  pose proof (removeNonDigits_digits phone) as Hd.
  set (d := JS.removeNonDigits phone) in *.
  destruct (JS.startsWith "92" d) eqn:E1.
  { right. exists d. repeat split; [|exact Hd]. destruct d; [discriminate | discriminate]. }
  destruct (JS.startsWith "03" d && (String.length d =? 11)%nat).
  { right. exists ("92" +:+ JS.substring 1 d). repeat split; [discriminate|].
    simpl. repeat constructor. now apply substring1_digits. }
  destruct ((String.length d =? 10)%nat && JS.startsWith "3" d).
  { right. exists ("92" +:+ d). repeat split; [discriminate|].
    simpl. repeat constructor. exact Hd. }
  destruct (JS.truthy d) eqn:E4; [|now left].
  right. exists d. repeat split; [|exact Hd]. destruct d; discriminate.
Qed.

End PhoneShape.

(** X1. Whatever is typed, the normalised phone number is either empty or a
    plus sign followed by at least one digit and by digits only. *)
Theorem formatPhoneNumber_canonical (phone : string) :
  canonicalPhone (formatPhoneNumber phone).
Proof. apply formatPhoneNumber_shape. Qed.

Section FormFacts.

Variable B : Backend.

Lemma sameForm_refl (w : World) : sameForm w w.
Proof. repeat split. Qed.

Lemma sameForm_trans (w1 w2 w3 : World) :
  sameForm w1 w2 -> sameForm w2 w3 -> sameForm w1 w3.
Proof. unfold sameForm. intuition congruence. Qed.

Lemma fetchCallResults_form d id (w : World) :
  sameForm w (fetchCallResults B d id w).
Proof.
  unfold fetchCallResults.
  destruct (getCallDetail B (trace w) id) as [[cd|]|]; repeat split.
Qed.

Lemma startTestCall_form (w : World) : sameForm w (startTestCall B w).
Proof.
  unfold startTestCall.
  destruct (negb _ || negb _ || negb _); [repeat split|].
  destruct (negb _ || negb _); [repeat split|]. cbv zeta.
  destruct (startCall B _ _) as [r|reason]; [destruct (success r)|]; repeat split.
Qed.

Lemma manualFetchResults_form manual current d (w : World) :
  sameForm w (manualFetchResults B manual current d w).
Proof.
  unfold manualFetchResults.
  destruct (callIdToFetch manual current) as [id|]; [|repeat split]. cbv zeta.
  destruct (getStatus B _ id) as [st|reason]; [destruct (isTerminal st)|];
    try (repeat split; fail).
  match goal with |- context [fetchCallResults B d id ?w0] =>
    pose proof (fetchCallResults_form d id w0) as (H1 & H2 & H3 & H4) end.
  destruct (JS.truthy (JS.trim manual)); repeat split; simpl; assumption.
Qed.

Lemma syncCallFromRetell_form (w : World) : sameForm w (syncCallFromRetell B w).
Proof.
  unfold syncCallFromRetell.
  destruct (negb _); [repeat split|]. cbv zeta.
  destruct (syncCall B _ _) as [r|reason]; [destruct (sync_ok r && sync_success r)|];
    try (repeat split; fail).
  match goal with |- context [manualFetchResults B ?m ?c ?d ?w0] =>
    pose proof (manualFetchResults_form m c d w0) as (H1 & H2 & H3 & H4) end.
  repeat split; simpl; assumption.
Qed.

Lemma pollTick_form (i : nat) (w : World) : sameForm w (pollTick B i w).
Proof.
  unfold pollTick. destruct (polls w !! i) as [l|] eqn:Hl; [|repeat split].
  assert (H1 : sameForm w (emit (Requested (GetStatus (pollCallId l)))
                             (setAttempts i (S (attempts l)) w))).
  { unfold setAttempts. rewrite Hl. repeat split. }
  set (w1 := emit _ _) in *.
  assert (H2 : sameForm w (clearInterval i w1)).
  { unfold clearInterval. destruct (polls w1 !! i); [|exact H1].
    destruct H1 as (? & ? & ? & ?). repeat split; assumption. }
  destruct (getStatus B _ _) as [st|reason].
  - destruct (isTerminal st).
    + eapply sameForm_trans; [exact H2 | apply fetchCallResults_form].
    + destruct (maxAttempts <=? _)%nat; [|exact H1].
      eapply sameForm_trans; [|apply fetchCallResults_form].
      destruct H2 as (? & ? & ? & ?). repeat split; assumption.
  - destruct (maxAttempts <=? _)%nat; [|exact H1].
    destruct H2 as (? & ? & ? & ?). repeat split; assumption.
Qed.

Lemma timeoutFires_form (i : nat) (w : World) : sameForm w (timeoutFires i w).
Proof.
  unfold timeoutFires. destruct (timeouts w !! i); repeat split.
Qed.

End FormFacts.

Section AsyncFormFacts.

Variable B : Backend.

Lemma tick_form (i : nat) (aw : AsyncWorld) : sameForm (world aw) (world (tick B i aw)).
Proof.
  unfold tick. destruct (polls (world aw) !! i) as [l|] eqn:Hl; [|repeat split].
  cbn [world]. unfold setAttempts. rewrite Hl. repeat split.
Qed.

Lemma clearInterval_form (i : nat) (w : World) : sameForm w (clearInterval i w).
Proof. unfold clearInterval. destruct (polls w !! i); repeat split. Qed.

Lemma resume_form (p : Pending) (w : World) (ps : list Pending) :
  sameForm w (world (resume B p w ps)).
Proof.
  destruct p as [i r|d id r|d id cd pt]; unfold resume, fetchStart.
  - destruct (polls w !! i) as [l|]; [|repeat split].
    pose proof (clearInterval_form i w) as (H1 & H2 & H3 & H4).
    destruct r as [st|reason].
    + destruct (isTerminal st); [repeat split; assumption|].
      destruct (maxAttempts <=? attempts l)%nat; repeat split; assumption.
    + destruct (maxAttempts <=? attempts l)%nat; repeat split; assumption.
  - destruct r as [cd|reason]; repeat split.
  - destruct cd; repeat split.
Qed.

Lemma deliver_form (k : nat) (aw : AsyncWorld) :
  sameForm (world aw) (world (deliver B k aw)).
Proof.
  unfold deliver. destruct (pending aw !! k); [apply resume_form | repeat split].
Qed.

Lemma asyncHandle_phone (a : AsyncAction) (aw : AsyncWorld) :
  phone (driverInfo (world (asyncHandle B a aw)))
  = typedPhone [a] (phone (driverInfo (world aw))).
Proof.
  destruct a as [i|k|[f v|v|p g| | | |j|j]]; cbn [asyncHandle world handle typedPhone].
  - now rewrite (proj1 (tick_form i aw)).
  - now rewrite (proj1 (deliver_form k aw)).
  - destruct f; reflexivity.
  - reflexivity.
  - destruct p; reflexivity.
  - now rewrite (proj1 (startTestCall_form B (world aw))).
  - now rewrite (proj1 (manualFetchResults_form B _ _ _ (world aw))).
  - now rewrite (proj1 (syncCallFromRetell_form B (world aw))).
  - now rewrite (proj1 (timeoutFires_form j (world aw))).
  - now rewrite (proj1 (pollTick_form B j (world aw))).
Qed.

Lemma typedPhone_cons (a : AsyncAction) (actions : list AsyncAction) (p : string) :
  typedPhone (a :: actions) p = typedPhone actions (typedPhone [a] p).
Proof. destruct a as [i|k|[f v|v|q g| | | |j|j]]; try reflexivity. destruct f; reflexivity. Qed.

Lemma typedPhone_canonical (actions : list AsyncAction) (p : string) :
  canonicalPhone p -> canonicalPhone (typedPhone actions p).
Proof.
  revert p. induction actions as [|a actions IH]; intros p Hp; [exact Hp|].
  rewrite typedPhone_cons. apply IH.
  destruct a as [i|k|[f v|v|q g| | | |j|j]]; try exact Hp.
  destruct f; simpl; [exact Hp | apply formatPhoneNumber_shape | exact Hp].
Qed.

End AsyncFormFacts.

(** X2. In every session, taken request by request, the stored phone number
    changes only when something is typed in the phone field, and what is
    typed is normalised first: after the session it is the normalisation of
    what was typed there last, and what it was before if nothing was typed
    there; no other handler, no timer and no answer of the backend touches
    it.  So a stored phone number of the canonical shape (the mounted
    component has the empty one) keeps that shape. *)
Theorem stored_phone_canonical (B : Backend) (actions : list AsyncAction) :
  forall aw aw' : AsyncWorld,
    asyncRun B actions aw = Some aw' ->
    phone (driverInfo (world aw')) = typedPhone actions (phone (driverInfo (world aw)))
    /\ (canonicalPhone (phone (driverInfo (world aw))) ->
        canonicalPhone (phone (driverInfo (world aw')))).
Proof.
  assert (Heq : forall actions aw aw',
            asyncRun B actions aw = Some aw' ->
            phone (driverInfo (world aw'))
            = typedPhone actions (phone (driverInfo (world aw)))).
  { clear actions. induction actions as [|a actions IH]; intros aw aw' Hrun.
    - inversion Hrun; subst. reflexivity.
    - cbn [asyncRun] in Hrun. destruct (asyncEnabled aw a); [|discriminate].
      rewrite (IH _ _ Hrun), asyncHandle_phone. symmetry. apply typedPhone_cons. }
  intros aw aw' Hrun. split; [now apply Heq|].
  intros Hc. rewrite (Heq _ _ _ Hrun). now apply typedPhone_canonical.
Qed.

Lemma stored_phone_canonical_witness :
  match asyncRun (Sample.backend Sample.neverTerminal Sample.detailFound)
          [Other (TypeIn PhoneField "0300-765 4321"); Other ClickStartTestCall;
           Other (TimeoutFires 0); Tick 0; Deliver 0]
          (settled Sample.ready) with
  | Some aw => phone (driverInfo (world aw)) = "+923007654321"
               /\ canonicalPhone (phone (driverInfo (world aw)))
  | None => False
  end.
Proof.
  destruct (asyncRun _ _ _) as [aw|] eqn:Hrun; [|vm_compute in Hrun; discriminate].
  destruct (stored_phone_canonical _ _ _ _ Hrun) as [Heq Hc].
  split; [rewrite Heq; reflexivity|].
  apply Hc. right. exists "923001234567".
  repeat split; [discriminate | repeat constructor].
Defined.

(** ** Starting a call *)

(** X3. With a driver field left empty, or the agent's prompt or logic not
    configured, [startTestCall] sends no request and changes nothing: all it
    does is one alert, about the driver information if that is incomplete,
    about the agent otherwise. *)
Theorem startTestCall_incomplete (B : Backend) (w : World) :
  let d := driverInfo w in
  let filled := JS.truthy (name d) && JS.truthy (phone d) && JS.truthy (loadNumber d) in
  let configured := JS.truthy (agentPrompt w) && JS.truthy (agentLogic w) in
  filled && configured = false ->
  startTestCall B w
  = alert (if filled then "Please configure the agent first"
           else "Please fill in all driver information fields") w.
Proof.
  intros d filled configured H. subst d filled configured. unfold startTestCall.
  destruct (JS.truthy (name (driverInfo w))), (JS.truthy (phone (driverInfo w))),
    (JS.truthy (loadNumber (driverInfo w))); simpl in *; try reflexivity.
  destruct (JS.truthy (agentPrompt w)), (JS.truthy (agentLogic w)); simpl in *;
    try reflexivity; discriminate.
Qed.

Lemma startTestCall_incomplete_witness :
  startTestCall (Sample.backend Sample.neverTerminal Sample.detailFound)
    (setDriverInfo Sample.ali initialWorld)
  = alert "Please configure the agent first" (setDriverInfo Sample.ali initialWorld).
Proof.
  apply (startTestCall_incomplete (Sample.backend Sample.neverTerminal Sample.detailFound)
           (setDriverInfo Sample.ali initialWorld)).
  reflexivity.
Defined.

(** X4. When the form is complete and the backend answers the start request
    with [success], [startTestCall] sends that one request, carrying the
    stored driver fields and the agent's configuration, and alerts once; the
    current call id is the new call's id, the displayed result is
    [basicResults] with the access token, one pending timeout of 5000 ms for
    the new call is added after those there, no poll loop is touched, and the
    start button is enabled again. *)
Theorem startTestCall_success (B : Backend) (w : World) (r : StartResult) :
  let d := driverInfo w in
  let body := {| driver_name := name d; phone_number := phone d;
                 load_number := loadNumber d;
                 agent_prompt := agentPrompt w; agent_logic := agentLogic w |} in
  JS.truthy (name d) && JS.truthy (phone d) && JS.truthy (loadNumber d) = true ->
  JS.truthy (agentPrompt w) && JS.truthy (agentLogic w) = true ->
  startCall B (trace w) body = Body r ->
  success r = true ->
  let w' := startTestCall B w in
  (exists notice, since w w' = [Requested (StartCall body); Alerted notice])
  /\ currentCallId w' = Some (call_id r)
  /\ (exists t, callResults w' = Some (basicResults d r t))
  /\ timeouts w' = timeouts w ++ [{| timeoutCallId := call_id r; timeoutDelay := 5000;
                                     timeoutDriverInfo := d; fired := false |}]
  /\ polls w' = polls w
  /\ isCallInProgress w' = false.
Proof.
  intros d body Hf Hc Hs Hok w'. subst w' d. unfold startTestCall.
  apply andb_true_iff in Hf as [Hf H3]. apply andb_true_iff in Hf as [H1 H2].
  apply andb_true_iff in Hc as [H4 H5].
  rewrite H1, H2, H3, H4, H5. cbn [negb orb]. cbv zeta.
  change (trace (setCurrentCallId None (setCallResults None (setIsCallInProgress true w))))
    with (trace w).
  change (agentPrompt (setCurrentCallId None (setCallResults None (setIsCallInProgress true w))))
    with (agentPrompt w).
  change (agentLogic (setCurrentCallId None (setCallResults None (setIsCallInProgress true w))))
    with (agentLogic w).
  fold body. rewrite Hs, Hok.
  repeat split; try reflexivity.
  - eexists. apply since_app. simpl. rewrite <- app_assoc. reflexivity.
  - eexists. reflexivity.
Qed.

Lemma startTestCall_success_witness :
  currentCallId (startTestCall (Sample.backend Sample.neverTerminal Sample.detailFound)
                   Sample.ready) = Some "call_1".
Proof.
  destruct (startTestCall_success (Sample.backend Sample.neverTerminal Sample.detailFound)
              Sample.ready
              {| success := true; call_id := "call_1"; token := "tok";
                 agent_id := "agent_1"; error := None |}
              eq_refl eq_refl eq_refl eq_refl) as (_ & H & _).
  exact H.
Defined.

(** X5. When the form is complete but the start request fails, or is
    answered without [success], [startTestCall] has already wiped the
    displayed result and the current call id, and leaves them wiped; it adds no
    timer, alerts once with [Call failed: ] and the reason, and enables the
    start button again. *)
Theorem startTestCall_failure (B : Backend) (w : World) :
  let d := driverInfo w in
  let body := {| driver_name := name d; phone_number := phone d;
                 load_number := loadNumber d;
                 agent_prompt := agentPrompt w; agent_logic := agentLogic w |} in
  JS.truthy (name d) && JS.truthy (phone d) && JS.truthy (loadNumber d) = true ->
  JS.truthy (agentPrompt w) && JS.truthy (agentLogic w) = true ->
  match startCall B (trace w) body with
  | Body r => success r = false
  | Rejected _ => True
  end ->
  let w' := startTestCall B w in
  since w w'
  = [Requested (StartCall body);
     Alerted ("Call failed: "
              +:+ match startCall B (trace w) body with
                  | Body r => orDefault (error r) "Failed to start call"
                  | Rejected reason => reason
                  end)]
  /\ callResults w' = None
  /\ currentCallId w' = None
  /\ timeouts w' = timeouts w
  /\ polls w' = polls w
  /\ isCallInProgress w' = false.
Proof.
  intros d body Hf Hc Hs w'. subst w' d. unfold startTestCall.
  apply andb_true_iff in Hf as [Hf H3]. apply andb_true_iff in Hf as [H1 H2].
  apply andb_true_iff in Hc as [H4 H5].
  rewrite H1, H2, H3, H4, H5. cbn [negb orb]. cbv zeta.
  change (trace (setCurrentCallId None (setCallResults None (setIsCallInProgress true w))))
    with (trace w).
  change (agentPrompt (setCurrentCallId None (setCallResults None (setIsCallInProgress true w))))
    with (agentPrompt w).
  change (agentLogic (setCurrentCallId None (setCallResults None (setIsCallInProgress true w))))
    with (agentLogic w).
  fold body.
  destruct (startCall B (trace w) body) as [r|reason]; [rewrite Hs|];
    (repeat split; try reflexivity);
    apply since_app; simpl; rewrite <- app_assoc; reflexivity.
Qed.

Lemma startTestCall_failure_witness :
  callResults
    (startTestCall
       {| JSON_parse := JSON.parse; Date_parse := fun _ => None;
          String_of := fun _ => EmptyString;
          now := fun _ => EmptyString;
          startCall := fun _ _ => Rejected "Failed to fetch";
          getStatus := Sample.neverTerminal; getCallDetail := Sample.detailFound;
          getTranscript := fun _ _ => None;
          syncCall := fun _ _ => Rejected "Failed to fetch" |}
       Sample.ready) = None.
Proof.
  match goal with |- callResults (startTestCall ?B _) = _ =>
    destruct (startTestCall_failure B Sample.ready eq_refl eq_refl I) as (_ & H & _) end.
  exact H.
Defined.

(** ** Fetching the results *)

(** X6. [fetchCallResults] always leaves a result to display, for the call
    asked for and with a status that is not empty, whatever the backend
    answers.  It asks once for the call detail, and once for the transcript
    if and only if the detail was answered; with a call record in the answer,
    the result is the formatted one whether or not there is a processed
    transcript.  It touches neither the current call id nor any timer. *)
Theorem fetchCallResults_effect (B : Backend) (d : DriverInfo) (id : string) (w : World) :
  let w' := fetchCallResults B d id w in
  (exists r, callResults w' = Some r /\ callId r = id /\ resultStatus r <> EmptyString
             /\ match getCallDetail B (trace w) id with
                | Body (Some callData) =>
                    r = formattedResults B d id callData
                          (getTranscript B (trace w ++ [Requested (GetCallDetail id)]) id)
                | _ => exists t, r = degradedResult id t
                end)
  /\ countEvents isDetailRequest (since w w') = 1
  /\ countEvents isTranscriptRequest (since w w')
     = (if isAnswered (getCallDetail B (trace w) id) then 1 else 0)
  /\ countEvents isStatusCheck (since w w') = 0
  /\ currentCallId w' = currentCallId w
  /\ polls w' = polls w /\ timeouts w' = timeouts w.
Proof.
  intros w'. subst w'.
  rewrite (since_app _ _ _ (fetchCallResults_trace B d id w)).
  unfold fetchCallResults, fetchEvents.
  destruct (getCallDetail B (trace w) id) as [[cd|]|reason]; simpl;
    (split; [eexists; split; [reflexivity|]|]); repeat split; simpl; eauto;
    try discriminate.
  unfold orDefault. destruct (status cd) as [s|]; [|discriminate].
  destruct s; simpl; discriminate.
Qed.

(** ** Manual lookup and sync *)

(** X7. The panel announces what a click on the fetch button does.  The id
    after [Will fetch:] is the id whose status the click checks first; when
    the panel shows the hint to enter a call id instead, the click sends
    nothing and only alerts.  The line and the hint are never shown together,
    and one of them always is.  The line says [(manual override)] only when
    the id to fetch is the manual one and differs from the current call id,
    and [(current call)] only when the id to fetch is the current call id. *)
Theorem panel_announces_fetch (B : Backend) (w : World) :
  let w' := handle B ClickFetchResults w in
  match willFetch w with
  | Some id =>
      showsNoCallIdHint w = false
      /\ exists evs, since w w' = Requested (GetStatus id) :: evs
  | None =>
      showsNoCallIdHint w = true
      /\ w' = alert "Please enter a call ID or start a new call first." w
  end
  /\ match callSource w with
     | Some ManualOverride =>
         willFetch w = Some (JS.trim (manualCallId w))
         /\ willFetch w <> currentCallId w
     | Some CurrentCall => willFetch w = currentCallId w
     | None => True
     end.
Proof.
  intros w'. subst w'. simpl handle. split; cycle 1.
  { unfold callSource, willFetch.
    destruct (JS.truthy (JS.trim (manualCallId w))) eqn:Em;
      destruct (currentCallId w) as [c|]; simpl; auto.
    - destruct (JS.truthy c); simpl; [|exact I].
      destruct (String.eqb_spec (JS.trim (manualCallId w)) c); simpl; [exact I|].
      split; [reflexivity | congruence].
    - destruct (JS.truthy c); simpl; [reflexivity | exact I]. }
  assert (Hw : willFetch w = callIdToFetch (manualCallId w) (currentCallId w))
    by reflexivity.
  destruct (willFetch w) as [id|] eqn:E.
  - split.
    + unfold willFetch, showsNoCallIdHint, currentTruthy in *.
      destruct (JS.truthy (JS.trim (manualCallId w))); [reflexivity|].
      destruct (currentCallId w) as [c|]; [|discriminate].
      destruct (JS.truthy c); [reflexivity | discriminate].
    + destruct (manualFetchResults_events B (manualCallId w) (currentCallId w)
                  (driverInfo w) w id (eq_sym Hw)) as (evs & Htr & _).
      exists evs. now apply since_app.
  - split.
    + unfold willFetch, showsNoCallIdHint, currentTruthy in *.
      destruct (JS.truthy (JS.trim (manualCallId w))); [discriminate|].
      destruct (currentCallId w) as [c|]; [|reflexivity].
      destruct (JS.truthy c); [discriminate | reflexivity].
    + unfold manualFetchResults. now rewrite <- Hw.
Qed.

(** X8. When the status check of a manual fetch fails, nothing is fetched:
    the one request is the status check, the user is told that the status of
    that id could not be checked, and the displayed result, the current call
    id and the timers are as before; the fetch button is enabled again. *)
Theorem manualFetchResults_status_fails
  (B : Backend) (manual : string) (current : option string) (d : DriverInfo)
  (w : World) (id reason : string) :
  callIdToFetch manual current = Some id ->
  getStatus B (trace w) id = Rejected reason ->
  let w' := manualFetchResults B manual current d w in
  since w w'
  = [Requested (GetStatus id);
     Alerted ("Failed to check call status for " +:+ id
              +:+ ". Please verify the call ID is correct.")]
  /\ callResults w' = callResults w
  /\ currentCallId w' = currentCallId w
  /\ polls w' = polls w /\ timeouts w' = timeouts w
  /\ isFetchingResults w' = false.
Proof.
  intros Hid Hs w'. subst w'. unfold manualFetchResults. rewrite Hid. cbv zeta.
  change (trace (setIsFetchingResults true w)) with (trace w). rewrite Hs.
  repeat split. apply since_app. simpl. now rewrite <- app_assoc.
Qed.

Lemma manualFetchResults_status_fails_witness :
  callResults
    (manualFetchResults (Sample.backend Sample.lastCheckFails Sample.detailFound)
       "call_9" None Sample.ali
       (ticks (Sample.backend Sample.neverTerminal Sample.detailFound) 0 59
          (pollForCallCompletion Sample.ali "call_1" Sample.ready)))
  = None.
Proof.
  match goal with |- callResults (manualFetchResults ?B ?m ?c ?d ?w) = _ =>
    destruct (manualFetchResults_status_fails B m c d w "call_9" "Failed to fetch")
      as (_ & H & _) end.
  - reflexivity.
  - vm_compute. reflexivity.
  - rewrite H. vm_compute. reflexivity.
Defined.

(** X9. When the status check of a manual fetch is answered with
    [completed] or [ended], the results are fetched once, for the same id, and
    the user is told so.  The id becomes the current call id if it came from
    the manual field; if the field was blank the current call id stays. *)
Theorem manualFetchResults_terminal
  (B : Backend) (manual : string) (current : option string) (d : DriverInfo)
  (w : World) (id : string) (status : option JValue) :
  callIdToFetch manual current = Some id ->
  getStatus B (trace w) id = Body status ->
  isTerminal status = true ->
  let w' := manualFetchResults B manual current d w in
  (exists r, callResults w' = Some r /\ callId r = id)
  /\ countEvents isStatusCheck (since w w') = 1
  /\ countEvents isDetailRequest (since w w') = 1
  /\ last (since w w') = Some (Alerted "Call results fetched successfully!")
  /\ currentCallId w'
     = (if JS.truthy (JS.trim manual) then Some id else currentCallId w)
  /\ isFetchingResults w' = false.
Proof.
  intros Hid Hs Hterm w'. subst w'. unfold manualFetchResults.
  rewrite Hid. cbv zeta.
  change (trace (setIsFetchingResults true w)) with (trace w). rewrite Hs, Hterm.
  set (w1 := emit (Requested (GetStatus id)) (setIsFetchingResults true w)).
  destruct (fetchCallResults_effect B d id w1)
    as ((r & Hr & Hcall & _) & _ & _ & _ & Hcur & _).
  pose proof (fetchCallResults_trace B d id w1) as Htr.
  destruct (fetchEvents_count B w1 id) as [Hdet Hst].
  assert (Hsince : forall w2,
            trace w2 = trace (fetchCallResults B d id w1)
                       ++ [Alerted "Call results fetched successfully!"] ->
            since w w2 = Requested (GetStatus id) :: fetchEvents B w1 id
                         ++ [Alerted "Call results fetched successfully!"]).
  { intros w2 E. apply since_app. rewrite E, Htr. subst w1. simpl.
    now rewrite <- !app_assoc. }
  assert (Hlast : forall evs : list Event,
            last (Requested (GetStatus id) :: evs
                  ++ [Alerted "Call results fetched successfully!"])
            = Some (Alerted "Call results fetched successfully!")).
  { intros evs. change (Requested (GetStatus id) :: evs ++ ?x)
      with ((Requested (GetStatus id) :: evs) ++ x). apply last_snoc. }
  set (fetched := Alerted "Call results fetched successfully!") in *.
  assert (Hc1 : countEvents isStatusCheck
                  (Requested (GetStatus id) :: fetchEvents B w1 id ++ [fetched]) = 1).
  { change (1 + countEvents isStatusCheck (fetchEvents B w1 id ++ [fetched]) = 1).
    now rewrite countEvents_app, Hst. }
  assert (Hc2 : countEvents isDetailRequest
                  (Requested (GetStatus id) :: fetchEvents B w1 id ++ [fetched]) = 1).
  { change (0 + countEvents isDetailRequest (fetchEvents B w1 id ++ [fetched]) = 1).
    now rewrite countEvents_app, Hdet. }
  destruct (JS.truthy (JS.trim manual));
    (split; [exists r; split; [exact Hr | exact Hcall]|]);
    match goal with |- context [since w ?w2] =>
      rewrite (Hsince w2) by reflexivity end;
    rewrite Hc1, Hc2, Hlast; repeat split; try reflexivity.
  simpl. exact Hcur.
Qed.

Lemma manualFetchResults_terminal_witness :
  currentCallId
    (manualFetchResults (Sample.backend Sample.alwaysCompleted Sample.detailFound)
       " call_9" (Some "call_1") Sample.ali Sample.ready)
  = Some "call_9".
Proof.
  destruct (manualFetchResults_terminal
              (Sample.backend Sample.alwaysCompleted Sample.detailFound)
              " call_9" (Some "call_1") Sample.ali Sample.ready "call_9"
              (Some (JStr "completed")))
    as (_ & _ & _ & _ & H & _).
  - vm_compute. reflexivity.
  - reflexivity.
  - reflexivity.
  - rewrite H. vm_compute. reflexivity.
Defined.

(** X10. The sync button takes a click only with a call id in the manual
    field, so a click always sends the sync request for the trimmed id.  When
    the request fails, or is answered without [ok] and [success], nothing
    else is requested: the user is told [Failed to sync call: ] with the
    reason (the answer's [detail], else its [message], else
    [Unknown error]), and the current call id and the displayed result are as
    before; the button is enabled again. *)
Theorem syncCallFromRetell_failure (B : Backend) (w : World) :
  enabled w ClickSync = true ->
  let id := JS.trim (manualCallId w) in
  match syncCall B (trace w) id with
  | Body r => sync_ok r && sync_success r = false
  | Rejected _ => True
  end ->
  let w' := syncCallFromRetell B w in
  since w w'
  = [Requested (SyncCall id);
     Alerted ("Failed to sync call: "
              +:+ match syncCall B (trace w) id with
                  | Body r => orDefault (detail r) (orDefault (message r) "Unknown error")
                  | Rejected reason => reason
                  end)]
  /\ currentCallId w' = currentCallId w
  /\ callResults w' = callResults w
  /\ isSyncing w' = false.
Proof.
  intros Hen id Hs w'. subst w'. unfold syncCallFromRetell.
  simpl in Hen. apply andb_true_iff in Hen as [_ Hid]. fold id in Hid |- *.
  rewrite Hid. cbn [negb]. cbv zeta.
  change (trace (setIsSyncing true w)) with (trace w).
  destruct (syncCall B (trace w) id) as [r|reason]; [rewrite Hs|];
    (repeat split; try reflexivity);
    apply since_app; simpl; rewrite <- app_assoc; reflexivity.
Qed.

Lemma syncCallFromRetell_failure_witness :
  currentCallId
    (syncCallFromRetell (Sample.backend Sample.neverTerminal Sample.detailFound)
       (setManualCallId "call_9" Sample.ready))
  = None.
Proof.
  match goal with |- currentCallId (syncCallFromRetell ?B ?w) = _ =>
    destruct (syncCallFromRetell_failure B w eq_refl I) as (_ & H & _) end.
  rewrite H. reflexivity.
Defined.

(** X11. When the sync request is answered with [ok] and [success], the
    user is told that the call was synced, and a manual fetch of the same id
    follows: the status of that id is checked next, every later request is
    about that id, and the id is the current call id at the end, whatever the
    status is; the button is enabled again. *)
Theorem syncCallFromRetell_success (B : Backend) (w : World) (r : SyncResult) :
  enabled w ClickSync = true ->
  let id := JS.trim (manualCallId w) in
  syncCall B (trace w) id = Body r ->
  sync_ok r && sync_success r = true ->
  let w' := syncCallFromRetell B w in
  (exists evs,
     since w w'
     = Requested (SyncCall id)
       :: Alerted ("Call " +:+ id +:+ " synced successfully from Retell AI to database!")
       :: Requested (GetStatus id) :: evs
     /\ Forall (concerns id) evs)
  /\ currentCallId w' = Some id
  /\ isSyncing w' = false.
Proof.
  intros Hen id Hs Hok w'. subst w'. unfold syncCallFromRetell.
  simpl in Hen. apply andb_true_iff in Hen as [_ Hid]. fold id in Hid |- *.
  rewrite Hid. cbn [negb]. cbv zeta.
  change (trace (setIsSyncing true w)) with (trace w). rewrite Hs, Hok.
  set (w1 := setCurrentCallId (Some id) _).
  assert (Hc : callIdToFetch (manualCallId w) (currentCallId w) = Some id).
  { unfold callIdToFetch. fold id. now rewrite Hid. }
  destruct (manualFetchResults_events B (manualCallId w) (currentCallId w)
              (driverInfo w) w1 id Hc) as (evs & Htr & Habout & _).
  split; [|split; [|reflexivity]].
  - exists evs. split; [|exact Habout]. apply since_app.
    simpl trace. rewrite Htr. subst w1. simpl. now rewrite <- !app_assoc.
  - simpl. unfold manualFetchResults. rewrite Hc. cbv zeta.
    destruct (getStatus B _ id) as [st|reason]; [destruct (isTerminal st)|];
      try reflexivity.
    fold id. rewrite Hid. reflexivity.
Qed.

Lemma syncCallFromRetell_success_witness :
  currentCallId
    (syncCallFromRetell
       {| JSON_parse := JSON.parse; Date_parse := fun _ => None;
          String_of := fun _ => EmptyString;
          now := fun _ => EmptyString;
          startCall := fun _ _ => Rejected "Failed to fetch";
          getStatus := Sample.neverTerminal; getCallDetail := Sample.detailFound;
          getTranscript := fun _ _ => None;
          syncCall := fun _ _ =>
            Body {| sync_ok := true; sync_success := true;
                    detail := None; message := None |} |}
       (setManualCallId " call_9 " Sample.ready))
  = Some "call_9".
Proof.
  match goal with |- currentCallId (syncCallFromRetell ?B ?w) = _ =>
    destruct (syncCallFromRetell_success B w
                {| sync_ok := true; sync_success := true;
                   detail := None; message := None |} eq_refl eq_refl eq_refl)
      as (_ & H & _) end.
  rewrite H. vm_compute. reflexivity.
Defined.

(** ** Timers *)

Section LoopFacts.

Variable B : Backend.

(** What a tick does to the list of poll loops: the loop that ticks has made
    one more attempt and may be cleared; a loop that goes on has attempts
    left. *)
Lemma pollTick_polls (i : nat) (w : World) (l : PollLoop) :
  polls w !! i = Some l ->
  exists c : bool,
    polls (pollTick B i w)
    = <[i := {| pollCallId := pollCallId l; period := period l;
                pollDriverInfo := pollDriverInfo l;
                attempts := S (attempts l); cleared := c |}]> (polls w)
    /\ (c = false -> cleared l = false /\ S (attempts l) < maxAttempts).
Proof.
  intros Hl.
  assert (Hlt : i < length (polls w)) by (eapply lookup_lt_Some; eauto).
  unfold pollTick. rewrite Hl.
  set (w1 := emit _ (setAttempts i (S (attempts l)) w)).
  assert (Hp1 : polls w1 = <[i := {| pollCallId := pollCallId l; period := period l;
                                     pollDriverInfo := pollDriverInfo l;
                                     attempts := S (attempts l);
                                     cleared := cleared l |}]> (polls w)).
  { subst w1. unfold setAttempts. now rewrite Hl. }
  clearbody w1.
  assert (Hp2 : polls (clearInterval i w1)
                = <[i := {| pollCallId := pollCallId l; period := period l;
                            pollDriverInfo := pollDriverInfo l;
                            attempts := S (attempts l);
                            cleared := true |}]> (polls w)).
  { unfold clearInterval. rewrite Hp1, list_lookup_insert_eq by exact Hlt.
    simpl. apply list_insert_insert_eq. }
  assert (Hgo : exists c : bool,
            polls w1 = <[i := {| pollCallId := pollCallId l; period := period l;
                                 pollDriverInfo := pollDriverInfo l;
                                 attempts := S (attempts l); cleared := c |}]> (polls w)
            /\ (c = false -> cleared l = false /\ S (attempts l) < maxAttempts)
            \/ (maxAttempts <=? S (attempts l))%nat = true).
  { destruct (Nat.leb_spec maxAttempts (S (attempts l))); [exists true; now right|].
    exists (cleared l). left. split; [exact Hp1 | auto]. }
  assert (Hstop : forall w2, polls w2 = polls (clearInterval i w1) ->
            exists c : bool,
              polls w2 = <[i := {| pollCallId := pollCallId l; period := period l;
                                   pollDriverInfo := pollDriverInfo l;
                                   attempts := S (attempts l); cleared := c |}]> (polls w)
              /\ (c = false -> cleared l = false /\ S (attempts l) < maxAttempts)).
  { intros w2 E. exists true. split; [now rewrite E | discriminate]. }
  destruct Hgo as (c & Hgo).
  destruct (getStatus B _ _) as [st|reason].
  - destruct (isTerminal st).
    + apply Hstop. apply fetchCallResults_timers.
    + destruct (maxAttempts <=? S (attempts l))%nat.
      * apply Hstop. etransitivity; [apply fetchCallResults_timers | reflexivity].
      * destruct Hgo as [Hgo|?]; [eauto | discriminate].
  - destruct (maxAttempts <=? S (attempts l))%nat.
    + now apply Hstop.
    + destruct Hgo as [Hgo|?]; [eauto | discriminate].
Qed.

Lemma firedCount_fire (ts : list Timeout) (k : nat) (t : Timeout) :
  ts !! k = Some t -> fired t = false ->
  firedCount (<[k := {| timeoutCallId := timeoutCallId t; timeoutDelay := timeoutDelay t;
                        timeoutDriverInfo := timeoutDriverInfo t; fired := true |}]> ts)
  = S (firedCount ts).
Proof.
  unfold firedCount. revert k.
  induction ts as [|t0 ts IH]; intros [|k] Hk Hf; simpl in *; try discriminate.
  - inversion Hk; subst. now rewrite Hf.
  - destruct (fired t0); simpl; now rewrite (IH k Hk Hf).
Qed.

Lemma handle_flags_idle (a : Action) (w : World) : idle w -> idle (handle B a w).
Proof.
  intros (H1 & H2 & H3). destruct a as [f v|v|p g| | | |j|j]; simpl.
  - destruct f; repeat split; assumption.
  - repeat split; assumption.
  - repeat split; assumption.
  - unfold startTestCall.
    destruct (negb _ || negb _ || negb _); [repeat split; assumption|].
    destruct (negb _ || negb _); [repeat split; assumption|]. cbv zeta.
    destruct (startCall B _ _) as [r|reason]; [destruct (success r)|];
      repeat split; assumption.
  - unfold manualFetchResults.
    destruct (callIdToFetch _ _) as [id|]; [|repeat split; assumption]. cbv zeta.
    destruct (getStatus B _ id) as [st|reason]; [destruct (isTerminal st)|];
      try (repeat split; assumption).
    match goal with |- context [fetchCallResults B ?d id ?w0] =>
      assert (isCallInProgress (fetchCallResults B d id w0) = isCallInProgress w
              /\ isSyncing (fetchCallResults B d id w0) = isSyncing w) as [E1 E2]
        by (unfold fetchCallResults;
            destruct (getCallDetail B (trace w0) id) as [[cd|]|]; split; reflexivity) end.
    destruct (JS.truthy _); repeat split; simpl; congruence.
  - unfold syncCallFromRetell.
    destruct (negb _); [repeat split; assumption|]. cbv zeta.
    destruct (syncCall B _ _) as [r|reason]; [destruct (sync_ok r && sync_success r)|];
      try (repeat split; assumption).
    set (w1 := setCurrentCallId _ _).
    assert (isCallInProgress (manualFetchResults B (manualCallId w) (currentCallId w)
                                (driverInfo w) w1) = false
            /\ isFetchingResults (manualFetchResults B (manualCallId w) (currentCallId w)
                                    (driverInfo w) w1) = false) as [E1 E2].
    { unfold manualFetchResults.
      destruct (callIdToFetch _ _) as [id|]; [|split; assumption]. cbv zeta.
      destruct (getStatus B _ id) as [st|reason]; [destruct (isTerminal st)|];
        try (split; [assumption | reflexivity]).
      match goal with |- context [fetchCallResults B ?d id ?w0] =>
        assert (isCallInProgress (fetchCallResults B d id w0) = isCallInProgress w) as E
          by (unfold fetchCallResults;
              destruct (getCallDetail B (trace w0) id) as [[cd|]|]; reflexivity) end.
      destruct (JS.truthy _); split; simpl; congruence. }
    repeat split; assumption.
  - unfold timeoutFires. destruct (timeouts w !! j); repeat split; assumption.
  - unfold pollTick. destruct (polls w !! j) as [l|] eqn:Hl; [|repeat split; assumption].
    set (w1 := emit _ (setAttempts j (S (attempts l)) w)).
    assert (I1 : idle w1).
    { subst w1. unfold setAttempts. rewrite Hl. repeat split; assumption. }
    assert (I2 : idle (clearInterval j w1)).
    { unfold clearInterval. destruct (polls w1 !! j); [|exact I1].
      destruct I1 as (? & ? & ?). repeat split; assumption. }
    assert (If : forall d id w2, idle w2 -> idle (fetchCallResults B d id w2)).
    { intros d id w2 (? & ? & ?). unfold fetchCallResults.
      destruct (getCallDetail B (trace w2) id) as [[cd|]|]; repeat split; assumption. }
    destruct (getStatus B _ _) as [st|reason].
    + destruct (isTerminal st); [now apply If|].
      destruct (maxAttempts <=? _)%nat; [|exact I1].
      apply If. destruct I2 as (? & ? & ?). repeat split; assumption.
    + destruct (maxAttempts <=? _)%nat; [|exact I1].
      destruct I2 as (? & ? & ?). repeat split; assumption.
Qed.

End LoopFacts.

(** X12. In every session taken request by request, with ticks, deliveries
    of answers and everything else interleaved in any order, each poll loop
    keeps the period of 5000 ms, and a loop that is still active has made
    fewer attempts than 60 plus the number of its status checks that are not
    answered yet.  So an active loop with no status check outstanding has
    made fewer than 60 attempts: the attempts go beyond 60 only by ticks that
    fire while answers are still awaited. *)
Theorem polls_stay_bounded (B : Backend) (actions : list AsyncAction) :
  forall aw aw' : AsyncWorld,
    asyncBounded aw -> asyncRun B actions aw = Some aw' ->
    asyncBounded aw'
    /\ forall i l, polls (world aw') !! i = Some l -> cleared l = false ->
                   outstanding i (pending aw') = 0 -> attempts l < maxAttempts.
Proof.
  assert (Hinv : forall actions aw aw',
            asyncBounded aw -> asyncRun B actions aw = Some aw' -> asyncBounded aw').
  { clear actions. induction actions as [|a actions IH]; intros aw aw' Hw Hrun;
      simpl in Hrun.
    - now inversion Hrun; subst.
    - destruct (asyncEnabled aw a) eqn:Hen; [|discriminate].
      apply (IH (asyncHandle B a aw)); [|exact Hrun]. clear IH Hrun.
      unfold asyncBounded in *. destruct a as [j|k|a]; cbn [asyncHandle].
      + simpl in Hen. unfold tick.
        destruct (polls (world aw) !! j) as [lj|] eqn:Hj; [|discriminate].
        apply negb_true_iff in Hen.
        destruct (Hw j lj Hj) as [Hper Hb]. specialize (Hb Hen).
        intros i l. cbn [world pending]. simpl polls.
        rewrite (setAttempts_polls _ _ _ _ Hj), outstanding_app.
        rewrite list_lookup_insert. destruct (decide (j = i)) as [->|Hne].
        * case_decide; [|apply lookup_lt_Some in Hj; tauto].
          intros E. inversion E; subst. cbn [period cleared attempts outstanding].
          rewrite Nat.eqb_refl. split; [exact Hper | lia].
        * case_decide; [tauto|]. intros Hl. destruct (Hw i l Hl) as [? Hb'].
          split; [assumption|]. intros Hc. specialize (Hb' Hc). lia.
      + unfold deliver. simpl in Hen.
        destruct (pending aw !! k) as [p|] eqn:Hk; [|discriminate].
        intros i l. rewrite resume_outstanding.
        pose proof (outstanding_delete i k _ _ Hk) as Hdel.
        destruct (resume_polls B p (world aw) (delete k (pending aw)))
          as [[E Hleft]|(j & r & lj & -> & Hj & E)]; rewrite E.
        * intros Hl. destruct (Hw i l Hl) as [Hper Hb]. split; [exact Hper|].
          intros Hc. specialize (Hb Hc).
          destruct p as [j r|d id r|d id cd pt]; simpl in Hdel; try lia.
          destruct (Nat.eqb_spec i j) as [->|Hne]; [|lia].
          pose proof (Hleft j r l eq_refl Hl). lia.
        * rewrite list_lookup_insert. destruct (decide (j = i)) as [->|Hne].
          -- case_decide.
             ++ intros El. inversion El; subst. simpl.
                split; [now destruct (Hw i lj Hj) | discriminate].
             ++ intros Hl. apply lookup_lt_Some in Hj. tauto.
          -- case_decide; [tauto|]. intros Hl. destruct (Hw i l Hl) as [Hper Hb].
             split; [exact Hper|]. intros Hc. specialize (Hb Hc).
             simpl in Hdel. destruct (Nat.eqb_spec i j); [congruence | lia].
      + assert (Ha : forall j, a <> IntervalFires j).
        { intros j ->. simpl in Hen. discriminate. }
        intros i l. cbn [world pending].
        destruct (handle_polls_other B a (world aw) Ha) as [E|(l0 & E & Hper0 & Hat0)];
          rewrite E; [apply Hw|].
        intros Hl. apply lookup_app_Some in Hl as [Hl|[_ Hl]]; [now apply Hw|].
        destruct (i - length (polls (world aw))); simpl in Hl; [|discriminate].
        inversion Hl; subst. split; [exact Hper0|]. intros _. rewrite Hat0.
        unfold maxAttempts. lia. }
  intros aw aw' Hw Hrun. pose proof (Hinv actions aw aw' Hw Hrun) as H'.
  split; [exact H'|]. intros i l Hl Hc Ho. destruct (H' i l Hl) as [_ Hb].
  specialize (Hb Hc). lia.
Qed.

Lemma polls_stay_bounded_witness :
  exists aw,
    asyncRun (Sample.backend Sample.neverTerminal Sample.detailFound)
      (Other ClickStartTestCall :: Other (TimeoutFires 0)
       :: repeat (Tick 0) 61 ++ repeat (Deliver 0) 61)
      (settled Sample.ready) = Some aw
    /\ asyncBounded aw.
Proof.
  eexists. split; [vm_compute; reflexivity|].
  apply (polls_stay_bounded (Sample.backend Sample.neverTerminal Sample.detailFound)
           (Other ClickStartTestCall :: Other (TimeoutFires 0)
            :: repeat (Tick 0) 61 ++ repeat (Deliver 0) 61)
           (settled Sample.ready)).
  - intros i l Hl. destruct i; discriminate Hl.
  - vm_compute. reflexivity.
Defined.

(** X13. When a pending timeout fires, [pollForCallCompletion] sets one new
    poll loop after those there: for the call of the timeout, with the driver
    information captured when that call was started, no attempt made and a
    period of 5000 ms.  Nothing is requested yet, and the timeout cannot fire
    a second time. *)
Theorem timeoutFires_sets_loop (w : World) (k : nat) (t : Timeout) :
  timeouts w !! k = Some t ->
  fired t = false ->
  let w' := timeoutFires k w in
  polls w' = polls w ++ [{| pollCallId := timeoutCallId t; period := 5000;
                            pollDriverInfo := timeoutDriverInfo t;
                            attempts := 0; cleared := false |}]
  /\ active w' (length (polls w)) = true
  /\ enabled w' (TimeoutFires k) = false
  /\ firedCount (timeouts w') = S (firedCount (timeouts w))
  /\ trace w' = trace w.
Proof.
  intros Ht Hf w'. subst w'. unfold timeoutFires. rewrite Ht.
  assert (Hlt : k < length (timeouts w)) by (eapply lookup_lt_Some; eauto).
  repeat split.
  - unfold active, enabled. simpl. now rewrite list_lookup_middle.
  - simpl. now rewrite list_lookup_insert_eq.
  - simpl. now apply firedCount_fire.
Qed.

Lemma timeoutFires_sets_loop_witness :
  map pollCallId
    (polls (timeoutFires 0
              (startTestCall (Sample.backend Sample.neverTerminal Sample.detailFound)
                 Sample.ready)))
  = ["call_1"].
Proof.
  match goal with |- map pollCallId (polls (timeoutFires 0 ?w)) = _ =>
    destruct (timeoutFires_sets_loop w 0
                {| timeoutCallId := "call_1"; timeoutDelay := 5000;
                   timeoutDriverInfo := Sample.ali; fired := false |}
                eq_refl eq_refl) as (H & _) end.
  rewrite H. reflexivity.
Defined.

(** X14. In every session there are exactly as many poll loops as timeouts
    that have fired: a loop is set by a fired timeout only, and by each one
    once; starting a call, fetching, syncing and ticking set none. *)
Theorem loops_match_fired_timeouts (B : Backend) (actions : list Action) :
  forall w w' : World,
    length (polls w) = firedCount (timeouts w) ->
    run B actions w = Some w' ->
    length (polls w') = firedCount (timeouts w').
Proof.
  induction actions as [|a actions IH]; intros w w' Hw Hrun; simpl in Hrun.
  - now inversion Hrun; subst.
  - destruct (enabled w a) eqn:Hen; [|discriminate].
    apply (IH (handle B a w)); [|exact Hrun]. clear IH Hrun.
    destruct a as [f v|v|p g| | | |j|j]; simpl.
    + destruct f; exact Hw.
    + exact Hw.
    + exact Hw.
    + destruct (startTestCall_timers B w) as [-> Hts].
      unfold startTestCall in *.
      destruct (negb _ || negb _ || negb _); [exact Hw|].
      destruct (negb _ || negb _); [exact Hw|]. cbv zeta.
      destruct (startCall B _ _) as [r|reason]; [destruct (success r)|]; simpl;
        try exact Hw.
      unfold firedCount. rewrite List.filter_app, length_app. simpl.
      unfold firedCount in Hw. lia.
    + destruct (manualFetchResults_timers B (manualCallId w) (currentCallId w)
                  (driverInfo w) w) as [-> ->]. exact Hw.
    + destruct (syncCallFromRetell_timers B w) as [-> ->]. exact Hw.
    + simpl in Hen. destruct (timeouts w !! j) as [t|] eqn:Ht; [|discriminate].
      apply negb_true_iff in Hen.
      destruct (timeoutFires_sets_loop w j t Ht Hen) as (-> & _ & _ & -> & _).
      rewrite length_app. simpl. lia.
    + simpl in Hen. destruct (polls w !! j) as [l|] eqn:Hl; [|discriminate].
      destruct (pollTick_polls B j w l Hl) as (c & -> & _).
      rewrite length_insert.
      assert (E : timeouts (pollTick B j w) = timeouts w); [|now rewrite E].
      unfold pollTick. rewrite Hl.
      set (w1 := emit _ (setAttempts j (S (attempts l)) w)).
      assert (E1 : timeouts w1 = timeouts w).
      { subst w1. unfold setAttempts. now rewrite Hl. }
      assert (E2 : timeouts (clearInterval j w1) = timeouts w).
      { unfold clearInterval. destruct (polls w1 !! j); exact E1. }
      destruct (getStatus B _ _) as [st|reason].
      * destruct (isTerminal st).
        -- now rewrite (proj2 (fetchCallResults_timers B _ _ _)).
        -- destruct (maxAttempts <=? _)%nat; [|exact E1].
           now rewrite (proj2 (fetchCallResults_timers B _ _ _)).
      * destruct (maxAttempts <=? _)%nat; [exact E2 | exact E1].
Qed.

Lemma loops_match_fired_timeouts_witness :
  exists w,
    run (Sample.backend Sample.neverTerminal Sample.detailFound)
      [ClickStartTestCall; ClickStartTestCall; TimeoutFires 1; IntervalFires 0]
      Sample.ready = Some w
    /\ length (polls w) = firedCount (timeouts w).
Proof.
  eexists. split; [vm_compute; reflexivity|].
  apply (loops_match_fired_timeouts
           (Sample.backend Sample.neverTerminal Sample.detailFound)
           [ClickStartTestCall; ClickStartTestCall; TimeoutFires 1; IntervalFires 0]
           Sample.ready); [reflexivity | vm_compute; reflexivity].
Defined.

(** X15. No button stays disabled: every handler resets its busy flag on
    each of its ways out, so after any session that started with no handler
    in progress the start button and the fetch button take a click. *)
Theorem buttons_enabled_again (B : Backend) (actions : list Action) :
  forall w w' : World,
    idle w -> run B actions w = Some w' ->
    idle w'
    /\ enabled w' ClickStartTestCall = true
    /\ enabled w' ClickFetchResults = true.
Proof.
  assert (Hidle : forall actions w w', idle w -> run B actions w = Some w' -> idle w').
  { clear actions. induction actions as [|a actions IH]; intros w w' Hw Hrun;
      simpl in Hrun.
    - now inversion Hrun; subst.
    - destruct (enabled w a); [|discriminate].
      apply (IH (handle B a w)); [|exact Hrun]. now apply handle_flags_idle. }
  intros w w' Hw Hrun. pose proof (Hidle actions w w' Hw Hrun) as (H1 & H2 & H3).
  repeat split; try assumption; simpl; [now rewrite H1 | now rewrite H2].
Qed.

Lemma buttons_enabled_again_witness :
  enabled (startTestCall (Sample.backend Sample.neverTerminal Sample.detailFound)
             Sample.ready) ClickStartTestCall = true.
Proof.
  destruct (buttons_enabled_again (Sample.backend Sample.neverTerminal Sample.detailFound)
              [ClickStartTestCall] Sample.ready
              (startTestCall (Sample.backend Sample.neverTerminal Sample.detailFound)
                 Sample.ready)) as (_ & H & _).
  - repeat split.
  - reflexivity.
  - exact H.
Defined.

(** ** Ticks *)

(** X16. The answer of a status check that failed is handled with the
    number of attempts made by then.  While that is below 60 the failure is
    swallowed: its delivery changes nothing, no alert is raised, nothing is
    fetched, the loop stays as it is.  From 60 on the delivery clears the
    loop and raises the notice that the status cannot be got, and fetches
    nothing. *)
Theorem pollTick_swallows_failure
  (B : Backend) (aw : AsyncWorld) (k i : nat) (reason : string) (l : PollLoop) :
  pending aw !! k = Some (StatusPending i (Rejected reason)) ->
  polls (world aw) !! i = Some l ->
  (attempts l < maxAttempts ->
   deliver B k aw = {| world := world aw; pending := delete k (pending aw) |})
  /\ (maxAttempts <= attempts l ->
      stopped (world (deliver B k aw)) i
      /\ since (world aw) (world (deliver B k aw))
         = [Alerted "Unable to get call status. Please try again later."]
      /\ callResults (world (deliver B k aw)) = callResults (world aw)
      /\ pending (deliver B k aw) = delete k (pending aw)).
Proof.
  intros Hk Hl. unfold deliver. rewrite Hk. unfold resume. rewrite Hl.
  assert (Hi : i < length (polls (world aw))) by (eapply lookup_lt_Some; eauto).
  split; intros Ha.
  - destruct (Nat.leb_spec maxAttempts (attempts l)); [lia | reflexivity].
  - destruct (Nat.leb_spec maxAttempts (attempts l)); [|lia].
    cbn [world pending]. repeat split.
    + unfold stopped. simpl polls. rewrite (clearInterval_polls _ _ _ Hl).
      eexists. split; [now apply list_lookup_insert_eq | reflexivity].
    + apply since_app. unfold clearInterval. rewrite Hl. reflexivity.
    + unfold clearInterval. rewrite Hl. reflexivity.
Qed.

Lemma pollTick_swallows_failure_witness :
  let B := Sample.backend (fun _ _ => Rejected "Failed to fetch") Sample.detailFound in
  let aw := tick B 0 (settled (pollForCallCompletion Sample.ali "call_1" Sample.ready)) in
  deliver B 0 aw = {| world := world aw; pending := [] |}.
Proof.
  cbv zeta.
  match goal with |- deliver ?B 0 ?aw = _ =>
    destruct (pollTick_swallows_failure B aw 0 0 "Failed to fetch"
                {| pollCallId := "call_1"; period := 5000; pollDriverInfo := Sample.ali;
                   attempts := 1; cleared := false |} eq_refl eq_refl) as [H _] end.
  apply H. unfold maxAttempts. simpl. lia.
Defined.

(** X17. The result that a poll loop fetches is assembled with the driver
    information captured when the call was started, not with what the form
    holds when the tick fires: at a terminal status with the call record
    found, the displayed result is the formatted one for the loop's own
    driver information, and its driver entries are those. *)
Theorem pollTick_uses_captured_driver
  (B : Backend) (i : nat) (w : World) (l : PollLoop)
  (status : option JValue) (callData : CallData) :
  polls w !! i = Some l ->
  let id := pollCallId l in
  getStatus B (trace w) id = Body status ->
  isTerminal status = true ->
  getCallDetail B (trace w ++ [Requested (GetStatus id)]) id = Body (Some callData) ->
  exists r pt,
    callResults (pollTick B i w) = Some r
    /\ r = formattedResults B (pollDriverInfo l) id callData pt
    /\ keyInformation r !! "Driver Name" = Some (JStr (name (pollDriverInfo l)))
    /\ keyInformation r !! "Load Number" = Some (JStr (loadNumber (pollDriverInfo l)))
    /\ keyInformation r !! "Phone Number" = Some (JStr (phone (pollDriverInfo l))).
Proof.
  intros Hl id Hs Hterm Hd.
  unfold pollTick. rewrite Hl. fold id.
  assert (Ht : trace (setAttempts i (S (attempts l)) w) = trace w).
  { unfold setAttempts. now rewrite Hl. }
  rewrite Ht, Hs, Hterm.
  set (w1 := emit _ (setAttempts i (S (attempts l)) w)).
  assert (Ht1 : trace (clearInterval i w1) = trace w ++ [Requested (GetStatus id)]).
  { unfold clearInterval. destruct (polls w1 !! i); subst w1; simpl; now rewrite Ht. }
  unfold fetchCallResults. rewrite Ht1, Hd.
  eexists. eexists. split; [reflexivity|]. split; [reflexivity|].
  apply extractKeyInformation_driver.
Qed.

Lemma pollTick_uses_captured_driver_witness :
  exists r,
    callResults
      (pollTick (Sample.backend Sample.alwaysCompleted Sample.detailFound) 0
         (handleInputChange NameField "Bilal"
            (pollForCallCompletion Sample.ali "call_1" Sample.ready))) = Some r
    /\ keyInformation r !! "Driver Name" = Some (JStr "Ali").
Proof.
  destruct (pollTick_uses_captured_driver
              (Sample.backend Sample.alwaysCompleted Sample.detailFound) 0
              (handleInputChange NameField "Bilal"
                 (pollForCallCompletion Sample.ali "call_1" Sample.ready))
              {| pollCallId := "call_1"; period := 5000; pollDriverInfo := Sample.ali;
                 attempts := 0; cleared := false |}
              (Some (JStr "completed")) Sample.plainCall eq_refl eq_refl eq_refl eq_refl)
    as (r & pt & Hr & _ & Hn & _).
  exists r. split; [exact Hr | exact Hn].
Defined.

(** ** Durations *)

Section DurationFacts.

Lemma colon_not_unknown (a b : string) : a +:+ ":" +:+ b <> "Unknown".
Proof.
  intros H.
  do 7 (destruct a as [|? a]; simpl in H; [discriminate H | injection H as _ H]).
  destruct a; discriminate H.
Qed.

Lemma two_digits (z : Z) :
  (0 <= z < 60)%Z -> String.length (padStart2 (pretty z)) = 2.
Proof.
  intros Hz.
  assert (Hall : forallb (fun n => (String.length (padStart2 (pretty (Z.of_nat n))) =? 2)%nat)
                   (seq 0 60) = true) by (vm_compute; reflexivity).
  rewrite List.forallb_forall in Hall.
  specialize (Hall (Z.to_nat z)). rewrite Z2Nat.id in Hall by lia.
  apply Nat.eqb_eq, Hall, in_seq. lia.
Qed.

End DurationFacts.

(** X18. The duration is [Unknown] exactly when the start time or the end
    time is missing or empty, whatever the two dates are when both are
    there. *)
Theorem calculateDuration_unknown
  (Date_parse : string -> option Z) (startTime endTime : option string) :
  calculateDuration Date_parse startTime endTime = "Unknown"
  <-> orDefault startTime EmptyString = EmptyString
      \/ orDefault endTime EmptyString = EmptyString.
Proof.
  unfold calculateDuration, orDefault.
  destruct startTime as [[|c s]|]; simpl; try (split; auto; fail);
    destruct endTime as [[|c' e]|]; simpl; try (split; auto; fail).
  split.
  - destruct (Date_parse (String c s)), (Date_parse (String c' e));
      try discriminate. intros H. now apply colon_not_unknown in H.
  - intros [H|H]; discriminate.
Qed.

(** X19. For two dates that parse, the end not before the start and at
    most [maxSafeInteger] milliseconds after it (the range in which the
    arithmetic of the code, on doubles, is exact), the duration is the
    minutes, a colon and the seconds on exactly two characters; the seconds
    are below 60, and minutes and seconds together are the elapsed time
    rounded down to a whole second. *)
Theorem calculateDuration_minutes_seconds
  (Date_parse : string -> option Z) (startTime endTime : string) (start end_ : Z) :
  startTime <> EmptyString -> endTime <> EmptyString ->
  Date_parse startTime = Some start -> Date_parse endTime = Some end_ ->
  (start <= end_)%Z -> (end_ - start <= maxSafeInteger)%Z ->
  exists minutes seconds : Z,
    calculateDuration Date_parse (Some startTime) (Some endTime)
    = pretty minutes +:+ ":" +:+ padStart2 (pretty seconds)
    /\ String.length (padStart2 (pretty seconds)) = 2
    /\ (0 <= minutes)%Z /\ (0 <= seconds < 60)%Z
    /\ ((minutes * 60 + seconds) * 1000 <= end_ - start
        < (minutes * 60 + seconds) * 1000 + 1000)%Z.
Proof.
  intros Hs He Hps Hpe Hle _.
  unfold calculateDuration.
  destruct startTime as [|c s]; [congruence|]. destruct endTime as [|c' e]; [congruence|].
  cbn [JS.truthy negb orb]. rewrite Hps, Hpe.
  set (d := (end_ - start)%Z).
  assert (Hd : (0 <= d)%Z) by (subst d; lia).
  rewrite Z.rem_mod_nonneg by lia.
  pose proof (Z.mod_pos_bound d 60000 ltac:(lia)) as Hm.
  pose proof (Z.div_mod d 60000 ltac:(lia)) as Hdm.
  pose proof (Z.div_mod (d mod 60000) 1000 ltac:(lia)) as Hsm.
  pose proof (Z.mod_pos_bound (d mod 60000) 1000 ltac:(lia)) as Hsb.
  assert (Hsec : (0 <= d mod 60000 / 1000 < 60)%Z).
  { split; [apply Z.div_pos; lia | apply Z.div_lt_upper_bound; lia]. }
  exists (d / 60000)%Z, (d mod 60000 / 1000)%Z.
  split; [reflexivity|]. split; [now apply two_digits|].
  split; [apply Z.div_pos; lia|]. split; [exact Hsec | lia].
Qed.

Lemma calculateDuration_minutes_seconds_witness :
  exists minutes seconds : Z,
    calculateDuration (fun s => if String.eqb s "T" then Some 1000%Z else Some 126000%Z)
      (Some "T") (Some "T+125s")
    = pretty minutes +:+ ":" +:+ padStart2 (pretty seconds)
    /\ ((minutes * 60 + seconds) * 1000 <= 125000
        < (minutes * 60 + seconds) * 1000 + 1000)%Z.
Proof.
  destruct (calculateDuration_minutes_seconds
              (fun s => if String.eqb s "T" then Some 1000%Z else Some 126000%Z)
              "T" "T+125s" 1000 126000) as (m & s & H & _ & _ & _ & Hb);
    [discriminate | discriminate | reflexivity | reflexivity | lia
     | unfold maxSafeInteger; lia |].
  exists m, s. split; [exact H | exact Hb].
Defined.

(** ** Free-form transcripts *)

Section FreeFormFacts.

Lemma chars_nonempty (s : string) : Forall (fun ch => ch <> EmptyString) (JS.chars s).
Proof.
  induction s as [|c s IH]; simpl; [constructor|].
  destruct (JS.chars s) as [|h t]; [repeat constructor; discriminate|].
  inversion IH; subst.
  destruct (JS.startsWithContinuation h); repeat constructor;
    try discriminate; assumption.
Qed.

Lemma takeWhile_Forall {A} (P : A -> Prop) (p : A -> bool) (l : list A) :
  Forall P l -> Forall P (JS.takeWhile p l).
Proof.
  induction 1 as [|x l Hx Hl IH]; simpl; [constructor|].
  destruct (p x); constructor; assumption.
Qed.

Lemma dropWhile_Forall {A} (P : A -> Prop) (p : A -> bool) (l : list A) :
  Forall P l -> Forall P (JS.dropWhile p l).
Proof.
  induction 1 as [|x l Hx Hl IH]; simpl; [constructor|].
  destruct (p x); [assumption | now constructor].
Qed.

Lemma dotPlus_nonempty (cs : list string) (m : string) :
  Forall (fun ch => ch <> EmptyString) cs -> dotPlus cs = Some m -> m <> EmptyString.
Proof.
  intros Hcs. unfold dotPlus.
  pose proof (takeWhile_Forall _ (fun ch => negb (JS.isLineTerminator ch)) cs Hcs) as H.
  destruct (JS.takeWhile _ cs) as [|ch rest]; [discriminate|].
  intros E. inversion E; subst. inversion H; subst.
  simpl. destruct ch; [congruence | discriminate].
Qed.

Lemma giveBack_nonempty (taken rest : list string) (m : string) :
  Forall (fun ch => ch <> EmptyString) taken ->
  Forall (fun ch => ch <> EmptyString) rest ->
  giveBack taken rest = Some m -> m <> EmptyString.
Proof.
  revert rest. induction taken as [|t taken IH]; intros rest Ht Hr; simpl.
  - destruct (dotPlus rest) eqn:E; [|discriminate].
    intros E'. inversion E'; subst. eapply dotPlus_nonempty; eauto.
  - destruct (dotPlus rest) eqn:E.
    + intros E'. inversion E'; subst. eapply dotPlus_nonempty; eauto.
    + inversion Ht; subst. apply IH; [assumption | now constructor].
Qed.

Lemma spacesThenText_nonempty (s m : string) :
  spacesThenText s = Some m -> m <> EmptyString.
Proof.
  unfold spacesThenText. apply giveBack_nonempty.
  - apply Forall_rev, takeWhile_Forall, chars_nonempty.
  - apply dropWhile_Forall, chars_nonempty.
Qed.

Lemma matchIgnoreCase_upper (pat s matched rest : string) :
  matchIgnoreCase pat s = Some (matched, rest) ->
  upperCase matched = upperCase pat.
Proof.
  revert s matched rest. induction pat as [|p pat IH]; intros s matched rest; simpl.
  - intros E. now inversion E.
  - destruct s as [|c s]; [discriminate|].
    destruct (Ascii.eqb_spec (JS.toUpperCase p) (JS.toUpperCase c)) as [Hpc|]; [|discriminate].
    destruct (matchIgnoreCase pat s) as [[m r]|] eqn:E; [|discriminate].
    intros E'. inversion E'; subst. simpl. rewrite (IH _ _ _ E). now rewrite Hpc.
Qed.

Lemma matchLabels_spoken (labels : list string) (line speaker message : string) :
  matchLabels labels line = Some (speaker, message) ->
  message <> EmptyString
  /\ exists label, In label labels /\ upperCase speaker = upperCase label.
Proof.
  induction labels as [|label labels IH]; simpl; [discriminate|].
  assert (Hnext : matchLabels labels line = Some (speaker, message) ->
                  message <> EmptyString
                  /\ exists l, (label = l \/ In l labels)
                               /\ upperCase speaker = upperCase l).
  { intros E. destruct (IH E) as (Hm & l & Hin & Hu). split; [exact Hm|]. eauto. }
  destruct (matchIgnoreCase label line) as [[sp [|c rest]]|] eqn:E; try exact Hnext.
  destruct (Ascii.eqb c ":"); [|exact Hnext].
  destruct (spacesThenText rest) as [msg|] eqn:Em; [|exact Hnext].
  intros E'. inversion E'; subst. split.
  - eapply spacesThenText_nonempty; eauto.
  - exists label. split; [now left|]. eapply matchIgnoreCase_upper; eauto.
Qed.

Lemma formatLine_spoken (line : string) : Forall spokenEntry (formatLine line).
Proof.
  unfold formatLine. destruct (JS.truthy (JS.trim line)) eqn:Et; [|constructor].
  destruct (speakerMatch (JS.trim line)) as [[speaker message]|] eqn:E.
  - repeat constructor. exists speaker, message.
    destruct (matchLabels_spoken _ _ _ _ E) as [Hm Hl]. auto.
  - repeat constructor. exists "System", (JS.trim line).
    repeat split; [|now left]. destruct (JS.trim line); [discriminate | discriminate].
Qed.

Lemma formatPlainText_spoken (raw : string) :
  raw <> EmptyString -> Forall spokenEntry (formatPlainText raw).
Proof.
  intros Hne. unfold formatPlainText.
  assert (H : Forall spokenEntry (flat_map formatLine (JS.splitLines raw))).
  { induction (JS.splitLines raw) as [|l ls IH]; simpl; [constructor|].
    apply Forall_app. split; [apply formatLine_spoken | exact IH]. }
  destruct (0 <? length _)%nat; [exact H|].
  repeat constructor. exists "System", raw. repeat split; [exact Hne | now left].
Qed.

Lemma splitLines_nonempty (s : string) : JS.splitLines s <> [].
Proof.
  destruct s as [|c s]; simpl; [discriminate|].
  destruct (Ascii.eqb c "010"); [discriminate|].
  destruct (JS.splitLines s); discriminate.
Qed.

Lemma splitLines_app (a b : string) :
  JS.splitLines (a +:+ nl +:+ b) = JS.splitLines a ++ JS.splitLines b.
Proof.
  induction a as [|c a IH]; simpl; [reflexivity|].
  destruct (Ascii.eqb c "010"); [now rewrite IH|].
  rewrite IH. pose proof (splitLines_nonempty a) as Hne.
  destruct (JS.splitLines a) as [|l ls]; [congruence | reflexivity].
Qed.

End FreeFormFacts.

(** X20. Whenever [formatTranscript] does not return a parsed JSON array,
    every entry it returns for a transcript that is not empty has a message
    that is not empty and a speaker that is [System] or one of [Agent],
    [Driver], [Assistant], [User], [Human] in the case the text wrote it
    in. *)
Theorem formatTranscript_entries_spoken
  (parse : string -> option JValue) (raw : string) :
  raw <> EmptyString ->
  (forall items, JS.startsWith "[" raw || JS.startsWith "{" raw = true ->
                 parse raw <> Some (JArr items)) ->
  Forall spokenEntry (formatTranscript parse (Some raw)).
Proof.
  intros Hne Hnot. unfold formatTranscript, formatTranscript_try.
  assert (Ht : JS.truthy raw = true) by (destruct raw; [congruence | reflexivity]).
  rewrite Ht. cbn [negb].
  pose proof (formatPlainText_spoken raw Hne) as Hplain.
  destruct (JS.startsWith "[" raw || JS.startsWith "{" raw) eqn:Hb; [|exact Hplain].
  destruct (parse raw) as [v|] eqn:Hp.
  - destruct v; try exact Hplain. exfalso. now apply (Hnot items).
  - unfold orDefault. rewrite Ht. repeat constructor.
    exists "System", raw. repeat split; [exact Hne | now left].
Qed.

Lemma formatTranscript_entries_spoken_witness :
  Forall spokenEntry
    (formatTranscript JSON.parse (Some ("aGENT: hello" +:+ nl +:+ "see you"))).
Proof.
  apply (formatTranscript_entries_spoken JSON.parse ("aGENT: hello" +:+ nl +:+ "see you")).
  - discriminate.
  - intros items H. discriminate H.
Defined.

(** X21. Reading free-form text goes line by line and keeps the order: the
    entries of two texts joined by a line break are the entries of the first
    followed by the entries of the second, as long as each text has a line
    that is not blank. *)
Theorem formatPlainText_joins (a b : string) :
  flat_map formatLine (JS.splitLines a) <> [] ->
  flat_map formatLine (JS.splitLines b) <> [] ->
  formatPlainText (a +:+ nl +:+ b) = formatPlainText a ++ formatPlainText b.
Proof.
  intros Ha Hb. unfold formatPlainText.
  rewrite splitLines_app, flat_map_app, length_app.
  destruct (flat_map formatLine (JS.splitLines a)) as [|x xs]; [congruence|].
  destruct (flat_map formatLine (JS.splitLines b)) as [|y ys]; [congruence|].
  reflexivity.
Qed.

Lemma formatPlainText_joins_witness :
  formatPlainText ("Agent: hello" +:+ nl +:+ "Driver: hi there")
  = [entry "Agent" "hello"; entry "Driver" "hi there"].
Proof.
  rewrite (formatPlainText_joins "Agent: hello" "Driver: hi there").
  - vm_compute. reflexivity.
  - vm_compute. discriminate.
  - vm_compute. discriminate.
Defined.

(** ** The entries of the key information *)

Section KeyShapeFacts.

Lemma toUpperCase_facts (c : ascii) :
  JS.isWord (JS.toUpperCase c) = JS.isWord c
  /\ JS.toUpperCase (JS.toUpperCase c) = JS.toUpperCase c
  /\ Ascii.eqb (JS.toUpperCase c) "_" = Ascii.eqb c "_".
Proof.
  destruct c as [[] [] [] [] [] [] [] []]; vm_compute; repeat split.
Qed.

Lemma capitalizeWords_idem (b : bool) (s : string) :
  JS.capitalizeWords b (JS.capitalizeWords b s) = JS.capitalizeWords b s.
Proof.
  revert b. induction s as [|c s IH]; intros b; simpl; [reflexivity|].
  destruct (toUpperCase_facts c) as (Hw & Hu & _).
  destruct (JS.isWord c && negb b) eqn:E.
  - rewrite Hw, E, Hu, IH. reflexivity.
  - rewrite E, IH. reflexivity.
Qed.

Lemma capitalizeWords_no_underscore (b : bool) (s : string) :
  noUnderscore s -> noUnderscore (JS.capitalizeWords b s).
Proof.
  unfold noUnderscore. revert b. induction s as [|c s IH]; intros b Hs; simpl; [exact Hs|].
  simpl in Hs. intros [H|H].
  - apply Hs. left.
    destruct (toUpperCase_facts c) as (_ & _ & He).
    destruct (JS.isWord c && negb b); [|exact H].
    apply Ascii.eqb_eq. rewrite <- He. now apply Ascii.eqb_eq.
  - apply (IH (JS.isWord c)); [|exact H]. intros Hin. apply Hs. now right.
Qed.

Lemma underscoresToSpaces_no_underscore (s : string) :
  noUnderscore (JS.underscoresToSpaces s).
Proof.
  unfold noUnderscore. induction s as [|c s IH]; simpl; [auto|].
  intros [H|H]; [|auto].
  destruct (Ascii.eqb_spec c "_") as [->|Hne]; [discriminate | congruence].
Qed.

Lemma underscoresToSpaces_id (s : string) :
  noUnderscore s -> JS.underscoresToSpaces s = s.
Proof.
  unfold noUnderscore. induction s as [|c s IH]; simpl; [reflexivity|].
  intros Hs. rewrite IH by tauto.
  destruct (Ascii.eqb_spec c "_") as [->|Hne]; [|reflexivity].
  exfalso. apply Hs. now left.
Qed.

Lemma transformKey_no_underscore (key : string) : noUnderscore (transformKey key).
Proof.
  unfold transformKey.
  apply capitalizeWords_no_underscore, underscoresToSpaces_no_underscore.
Qed.

(** A property of keys and values that the driver entries, the transcript
    entries and every copied field have is a property of all entries. *)
Lemma extractKeyInformation_all (R : string -> JValue -> Prop)
  (d : DriverInfo) (callAnalysis : option (list (string * JValue)))
  (pt : option ProcessedTranscript) :
  (forall K s, noUnderscore K -> R K (JStr s)) ->
  (forall key v, isStringOrNumber v = true -> R (transformKey key) v) ->
  forall K v, extractKeyInformation d callAnalysis pt !! K = Some v -> R K v.
Proof.
  intros Hstr Hcopy.
  assert (Hins : forall (m : gmap string JValue) K0 s,
            noUnderscore K0 ->
            (forall K v, m !! K = Some v -> R K v) ->
            forall K v, <[K0 := JStr s]> m !! K = Some v -> R K v).
  { intros m K0 s H0 Hm K v. rewrite lookup_insert. destruct (decide (K0 = K)) as [->|].
    - intros E. inversion E; subst. now apply Hstr.
    - apply Hm. }
  assert (Hfixed : forall K0, In K0 ["Call Summary"; "Sentiment"; "Key Points";
                                      "Driver Name"; "Load Number"; "Phone Number"] ->
                              noUnderscore K0).
  { intros K0 Hin. unfold noUnderscore.
    repeat (destruct Hin as [<-|Hin]; [vm_compute; intuition discriminate|]).
    destruct Hin. }
  rewrite extractKeyInformation_unfold.
  do 3 (apply Hins; [apply Hfixed; simpl; tauto|]).
  assert (H1 : forall K v, fromProcessedTranscript pt ∅ !! K = Some v -> R K v).
  { unfold fromProcessedTranscript. destruct pt as [pt|].
    - do 3 (apply Hins; [apply Hfixed; simpl; tauto|]).
      intros K v. rewrite lookup_empty. discriminate.
    - intros K v. rewrite lookup_empty. discriminate. }
  unfold fromCallAnalysis. destruct callAnalysis as [a|]; [|exact H1].
  generalize (map fst a). intros keys. revert H1.
  generalize (fromProcessedTranscript pt ∅).
  induction keys as [|key keys IH]; intros m Hm; simpl; [exact Hm|].
  apply IH. unfold copyField.
  destruct (getProperty key a) as [v0|]; [|exact Hm].
  destruct (isStringOrNumber v0) eqn:Ev; [|exact Hm].
  intros K v. rewrite lookup_insert. destruct (decide (transformKey key = K)) as [<-|].
  - intros E. inversion E; subst. now apply Hcopy.
  - apply Hm.
Qed.

End KeyShapeFacts.

(** X22. Every value of the key information is a string or a number: an
    analysis field that holds a boolean, [null], an array or an object is
    never copied. *)
Theorem keyInformation_values_primitive (d : DriverInfo)
  (callAnalysis : option (list (string * JValue))) (pt : option ProcessedTranscript)
  (K : string) (v : JValue) :
  extractKeyInformation d callAnalysis pt !! K = Some v ->
  isStringOrNumber v = true.
Proof.
  apply (extractKeyInformation_all (fun _ v => isStringOrNumber v = true)); auto.
Qed.

Lemma keyInformation_values_primitive_witness :
  isStringOrNumber (JStr "positive") = true.
Proof.
  apply (keyInformation_values_primitive Sample.ali (Some Sample.positiveAnalysis)
           (Some Sample.negativeTranscript) "Sentiment" (JStr "positive")).
  vm_compute. reflexivity.
Defined.

(** X23. No key of the key information contains an underscore: the fixed
    keys have none and the key of a copied analysis field has its underscores
    turned into spaces. *)
Theorem keyInformation_keys_no_underscore (d : DriverInfo)
  (callAnalysis : option (list (string * JValue))) (pt : option ProcessedTranscript)
  (K : string) (v : JValue) :
  extractKeyInformation d callAnalysis pt !! K = Some v ->
  noUnderscore K.
Proof.
  apply (extractKeyInformation_all (fun K _ => noUnderscore K)); auto.
  intros. apply transformKey_no_underscore.
Qed.

Lemma keyInformation_keys_no_underscore_witness : noUnderscore "Call Successful".
Proof.
  apply (keyInformation_keys_no_underscore Sample.ali
           (Some [("call_successful", JStr "yes")]) None
           "Call Successful" (JStr "yes")).
  vm_compute. reflexivity.
Defined.

(** X24. Turning an analysis key into a display key keeps its length and is
    idempotent: a key that is already a display key is left as it is. *)
Theorem transformKey_idempotent (key : string) :
  transformKey (transformKey key) = transformKey key
  /\ String.length (transformKey key) = String.length key.
Proof.
  split.
  - unfold transformKey at 1.
    rewrite (underscoresToSpaces_id _ (transformKey_no_underscore key)).
    unfold transformKey. apply capitalizeWords_idem.
  - unfold transformKey. generalize false.
    induction key as [|c key IH]; intros b; simpl; [reflexivity|].
    now rewrite IH.
Qed.
